(** * DCO capacity reporter: a shallow embedding of [capacity_reporter.py]

    The Python module is translated function by function, twice.

    First on values.  Python values are modelled as follows.

    - [int] is [Z]; [float] is an IEEE 754 binary64 value, taken from the
      Standard Library's [SpecFloat] with [prec = 53] and [emax = 1024].
      Arithmetic that mixes the two follows CPython: the integer operand is
      converted first, and a conversion that does not fit raises
      [OverflowError].
    - [str] is [string]; a character is one byte, so identifiers are taken
      to be ASCII as far as column widths are concerned.
    - an asset is a JSON object; each of the seven keys the program reads
      is an optional field, and subscripting an absent key raises
      [KeyError] with the key's name.  The fields have the types of the
      data model: [rack_units] an int, [power_watts] and
      [asset_age_years] an int or a float, the others strings.
    - the [racks] dict is an association list in insertion order, which is
      the order Python iterates a dict in.
    - a raised exception is the [Raise] branch of an error monad; nothing in
      the module catches one except [load_data].

    Then over a store of mutable objects passed by reference (modules
    [Heap], [HeapOps] and [HeapCode]), to state what the functions do to
    the objects they are given, and that the result does not depend on
    where the objects are.  The two translations are shown to agree. *)

From Stdlib Require Import ZArith Lia Bool List String Ascii.
From Stdlib Require Import Floats.SpecFloat DecimalString.
From Stdlib Require Import Sorting.Permutation Sorting.Sorted.
From stdpp Require Import list strings.
Import ListNotations.

Local Open Scope string_scope.
Local Open Scope list_scope.
Local Open Scope Z_scope.

(** ** Exceptions and the error monad *)

Inductive exn : Type :=
| KeyError (key : string)
| OverflowError.

Inductive result (A : Type) : Type :=
| Ok (a : A)
| Raise (e : exn).

Arguments Ok {A} a.
Arguments Raise {A} e.

Definition bind {A B : Type} (m : result A) (k : A -> result B) : result B :=
  match m with
  | Ok a => k a
  | Raise e => Raise e
  end.

Notation "x <- m ;; k" := (bind m (fun x => k))
  (at level 100, m at next level, right associativity).

(** [d[key]] on a JSON object whose [key] entry may be absent. *)
Definition getitem {A : Type} (key : string) (field : option A) : result A :=
  match field with
  | Some v => Ok v
  | None => Raise (KeyError key)
  end.

(** ** Python numbers *)

Module PyNum.

Definition prec : Z := 53.
Definition emax : Z := 1024.

Definition float : Type := spec_float.

Definition fadd : float -> float -> float := SFadd prec emax.
Definition fmul : float -> float -> float := SFmul prec emax.
Definition fdiv : float -> float -> float := SFdiv prec emax.

(** The integer [z] rounded to the nearest binary64 value, ties to even. *)
Definition float_of_Z (z : Z) : float := binary_normalize prec emax z 0 false.

(** Integers of magnitude [2^1024 - 2^970] and above round to an infinity. *)
Definition int_limit : Z := 2 ^ 1024 - 2 ^ 970.

(** [float(z)], as done implicitly when an [int] meets a [float]. *)
Definition float_of_int (z : Z) : result float :=
  if Z.abs z <? int_limit then Ok (float_of_Z z) else Raise OverflowError.

Inductive pynum : Type :=
| PInt (z : Z)
| PFloat (f : float).

(** [x + y] *)
Definition py_add (x y : pynum) : result pynum :=
  match x, y with
  | PInt a, PInt b => Ok (PInt (a + b))
  | PInt a, PFloat g => f <- float_of_int a ;; Ok (PFloat (fadd f g))
  | PFloat f, PInt b => g <- float_of_int b ;; Ok (PFloat (fadd f g))
  | PFloat f, PFloat g => Ok (PFloat (fadd f g))
  end.

(** [x / d] for a float divisor [d]. *)
Definition py_div_float (x : pynum) (d : float) : result float :=
  match x with
  | PInt a => f <- float_of_int a ;; Ok (fdiv f d)
  | PFloat f => Ok (fdiv f d)
  end.

(** [a / b] on two ints, [b] positive: the exact quotient rounded once.  The
    quotient is taken with [64 + log2 b] extra bits and a sticky bit, which
    is more than the 55 bits that make the final rounding exact. *)
Definition int_truediv (a b : Z) : result float :=
  if Z.abs a <? int_limit * b then
    let s := 64 + Z.log2 b in
    let n := Z.abs a * 2 ^ s in
    let m := 2 * (n / b) + (if n mod b =? 0 then 0 else 1) in
    Ok (binary_normalize prec emax (if a <? 0 then - m else m) (- (s + 1)) false)
  else Raise OverflowError.

(** [x >= t] for a float [t]; an int is compared by value, without
    rounding it. *)
Definition int_ge_float (z : Z) (t : float) : bool :=
  match t with
  | S754_nan => false
  | S754_infinity s => s
  | S754_zero _ => 0 <=? z
  | S754_finite s m e =>
      let v := if s then Zneg m else Zpos m in
      if 0 <=? e then v * 2 ^ e <=? z else v <=? z * 2 ^ (- e)
  end.

Definition py_ge (x : pynum) (t : float) : bool :=
  match x with
  | PInt z => int_ge_float z t
  | PFloat f => SFleb t f
  end.

End PyNum.
Export PyNum.

(** ** String formatting *)

Module Fmt.

Definition newline : string := String (ascii_of_nat 10) EmptyString.

Fixpoint repeat_string (s : string) (n : nat) : string :=
  match n with
  | O => EmptyString
  | S n' => s +:+ repeat_string s n'
  end.

(** [format(s, '<w')]: pad on the right up to width [w], never truncate. *)
Definition ljust (w : nat) (s : string) : string :=
  s +:+ repeat_string " " (w - String.length s).

Definition zfill (w : nat) (s : string) : string :=
  repeat_string "0" (w - String.length s) +:+ s.

(** Decimal digits of a natural number given as a non-negative [Z]. *)
Definition digits (n : Z) : string := NilZero.string_of_uint (N.to_uint (Z.to_N n)).

(** [str(z)] *)
Definition str_int (z : Z) : string :=
  if z <? 0 then "-" +:+ digits (- z) else digits z.

Definition round_half_even (num den : Z) : Z :=
  let q := num / den in
  match 2 * (num mod den) ?= den with
  | Lt => q
  | Gt => q + 1
  | Eq => if Z.even q then q else q + 1
  end.

(** [m * 2^e * 10^d] rounded to an integer, ties to even. *)
Definition scaled (d : nat) (m : positive) (e : Z) : Z :=
  if 0 <=? e then Zpos m * 2 ^ e * 10 ^ Z.of_nat d
  else round_half_even (Zpos m * 10 ^ Z.of_nat d) (2 ^ (- e)).

Definition fixed (d : nat) (n : Z) : string :=
  digits (n / 10 ^ Z.of_nat d) +:+ "." +:+ zfill d (digits (n mod 10 ^ Z.of_nat d)).

(** [format(f, '.df')] for [d >= 1]: the exact value of [f] rounded to [d]
    fractional digits, ties to even. *)
Definition format_f (d : nat) (f : float) : string :=
  match f with
  | S754_nan => "nan"
  | S754_infinity s => if s then "-inf" else "inf"
  | S754_zero s => (if s then "-" else "") +:+ fixed d 0
  | S754_finite s m e => (if s then "-" else "") +:+ fixed d (scaled d m e)
  end.

(** [format(x, '.df')] for a number: an int is converted to float first. *)
Definition py_format_f (d : nat) (x : pynum) : result string :=
  match x with
  | PInt z => f <- float_of_int z ;; Ok (format_f d f)
  | PFloat f => Ok (format_f d f)
  end.

End Fmt.
Export Fmt.

(** ** Configuration *)

Definition DATA_FILE : string := "dcim_data.json".
Definition MAX_RACK_UNITS : Z := 42.
Definition MAX_RACK_POWER_KVA : float := float_of_Z 5.
Definition EOL_AGE_YEARS : float := float_of_Z 5.
Definition CRITICAL_VENDORS : list string := ["HP"; "EMC"].

(** [str(EOL_AGE_YEARS)], the text an f-string substitutes for the float
    constant [5.0]. *)
Definition EOL_AGE_YEARS_str : string := "5.0".

(** The float literal [1000.0] and the int literal [100] once converted for
    a multiplication by a float. *)
Definition watts_per_kva : float := float_of_Z 1000.
Definition hundred : float := float_of_Z 100.

(** ** Data model *)

(** An asset record as [json.load] returns it: a field is [None] when the
    JSON object has no such key. *)
Record asset : Type := mk_asset {
  asset_id : option string;
  rack_id : option string;
  status : option string;
  rack_units : option Z;
  power_watts : option pynum;
  asset_age_years : option pynum;
  vendor : option string
}.

(** The value stored under a rack id in [racks]. *)
Record rack_metrics : Type := mk_rack_metrics {
  units_used : Z;
  power_used_watts : pynum
}.

(** One element of [capacity_metrics]. *)
Record capacity_metric : Type := mk_capacity_metric {
  cm_rack_id : string;
  cm_units_used : Z;
  cm_power_used_kva : string;
  cm_power_utilization : string;
  cm_units_utilization : string
}.

(** One element of [eol_assets]. *)
Record eol_entry : Type := mk_eol_entry {
  eol_id : string;
  eol_rack : string;
  eol_age : pynum;
  eol_status : string
}.

(** One element of [vendor_risk_assets]. *)
Record vendor_entry : Type := mk_vendor_entry {
  vr_id : string;
  vr_rack : string;
  vr_vendor : string;
  vr_age : pynum
}.

(** ** Insertion-ordered dictionaries *)

Module Dict.

Definition dict (V : Type) : Type := list (string * V).

(** [key in d] *)
Fixpoint mem {V : Type} (key : string) (d : dict V) : bool :=
  match d with
  | [] => false
  | (k, _) :: d' => if String.eqb k key then true else mem key d'
  end.

(** [d[key]] *)
Fixpoint get {V : Type} (key : string) (d : dict V) : result V :=
  match d with
  | [] => Raise (KeyError key)
  | (k, v) :: d' => if String.eqb k key then Ok v else get key d'
  end.

(** [d[key] = v]: an existing key keeps its place, a new one goes last. *)
Fixpoint set {V : Type} (key : string) (v : V) (d : dict V) : dict V :=
  match d with
  | [] => [(key, v)]
  | (k, w) :: d' =>
      if String.eqb k key then (k, v) :: d' else (k, w) :: set key v d'
  end.

Definition keys {V : Type} (d : dict V) : list string := map fst d.

End Dict.

(** ** [analyze_capacity] *)

(** Body of the first loop, lines 28-38. *)
Definition aggregate_step (racks : Dict.dict rack_metrics) (a : asset)
  : result (Dict.dict rack_metrics) :=
  rid <- getitem "rack_id" (rack_id a) ;;
  let racks :=
    if Dict.mem rid racks then racks
    else Dict.set rid (mk_rack_metrics 0 (PInt 0)) racks in
  st <- getitem "status" (status a) ;;
  if String.eqb st "Online" then
    m <- Dict.get rid racks ;;
    u <- getitem "rack_units" (rack_units a) ;;
    let m := mk_rack_metrics (units_used m + u) (power_used_watts m) in
    let racks := Dict.set rid m racks in
    m <- Dict.get rid racks ;;
    w <- getitem "power_watts" (power_watts a) ;;
    p <- py_add (power_used_watts m) w ;;
    Ok (Dict.set rid (mk_rack_metrics (units_used m) p) racks)
  else Ok racks.

Fixpoint aggregate (racks : Dict.dict rack_metrics) (assets : list asset)
  : result (Dict.dict rack_metrics) :=
  match assets with
  | [] => Ok racks
  | a :: rest => racks' <- aggregate_step racks a ;; aggregate racks' rest
  end.

(** Body of the second loop, lines 45-56, on one item of [racks.items()]. *)
Definition finalize_step (acc : list capacity_metric * pynum)
    (item : string * rack_metrics) : result (list capacity_metric * pynum) :=
  let '(capacity_metrics, total_power_used_watts) := acc in
  let '(rid, metrics) := item in
  power_used_kva <- py_div_float (power_used_watts metrics) watts_per_kva ;;
  let power_utilization := fmul (fdiv power_used_kva MAX_RACK_POWER_KVA) hundred in
  q <- int_truediv (units_used metrics) MAX_RACK_UNITS ;;
  let units_utilization := fmul q hundred in
  total <- py_add total_power_used_watts (power_used_watts metrics) ;;
  Ok (capacity_metrics ++
        [ {| cm_rack_id := rid;
             cm_units_used := units_used metrics;
             cm_power_used_kva := format_f 2 power_used_kva;
             cm_power_utilization := format_f 1 power_utilization +:+ "%";
             cm_units_utilization := format_f 1 units_utilization +:+ "%" |} ],
      total).

Fixpoint finalize (acc : list capacity_metric * pynum)
    (items : Dict.dict rack_metrics) : result (list capacity_metric * pynum) :=
  match items with
  | [] => Ok acc
  | item :: rest => acc' <- finalize_step acc item ;; finalize acc' rest
  end.

(** Returns [(capacity_metrics, total_assets, total_power_used_watts)]. *)
Definition analyze_capacity (assets : list asset)
  : result (list capacity_metric * Z * pynum) :=
  let total_assets := Z.of_nat (length assets) in
  racks <- aggregate [] assets ;;
  r <- finalize ([], PInt 0) racks ;;
  Ok (fst r, total_assets, snd r).

(** ** [check_compliance_and_eol] *)

(** [vendor in CRITICAL_VENDORS] *)
Definition in_list (s : string) (l : list string) : bool :=
  existsb (String.eqb s) l.

(** Body of the loop, lines 67-83. *)
Definition compliance_step (acc : list eol_entry * list vendor_entry) (a : asset)
  : result (list eol_entry * list vendor_entry) :=
  let '(eol_assets, vendor_risk_assets) := acc in
  age <- getitem "asset_age_years" (asset_age_years a) ;;
  is_eol <- (if py_ge age EOL_AGE_YEARS
             then st <- getitem "status" (status a) ;;
                  Ok (negb (String.eqb st "Decom Pending"))
             else Ok false) ;;
  eol_assets <- (if is_eol : bool
                 then id <- getitem "asset_id" (asset_id a) ;;
                      rack <- getitem "rack_id" (rack_id a) ;;
                      age <- getitem "asset_age_years" (asset_age_years a) ;;
                      Ok (eol_assets ++ [mk_eol_entry id rack age "EOL Risk"])
                 else Ok eol_assets) ;;
  v <- getitem "vendor" (vendor a) ;;
  is_risk <- (if in_list v CRITICAL_VENDORS
              then st <- getitem "status" (status a) ;;
                   Ok (String.eqb st "Online")
              else Ok false) ;;
  vendor_risk_assets <- (if is_risk : bool
                         then id <- getitem "asset_id" (asset_id a) ;;
                              rack <- getitem "rack_id" (rack_id a) ;;
                              v <- getitem "vendor" (vendor a) ;;
                              age <- getitem "asset_age_years" (asset_age_years a) ;;
                              Ok (vendor_risk_assets ++ [mk_vendor_entry id rack v age])
                         else Ok vendor_risk_assets) ;;
  Ok (eol_assets, vendor_risk_assets).

Fixpoint compliance_loop (acc : list eol_entry * list vendor_entry)
    (assets : list asset) : result (list eol_entry * list vendor_entry) :=
  match assets with
  | [] => Ok acc
  | a :: rest => acc' <- compliance_step acc a ;; compliance_loop acc' rest
  end.

(** Returns [(eol_assets, vendor_risk_assets)]. *)
Definition check_compliance_and_eol (assets : list asset)
  : result (list eol_entry * list vendor_entry) :=
  compliance_loop ([], []) assets.

(** ** [generate_report] *)

Fixpoint map_result {A B : Type} (f : A -> result B) (l : list A) : result (list B) :=
  match l with
  | [] => Ok []
  | x :: rest => y <- f x ;; ys <- map_result f rest ;; Ok (y :: ys)
  end.

(** ["\n".join(report)] *)
Fixpoint join_lines (report : list string) : string :=
  match report with
  | [] => ""
  | [l] => l
  | l :: rest => l +:+ newline +:+ join_lines rest
  end.

(** [', '.join(l)] *)
Fixpoint join_comma (l : list string) : string :=
  match l with
  | [] => ""
  | [s] => s
  | s :: rest => s +:+ ", " +:+ join_comma rest
  end.

Definition rule (c : string) (n : nat) : string := repeat_string c n.

Definition capacity_header : string :=
  ljust 10 "Rack ID" +:+ ljust 10 "U Used" +:+ ljust 15 "Power (kVA)"
  +:+ ljust 12 "U Util." +:+ ljust 12 "Power Util.".

Definition capacity_row (metric : capacity_metric) : string :=
  ljust 10 (cm_rack_id metric) +:+ ljust 10 (str_int (cm_units_used metric))
  +:+ ljust 15 (cm_power_used_kva metric) +:+ ljust 12 (cm_units_utilization metric)
  +:+ ljust 12 (cm_power_utilization metric).

Definition eol_title (n : nat) : string :=
  "### EOL Assets (Age >= " +:+ EOL_AGE_YEARS_str +:+ " Years): "
  +:+ str_int (Z.of_nat n) +:+ " Devices Identified".

Definition eol_header : string :=
  ljust 15 "Asset ID" +:+ ljust 10 "Rack ID" +:+ ljust 10 "Age (Yrs)" +:+ ljust 15 "Status".

Definition eol_row (e : eol_entry) : result string :=
  age <- py_format_f 1 (eol_age e) ;;
  Ok (ljust 15 (eol_id e) +:+ ljust 10 (eol_rack e) +:+ ljust 10 age
      +:+ ljust 15 (eol_status e)).

Definition eol_none : string :=
  "### EOL Assets: 0 devices identified. Compliance maintained.".

Definition vendor_title (n : nat) : string :=
  "### High-Risk Vendor Assets (" +:+ join_comma CRITICAL_VENDORS +:+ "): "
  +:+ str_int (Z.of_nat n) +:+ " Devices Identified".

Definition vendor_header : string :=
  ljust 15 "Asset ID" +:+ ljust 10 "Rack ID" +:+ ljust 10 "Vendor" +:+ ljust 10 "Age (Yrs)".

Definition vendor_row (e : vendor_entry) : result string :=
  age <- py_format_f 1 (vr_age e) ;;
  Ok (ljust 15 (vr_id e) +:+ ljust 10 (vr_rack e) +:+ ljust 10 (vr_vendor e)
      +:+ ljust 10 age).

Definition vendor_none : string :=
  "### High-Risk Vendors: No active assets from critical vendors identified.".

(** Lines 112-119: what the EOL branch appends to [report]. *)
Definition eol_section (eol_assets : list eol_entry) : result (list string) :=
  match eol_assets with
  | _ :: _ =>
      rows <- map_result eol_row eol_assets ;;
      Ok ([eol_title (length eol_assets); eol_header; rule "-" 50] ++ rows)
  | [] => Ok [eol_none]
  end.

(** Lines 124-131: what the vendor branch appends to [report]. *)
Definition vendor_section (vendor_risk_assets : list vendor_entry)
  : result (list string) :=
  match vendor_risk_assets with
  | _ :: _ =>
      rows <- map_result vendor_row vendor_risk_assets ;;
      Ok ([vendor_title (length vendor_risk_assets); vendor_header; rule "-" 45] ++ rows)
  | [] => Ok [vendor_none]
  end.

(** The list [report] as it stands at line 136, before it is joined. *)
Definition report_lines (capacity_metrics : list capacity_metric)
    (total_assets : Z) (total_power_watts : pynum)
    (eol_assets : list eol_entry) (vendor_risk_assets : list vendor_entry)
  : result (list string) :=
  let report :=
    [ rule "=" 60;
      "  DCO CAPACITY AND COMPLIANCE REPORT";
      "  Total Assets Tracked: " +:+ str_int total_assets ] in
  kva <- py_div_float total_power_watts watts_per_kva ;;
  let report := report ++ ["  Total Active Power Draw: " +:+ format_f 2 kva +:+ " kVA"] in
  let report := report ++ [rule "=" 60] in
  let report := report ++ [newline] in
  let report := report ++ ["--- 1. RACK CAPACITY UTILIZATION (by Rack ID) ---" +:+ newline] in
  let report := report ++ [capacity_header] in
  let report := report ++ [rule "-" 60] in
  let report := report ++ map capacity_row capacity_metrics in
  let report := report ++ [newline] in
  let report := report ++ ["--- 2. COMPLIANCE & END-OF-LIFE RISKS ---" +:+ newline] in
  eol <- eol_section eol_assets ;;
  let report := report ++ eol in
  let report := report ++ [newline] in
  vendors <- vendor_section vendor_risk_assets ;;
  let report := report ++ vendors in
  let report := report ++ [newline] in
  let report := report ++ ["--- END OF REPORT ---"] in
  Ok report.

Definition generate_report (capacity_metrics : list capacity_metric)
    (total_assets : Z) (total_power_watts : pynum)
    (eol_assets : list eol_entry) (vendor_risk_assets : list vendor_entry)
  : result string :=
  report <- report_lines capacity_metrics total_assets total_power_watts
              eol_assets vendor_risk_assets ;;
  Ok (join_lines report).

(** ** [load_data] and the [__main__] block *)

(** What one execution leaves behind: the texts passed to [print], in order,
    and the exception that ended it, if any. *)
Record outcome : Type := mk_outcome {
  stdout : list string;
  uncaught : option exn
}.

(** The file system as [load_data] sees it: [None] when opening the file
    raises [FileNotFoundError], otherwise the parsed list of records. *)
Definition load_data (filename : string) (file : option (list asset))
  : list string * list asset :=
  match file with
  | Some assets => ([], assets)
  | None => (["Error: Data file " +:+ filename +:+ " not found."], [])
  end.

(** Lines 141-150: the three calls made when [assets] is not empty. *)
Definition build_report (assets : list asset) : result string :=
  r <- analyze_capacity assets ;;
  let '(capacity_metrics, total_assets, total_power_watts) := r in
  c <- check_compliance_and_eol assets ;;
  let '(eol_assets, vendor_risk_assets) := c in
  generate_report capacity_metrics total_assets total_power_watts
    eol_assets vendor_risk_assets.

Definition main (file : option (list asset)) : outcome :=
  let '(printed, assets) := load_data DATA_FILE file in
  match assets with
  | _ :: _ =>
      match build_report assets with
      | Ok report_output => mk_outcome (printed ++ [report_output]) None
      | Raise e => mk_outcome printed (Some e)
      end
  | [] => mk_outcome printed None
  end.

(** * Well-formed snapshots

    A record of the data model: all seven fields present, with the types
    the data model gives them.  [json_of] is the JSON object that holds
    them. *)

Record full_asset : Type := mk_full_asset {
  fa_id : string;
  fa_rack : string;
  fa_status : string;
  fa_units : Z;
  fa_watts : pynum;
  fa_age : pynum;
  fa_vendor : string
}.

Definition json_of (a : full_asset) : asset :=
  {| asset_id := Some (fa_id a);
     rack_id := Some (fa_rack a);
     status := Some (fa_status a);
     rack_units := Some (fa_units a);
     power_watts := Some (fa_watts a);
     asset_age_years := Some (fa_age a);
     vendor := Some (fa_vendor a) |}.

Definition is_online (a : full_asset) : bool := String.eqb (fa_status a) "Online".

Definition in_rack (r : string) (a : full_asset) : bool := String.eqb (fa_rack a) r.

(** The online assets of rack [r], in input order. *)
Definition rack_online (r : string) (recs : list full_asset) : list full_asset :=
  List.filter (fun a => is_online a && in_rack r a) recs.

Definition sumZ (l : list Z) : Z := fold_right Z.add 0 l.

(** Left-to-right sum with Python's [+], starting from [acc]. *)
Fixpoint py_sum (acc : pynum) (ws : list pynum) : result pynum :=
  match ws with
  | [] => Ok acc
  | w :: rest => s <- py_add acc w ;; py_sum s rest
  end.

(** The distinct elements of [ids], each at the place of its first
    occurrence. *)
Fixpoint first_seen (ids : list string) : list string :=
  match ids with
  | [] => []
  | x :: rest => x :: List.filter (fun y => negb (String.eqb y x)) (first_seen rest)
  end.

Definition int_part (w : pynum) : Z :=
  match w with
  | PInt z => z
  | PFloat _ => 0
  end.

Definition watts_int (a : full_asset) : Z := int_part (fa_watts a).

(** Sizes the data model allows: non-negative integers whose totals stay
    below the largest integer a float conversion accepts. *)
Definition in_range (recs : list full_asset) : bool :=
  forallb (fun a => (0 <=? fa_units a) && (0 <=? watts_int a)) recs
  && (sumZ (map fa_units recs) <? int_limit)
  && (sumZ (map watts_int recs) <? int_limit).

(** The EOL test of line 68 and the entry of lines 69-74. *)
Definition eol_selected (a : full_asset) : bool :=
  py_ge (fa_age a) EOL_AGE_YEARS && negb (String.eqb (fa_status a) "Decom Pending").

Definition eol_of (a : full_asset) : eol_entry :=
  mk_eol_entry (fa_id a) (fa_rack a) (fa_age a) "EOL Risk".

(** The vendor test of line 77 and the entry of lines 78-83. *)
Definition vendor_selected (a : full_asset) : bool :=
  in_list (fa_vendor a) CRITICAL_VENDORS && String.eqb (fa_status a) "Online".

Definition vendor_of (a : full_asset) : vendor_entry :=
  mk_vendor_entry (fa_id a) (fa_rack a) (fa_vendor a) (fa_age a).

(** * Intermediate states of [analyze_capacity] *)

(** [racks] once lines 29-34 have run for rack [rid]. *)
Definition ensure_rack (rid : string) (racks : Dict.dict rack_metrics)
  : Dict.dict rack_metrics :=
  if Dict.mem rid racks then racks
  else Dict.set rid (mk_rack_metrics 0 (PInt 0)) racks.

(** What [racks] holds once the first loop has consumed [recs]. *)
Definition aggregated (recs : list full_asset) (d : Dict.dict rack_metrics) : Prop :=
  Dict.keys d = first_seen (map fa_rack recs)
  /\ forall r m, Dict.get r d = Ok m ->
       units_used m = sumZ (map fa_units (rack_online r recs))
       /\ py_sum (PInt 0) (map fa_watts (rack_online r recs)) = Ok (power_used_watts m).

(** The record line 50 appends for one item of [racks.items()]. *)
Definition metric_of (item : string * rack_metrics) : result capacity_metric :=
  let '(rid, metrics) := item in
  power_used_kva <- py_div_float (power_used_watts metrics) watts_per_kva ;;
  let power_utilization := fmul (fdiv power_used_kva MAX_RACK_POWER_KVA) hundred in
  q <- int_truediv (units_used metrics) MAX_RACK_UNITS ;;
  let units_utilization := fmul q hundred in
  Ok {| cm_rack_id := rid;
        cm_units_used := units_used metrics;
        cm_power_used_kva := format_f 2 power_used_kva;
        cm_power_utilization := format_f 1 power_utilization +:+ "%";
        cm_units_utilization := format_f 1 units_utilization +:+ "%" |}.

(** What the first loop leaves under one key of [racks]. *)
Definition rack_ok (recs : list full_asset) (item : string * rack_metrics) : Prop :=
  units_used (snd item) = sumZ (map fa_units (rack_online (fst item) recs))
  /\ py_sum (PInt 0) (map fa_watts (rack_online (fst item) recs))
     = Ok (power_used_watts (snd item)).

(** Position of the first occurrence of [x] in [ids] ([length ids] if
    there is none). *)
Fixpoint first_index (x : string) (ids : list string) : nat :=
  match ids with
  | [] => O
  | y :: rest => if String.eqb y x then O else S (first_index x rest)
  end.

(** The entry of a rack that no online asset names. *)
Definition idle_metric (rid : string) : capacity_metric :=
  {| cm_rack_id := rid;
     cm_units_used := 0;
     cm_power_used_kva := "0.00";
     cm_power_utilization := "0.0%";
     cm_units_utilization := "0.0%" |}.

(** * Sample snapshots *)

(** The two-asset scenario: one online HP asset and one offline Dell asset
    in rack R1. *)
Definition scenario : list full_asset :=
  [ mk_full_asset "A1" "R1" "Online" 2 (PInt 500) (PInt 6) "HP";
    mk_full_asset "A2" "R1" "Offline" 4 (PInt 1000) (PInt 1) "Dell" ].

(** Rack R2 is named first and only by assets that are not online. *)
Definition idle_rack_snapshot : list full_asset :=
  [ mk_full_asset "B1" "R2" "Offline" 4 (PInt 900) (PInt 2) "Dell";
    mk_full_asset "B2" "R1" "Online" 1 (PFloat (float_of_Z 350)) (PInt 3) "EMC";
    mk_full_asset "B3" "R2" "Decom Pending" 2 (PInt 300) (PInt 10) "HP" ].

(** The two utilization strings of lines 46-47 and 54-55, as functions of
    a rack's sums. *)
Definition units_utilization_of (units : Z) : result string :=
  q <- int_truediv units MAX_RACK_UNITS ;;
  Ok (format_f 1 (fmul q hundred) +:+ "%").

Definition power_utilization_of (watts : pynum) : result string :=
  power_used_kva <- py_div_float watts watts_per_kva ;;
  Ok (format_f 1 (fmul (fdiv power_used_kva MAX_RACK_POWER_KVA) hundred) +:+ "%").

(** [n] tenths of a percent as the report prints them. *)
Definition percent_of_tenths (n : Z) : string := fixed 1 n +:+ "%".

(** [100 * units / MAX_RACK_UNITS] and, for whole watts,
    [100 * (watts / 1000) / MAX_RACK_POWER_KVA], as exact fractions rounded
    to a whole number of tenths, ties to even. *)
Definition exact_units_tenths (units : Z) : Z := round_half_even (1000 * units) 42.
Definition exact_power_tenths (watts : Z) : Z := round_half_even watts 5.

(** The number of tenths [format(f, '.1f')] prints for a float [f] that is
    zero or positive and finite. *)
Definition tenths (f : float) : option Z :=
  match f with
  | S754_zero false => Some 0
  | S754_finite false m e => Some (scaled 1 m e)
  | _ => None
  end.

Definition units_agree (u : Z) : bool :=
  match int_truediv u MAX_RACK_UNITS with
  | Ok q =>
      match tenths (fmul q hundred) with
      | Some n => n =? exact_units_tenths u
      | None => false
      end
  | Raise _ => false
  end.

Definition power_agree (w : Z) : bool :=
  match py_div_float (PInt w) watts_per_kva with
  | Ok kva =>
      match tenths (fmul (fdiv kva MAX_RACK_POWER_KVA) hundred) with
      | Some n => n =? exact_power_tenths w
      | None => false
      end
  | Raise _ => false
  end.

(** One online asset drawing 5001 W, just over the 5 kVA limit, on 3 U. *)
Definition over_limit_snapshot : list full_asset :=
  [ mk_full_asset "C1" "R1" "Online" 3 (PInt 5001) (PInt 1) "Dell" ].

(** A number that [float()] accepts. *)
Definition float_ok (x : pynum) : bool :=
  match x with
  | PInt z => Z.abs z <? int_limit
  | PFloat _ => true
  end.

(** CPython's limit on the conversion of an int to text
    ([sys.int_info.default_max_str_digits]): [str], [format] and an f-string
    field raise [ValueError] on an int of more than 4300 decimal digits.
    [str_int] is the conversion of the ints within the limit. *)
Definition max_str_digits : Z := 4300.

(** An int that [str()] and the f-strings accept. *)
Definition str_ok (z : Z) : bool :=
  Z.of_nat (String.length (digits (Z.abs z))) <=? max_str_digits.

(** What lines 93-109 have put into [report] when the EOL branch is
    reached, for a total power of [kva] kVA. *)
Definition report_head (capacity_metrics : list capacity_metric)
    (total_assets : Z) (kva : float) : list string :=
  [ rule "=" 60;
    "  DCO CAPACITY AND COMPLIANCE REPORT";
    "  Total Assets Tracked: " +:+ str_int total_assets;
    "  Total Active Power Draw: " +:+ format_f 2 kva +:+ " kVA";
    rule "=" 60;
    newline;
    "--- 1. RACK CAPACITY UTILIZATION (by Rack ID) ---" +:+ newline;
    capacity_header;
    rule "-" 60 ]
  ++ map capacity_row capacity_metrics
  ++ [ newline; "--- 2. COMPLIANCE & END-OF-LIFE RISKS ---" +:+ newline ].

Definition report_end : list string := [newline; "--- END OF REPORT ---"].

(** The online HP asset of the scenario, aged 6. *)
Definition scenario_head : full_asset :=
  mk_full_asset "A1" "R1" "Online" 2 (PInt 500) (PInt 6) "HP".

(** * Records with missing fields *)

Definition present {A : Type} (field : option A) : bool :=
  match field with
  | Some _ => true
  | None => false
  end.

(** [key not in a], for the seven keys the program reads. *)
Definition absent (key : string) (a : asset) : bool :=
  if String.eqb key "asset_id" then negb (present (asset_id a))
  else if String.eqb key "rack_id" then negb (present (rack_id a))
  else if String.eqb key "status" then negb (present (status a))
  else if String.eqb key "rack_units" then negb (present (rack_units a))
  else if String.eqb key "power_watts" then negb (present (power_watts a))
  else if String.eqb key "asset_age_years" then negb (present (asset_age_years a))
  else if String.eqb key "vendor" then negb (present (vendor a))
  else false.

(** The fields [analyze_capacity] subscripts on [a] are all there:
    [rack_id] and [status], and for an online asset [rack_units] and
    [power_watts]. *)
Definition capacity_readable (a : asset) : bool :=
  match rack_id a, status a with
  | Some _, Some st =>
      if String.eqb st "Online"
      then present (rack_units a) && present (power_watts a)
      else true
  | _, _ => false
  end.

(** The fields [check_compliance_and_eol] subscripts on [a] are all there:
    [asset_age_years] and [vendor]; [status] if the age reaches the
    threshold or the vendor is critical; [asset_id] and [rack_id] if the
    asset is selected by either test. *)
Definition compliance_readable (a : asset) : bool :=
  match asset_age_years a, vendor a with
  | Some age, Some v =>
      let old := py_ge age EOL_AGE_YEARS in
      let critical := in_list v CRITICAL_VENDORS in
      match status a with
      | Some st =>
          let selected :=
            (old && negb (String.eqb st "Decom Pending"))
            || (critical && String.eqb st "Online") in
          if selected then present (asset_id a) && present (rack_id a) else true
      | None => negb old && negb critical
      end
  | _, _ => false
  end.

Definition readable (a : asset) : bool :=
  capacity_readable a && compliance_readable a.

(** An offline Dell asset, one year old, that has neither [asset_id] nor
    [rack_units] nor [power_watts]. *)
Definition sparse_asset : asset :=
  {| asset_id := None; rack_id := Some "R1"; status := Some "Offline";
     rack_units := None; power_watts := None;
     asset_age_years := Some (PInt 1); vendor := Some "Dell" |}.

(** Asset A9 without a [rack_id]. *)
Definition rackless_asset : asset :=
  {| asset_id := Some "A9"; rack_id := None; status := Some "Online";
     rack_units := Some 2; power_watts := Some (PInt 400);
     asset_age_years := Some (PInt 2); vendor := Some "Dell" |}.

(** * The same functions over a store of mutable objects

    Here the Python objects live in a heap and are passed by reference, as
    in the interpreter: [assets] is a reference to a list object whose
    items are references to the asset dicts; [racks], the inner dict of
    each rack, the returned lists and the records appended to them are
    objects that the functions allocate and update in place.  A location is
    an index into the heap; allocation appends.  Strings and numbers are
    immutable and stay values. *)

Module Heap.

Abbreviation loc := nat.

Inductive obj : Type :=
| OAsset (a : asset)
| OList (items : list loc)
| ORacks (d : Dict.dict loc)
| ORack (m : rack_metrics)
| OMetric (m : capacity_metric)
| OEol (e : eol_entry)
| OVendor (v : vendor_entry).

Abbreviation heap := (list obj).

(** A run ends with a Python exception, or is stuck on a reference that
    does not hold an object of the expected kind. *)
Inductive fault : Type :=
| Py (e : exn)
| BadRef (l : loc).

Definition M (A : Type) : Type := heap -> (A + fault) * heap.

Definition ret {A : Type} (a : A) : M A := fun h => (inl a, h).

Definition hbind {A B : Type} (m : M A) (k : A -> M B) : M B :=
  fun h =>
    match m h with
    | (inl a, h') => k a h'
    | (inr f, h') => (inr f, h')
    end.

Definition fail {A : Type} (f : fault) : M A := fun h => (inr f, h).

Definition lift {A : Type} (r : result A) : M A :=
  match r with
  | Ok a => ret a
  | Raise e => fail (Py e)
  end.

Definition alloc (o : obj) : M loc := fun h => (inl (length h), h ++ [o]).

Definition read (l : loc) : M obj :=
  fun h =>
    match h !! l with
    | Some o => (inl o, h)
    | None => (inr (BadRef l), h)
    end.

Definition write (l : loc) (o : obj) : M unit :=
  fun h =>
    if (l <? length h)%nat then (inl tt, <[l := o]> h) else (inr (BadRef l), h).

End Heap.

Notation "x <~ m ;; k" := (Heap.hbind m (fun x => k))
  (at level 100, m at next level, right associativity).
Notation "m ;;; k" := (Heap.hbind m (fun _ => k))
  (at level 100, right associativity).

Module HeapOps.
Import Heap.

Definition read_asset (l : loc) : M asset :=
  o <~ read l ;; match o with OAsset a => ret a | _ => fail (BadRef l) end.

Definition read_list (l : loc) : M (list loc) :=
  o <~ read l ;; match o with OList items => ret items | _ => fail (BadRef l) end.

Definition read_racks (l : loc) : M (Dict.dict loc) :=
  o <~ read l ;; match o with ORacks d => ret d | _ => fail (BadRef l) end.

Definition read_rack (l : loc) : M rack_metrics :=
  o <~ read l ;; match o with ORack m => ret m | _ => fail (BadRef l) end.

(** [asset[key]] through the reference [asset]. *)
Definition subscript {A : Type} (ref : loc) (key : string)
    (field : asset -> option A) : M A :=
  a <~ read_asset ref ;; lift (getitem key (field a)).

(** [lst.append(x)] *)
Definition append (lst : loc) (x : loc) : M unit :=
  items <~ read_list lst ;; write lst (OList (items ++ [x])).

(** [racks[rack_id]], the reference to the inner dict. *)
Definition rack_ref (racks : loc) (rid : string) : M loc :=
  d <~ read_racks racks ;; lift (Dict.get rid d).

(** The records a list object refers to, read in order; [from_obj] picks
    the kind of record expected. *)
Fixpoint read_each {A : Type} (from_obj : obj -> option A) (refs : list loc)
  : M (list A) :=
  match refs with
  | [] => ret []
  | r :: rest =>
      o <~ read r ;;
      match from_obj o with
      | Some v => vs <~ read_each from_obj rest ;; ret (v :: vs)
      | None => fail (BadRef r)
      end
  end.

Definition read_records {A : Type} (from_obj : obj -> option A) (lst : loc)
  : M (list A) :=
  refs <~ read_list lst ;; read_each from_obj refs.

Definition as_metric (o : obj) : option capacity_metric :=
  match o with OMetric m => Some m | _ => None end.

Definition as_eol (o : obj) : option eol_entry :=
  match o with OEol e => Some e | _ => None end.

Definition as_vendor (o : obj) : option vendor_entry :=
  match o with OVendor v => Some v | _ => None end.

End HeapOps.

Module HeapCode.
Import Heap HeapOps.

(** Lines 29-34: give [rid] a fresh inner dict unless it has one. *)
Definition ensure_rack (racks : loc) (rid : string) : M unit :=
  d <~ read_racks racks ;;
  if Dict.mem rid d then ret tt
  else inner <~ alloc (ORack (mk_rack_metrics 0 (PInt 0))) ;;
       d <~ read_racks racks ;;
       write racks (ORacks (Dict.set rid inner d)).

(** Body of the first loop, lines 28-38. *)
Definition aggregate_step (racks : loc) (asset : loc) : M unit :=
  rid <~ subscript asset "rack_id" rack_id ;;
  ensure_rack racks rid ;;;
  st <~ subscript asset "status" status ;;
  if String.eqb st "Online" then
    inner <~ rack_ref racks rid ;;
    m <~ read_rack inner ;;
    u <~ subscript asset "rack_units" rack_units ;;
    write inner (ORack (mk_rack_metrics (units_used m + u) (power_used_watts m))) ;;;
    inner <~ rack_ref racks rid ;;
    m <~ read_rack inner ;;
    w <~ subscript asset "power_watts" power_watts ;;
    p <~ lift (py_add (power_used_watts m) w) ;;
    write inner (ORack (mk_rack_metrics (units_used m) p))
  else ret tt.

Fixpoint aggregate (racks : loc) (assets : list loc) : M unit :=
  match assets with
  | [] => ret tt
  | asset :: rest => aggregate_step racks asset ;;; aggregate racks rest
  end.

(** Body of the second loop, lines 45-56; [total] is the local
    [total_power_used_watts]. *)
Definition finalize_step (capacity_metrics : loc) (total : pynum)
    (item : string * loc) : M pynum :=
  let '(rid, inner) := item in
  metrics <~ read_rack inner ;;
  power_used_kva <~ lift (py_div_float (power_used_watts metrics) watts_per_kva) ;;
  let power_utilization := fmul (fdiv power_used_kva MAX_RACK_POWER_KVA) hundred in
  q <~ lift (int_truediv (units_used metrics) MAX_RACK_UNITS) ;;
  let units_utilization := fmul q hundred in
  metrics <~ read_rack inner ;;
  total <~ lift (py_add total (power_used_watts metrics)) ;;
  metrics <~ read_rack inner ;;
  record <~ alloc (OMetric
      {| cm_rack_id := rid;
         cm_units_used := units_used metrics;
         cm_power_used_kva := format_f 2 power_used_kva;
         cm_power_utilization := format_f 1 power_utilization +:+ "%";
         cm_units_utilization := format_f 1 units_utilization +:+ "%" |}) ;;
  append capacity_metrics record ;;;
  ret total.

Fixpoint finalize (capacity_metrics : loc) (total : pynum)
    (items : list (string * loc)) : M pynum :=
  match items with
  | [] => ret total
  | item :: rest =>
      total <~ finalize_step capacity_metrics total item ;;
      finalize capacity_metrics total rest
  end.

(** Returns the reference to [capacity_metrics], [total_assets] and
    [total_power_used_watts]. *)
Definition analyze_capacity (assets : loc) : M (loc * Z * pynum) :=
  items <~ read_list assets ;;
  let total_assets := Z.of_nat (length items) in
  racks <~ alloc (ORacks []) ;;
  items <~ read_list assets ;;
  aggregate racks items ;;;
  capacity_metrics <~ alloc (OList []) ;;
  d <~ read_racks racks ;;
  total <~ finalize capacity_metrics (PInt 0) d ;;
  ret (capacity_metrics, total_assets, total).

(** Body of the loop, lines 67-83. *)
Definition compliance_step (eol_assets vendor_risk_assets : loc) (asset : loc)
  : M unit :=
  age <~ subscript asset "asset_age_years" asset_age_years ;;
  is_eol <~ (if py_ge age EOL_AGE_YEARS
             then st <~ subscript asset "status" status ;;
                  ret (negb (String.eqb st "Decom Pending"))
             else ret false) ;;
  (if is_eol : bool
   then id <~ subscript asset "asset_id" asset_id ;;
        rack <~ subscript asset "rack_id" rack_id ;;
        age <~ subscript asset "asset_age_years" asset_age_years ;;
        record <~ alloc (OEol (mk_eol_entry id rack age "EOL Risk")) ;;
        append eol_assets record
   else ret tt) ;;;
  v <~ subscript asset "vendor" vendor ;;
  is_risk <~ (if in_list v CRITICAL_VENDORS
              then st <~ subscript asset "status" status ;;
                   ret (String.eqb st "Online")
              else ret false) ;;
  if is_risk : bool
  then id <~ subscript asset "asset_id" asset_id ;;
       rack <~ subscript asset "rack_id" rack_id ;;
       v <~ subscript asset "vendor" vendor ;;
       age <~ subscript asset "asset_age_years" asset_age_years ;;
       record <~ alloc (OVendor (mk_vendor_entry id rack v age)) ;;
       append vendor_risk_assets record
  else ret tt.

Fixpoint compliance_loop (eol_assets vendor_risk_assets : loc) (assets : list loc)
  : M unit :=
  match assets with
  | [] => ret tt
  | asset :: rest =>
      compliance_step eol_assets vendor_risk_assets asset ;;;
      compliance_loop eol_assets vendor_risk_assets rest
  end.

(** Returns the references to [eol_assets] and [vendor_risk_assets]. *)
Definition check_compliance_and_eol (assets : loc) : M (loc * loc) :=
  eol_assets <~ alloc (OList []) ;;
  vendor_risk_assets <~ alloc (OList []) ;;
  items <~ read_list assets ;;
  compliance_loop eol_assets vendor_risk_assets items ;;;
  ret (eol_assets, vendor_risk_assets).

(** [generate_report] reads the three lists and their records through the
    references it is given; the text is built from what it finds there. *)
Definition generate_report (capacity_metrics : loc) (total_assets : Z)
    (total_power_watts : pynum) (eol_assets vendor_risk_assets : loc) : M string :=
  cm <~ read_records as_metric capacity_metrics ;;
  eol <~ read_records as_eol eol_assets ;;
  vr <~ read_records as_vendor vendor_risk_assets ;;
  lift (generate_report cm total_assets total_power_watts eol vr).

(** Lines 141-150. *)
Definition build_report (assets : loc) : M string :=
  r <~ analyze_capacity assets ;;
  let '(capacity_metrics, total_assets, total_power_watts) := r in
  c <~ check_compliance_and_eol assets ;;
  let '(eol_assets, vendor_risk_assets) := c in
  generate_report capacity_metrics total_assets total_power_watts
    eol_assets vendor_risk_assets.

End HeapCode.

(** * Relating the store to the values *)

Module HeapRel.
Import Heap.

(** Nothing that [h0] holds has changed in [h]. *)
Definition frame (h0 h : heap) : Prop :=
  (length h0 <= length h)%nat
  /\ forall l, (l < length h0)%nat -> h !! l = h0 !! l.

(** How a run ends when the computation on values ends with [r]. *)
Definition ending {A B : Type} (r : result A) (f : A -> B) : B + fault :=
  match r with
  | Ok a => inl (f a)
  | Raise e => inr (Py e)
  end.

(** [h'] has all the objects of [h], unchanged except perhaps the one at
    [lst]. *)
Definition modifies_only (lst : loc) (h h' : heap) : Prop :=
  (length h <= length h')%nat
  /\ forall l, (l < length h)%nat -> l <> lst -> h' !! l = h !! l.

(** The references [refs] hold the asset records [assets]. *)
Definition holds_assets (h : heap) (refs : list loc) (assets : list asset) : Prop :=
  List.Forall2 (fun r a => h !! r = Some (OAsset a)) refs assets.

(** An entry of the [racks] object against an entry of the dictionary of
    values. *)
Definition rack_rel (h : heap) (kl : string * loc) (km : string * rack_metrics) : Prop :=
  fst kl = fst km /\ h !! snd kl = Some (ORack (snd km)).

(** [racks] is an object allocated since [h0] that holds, through
    references allocated since [h0] and distinct from one another, the
    entries of [dp]. *)
Definition racks_inv (h0 : heap) (racks : loc) (dp : Dict.dict rack_metrics)
    (h : heap) : Prop :=
  frame h0 h
  /\ (length h0 <= racks < length h)%nat
  /\ exists d,
       h !! racks = Some (ORacks d)
       /\ List.Forall2 (rack_rel h) d dp
       /\ List.NoDup (map snd d)
       /\ List.Forall (fun kl => (length h0 <= snd kl < length h)%nat /\ snd kl <> racks) d.

(** The list object [lst] was allocated since [h0], below [lo], and holds
    distinct references, allocated from [lo] on, to the records that
    [to_obj] makes of [values]. *)
Definition fresh_list {A : Type} (to_obj : A -> obj) (h0 : heap) (lo lst : loc)
    (values : list A) (h : heap) : Prop :=
  (length h0 <= lst < lo)%nat
  /\ (lo <= length h)%nat
  /\ exists refs,
       h !! lst = Some (OList refs)
       /\ List.Forall2 (fun r v => h !! r = Some (to_obj v)) refs values
       /\ List.Forall (fun r => (lo <= r < length h)%nat) refs
       /\ List.NoDup refs.

(** The values of [racks.items()] while the second loop runs: the inner
    dicts are read, never written. *)
Definition items_rel (h : heap) (cml : loc) (d : Dict.dict loc)
    (dp : Dict.dict rack_metrics) : Prop :=
  List.Forall2 (rack_rel h) d dp
  /\ List.Forall (fun kl => (snd kl < length h)%nat /\ snd kl <> cml) d.

End HeapRel.

Module HeapSim.
Import Heap HeapRel.

(** From any store satisfying [P], the run [m] ends as the computation [r]
    on values does, up to [f] on the result; the store it leaves satisfies
    [Q] on success, and still holds [h0] unchanged on an exception. *)
Definition sim {A B : Type} (h0 : heap) (P : heap -> Prop) (m : M B)
    (r : result A) (f : A -> B) (Q : A -> heap -> Prop) : Prop :=
  forall h, P h ->
    exists h', m h = (ending r f, h')
               /\ match r with
                  | Ok a => Q a h'
                  | Raise _ => frame h0 h'
                  end.

(** The two result lists of the classifier while its loop runs. *)
Definition lists_inv (h0 : heap) (le lv : loc) (acc : list eol_entry * list vendor_entry)
    (h : heap) : Prop :=
  frame h0 h
  /\ le <> lv
  /\ fresh_list OEol h0 (S (Nat.max le lv)) le (fst acc) h
  /\ fresh_list OVendor h0 (S (Nat.max le lv)) lv (snd acc) h.

End HeapSim.

(** * Sample stores *)

(** The scenario's two records at locations 0 and 1 and the list of them at
    location 2. *)
Definition scenario_store : list Heap.obj :=
  [ Heap.OAsset (json_of scenario_head);
    Heap.OAsset (json_of (mk_full_asset "A2" "R1" "Offline" 4 (PInt 1000) (PInt 1) "Dell"));
    Heap.OList [0%nat; 1%nat] ].

(** The same two records placed elsewhere, among objects of an earlier
    call. *)
Definition scenario_store_moved : list Heap.obj :=
  [ Heap.OList [];
    Heap.OAsset (json_of (mk_full_asset "A2" "R1" "Offline" 4 (PInt 1000) (PInt 1) "Dell"));
    Heap.OMetric (idle_metric "R9");
    Heap.OList [4%nat; 1%nat];
    Heap.OAsset (json_of scenario_head) ].


(** * What each function reads *)

(** The part of a record that [analyze_capacity] can see: [rack_id] and
    [status], and the two capacity fields when the status is ["Online"]. *)
Definition capacity_view (a : asset)
  : option string * option string * (option Z * option pynum) :=
  (rack_id a, status a,
   match status a with
   | Some st => if String.eqb st "Online"
                then (rack_units a, power_watts a) else (None, None)
   | None => (None, None)
   end).

(** The part of a record that [check_compliance_and_eol] can see. *)
Definition compliance_view (a : asset)
  : option pynum * option string * option string * option string * option string :=
  (asset_age_years a, status a, asset_id a, rack_id a, vendor a).

(** The keys each function subscripts. *)
Definition capacity_keys : list string :=
  ["rack_id"; "status"; "rack_units"; "power_watts"].

Definition compliance_keys : list string :=
  ["asset_age_years"; "status"; "asset_id"; "rack_id"; "vendor"].

(** The EOL test on an age that is an int. *)
Definition eol_selected_int (a : full_asset) : bool :=
  (5 <=? int_part (fa_age a)) && negb (String.eqb (fa_status a) "Decom Pending").

(** The entry of rack [r] when every [power_watts] is an int: what
    [metric_of] makes of the rack's two sums. *)
Definition int_metric (recs : list full_asset) (r : string) : capacity_metric :=
  match metric_of (r, mk_rack_metrics
                        (sumZ (map fa_units (rack_online r recs)))
                        (PInt (sumZ (map watts_int (rack_online r recs))))) with
  | Ok m => m
  | Raise _ => idle_metric r
  end.


(** A record with a vendor but no age, and one that is complete except for
    its units while online. *)
Definition ageless_asset : asset :=
  {| asset_id := Some "A7"; rack_id := Some "R1"; status := Some "Offline";
     rack_units := Some 1; power_watts := Some (PInt 100);
     asset_age_years := None; vendor := Some "HP" |}.

Definition unitless_asset : asset :=
  {| asset_id := Some "A8"; rack_id := Some "R2"; status := Some "Online";
     rack_units := None; power_watts := Some (PInt 100);
     asset_age_years := Some (PInt 7); vendor := Some "EMC" |}.

(** The scenario's two records in the other order. *)
Definition scenario_swapped : list full_asset :=
  [ mk_full_asset "A2" "R1" "Offline" 4 (PInt 1000) (PInt 1) "Dell";
    scenario_head ].

(** An online asset whose power draw, an int, is too large for a float. *)
Definition huge_draw : full_asset :=
  mk_full_asset "H1" "R1" "Online" 1 (PInt (2 ^ 1024)) (PInt 1) "Dell".

(** Three records on two racks, all with whole-number watts. *)
Definition idle_rack_ints : list full_asset :=
  [ mk_full_asset "B1" "R2" "Offline" 4 (PInt 900) (PInt 2) "Dell";
    mk_full_asset "B2" "R1" "Online" 1 (PInt 350) (PInt 3) "EMC";
    mk_full_asset "B3" "R2" "Online" 2 (PInt 300) (PInt 10) "HP" ].

(** One asset exactly at the threshold age and one a year short of it. *)
Definition five_and_four : list full_asset :=
  [ mk_full_asset "T5" "R1" "Online" 1 (PInt 100) (PInt 5) "Dell";
    mk_full_asset "T4" "R1" "Online" 1 (PInt 100) (PInt 4) "Dell" ].

(** Three records on two racks that the scenario does not name. *)
Definition two_more_racks : list full_asset :=
  [ mk_full_asset "D1" "R7" "Online" 2 (PFloat (float_of_Z 250)) (PInt 6) "HP";
    mk_full_asset "D2" "R8" "Offline" 1 (PInt 80) (PInt 1) "Dell";
    mk_full_asset "D3" "R7" "Online" 4 (PInt 1200) (PInt 2) "EMC" ].
(** * Proofs *)

(** ** The error monad *)

Lemma bind_Ok {A B : Type} (m : result A) (k : A -> result B) (b : B) :
  bind m k = Ok b <-> exists a, m = Ok a /\ k a = Ok b.
Proof.
  destruct m as [a|e]; simpl; split.
  - intros H. exists a. auto.
  - intros (a' & Ha & Hk). injection Ha as ->. exact Hk.
  - discriminate.
  - intros (a' & Ha & _). discriminate.
Qed.

Lemma bind_Raise {A B : Type} (m : result A) (k : A -> result B) (e : exn) :
  bind m k = Raise e <-> m = Raise e \/ exists a, m = Ok a /\ k a = Raise e.
Proof.
  destruct m as [a|e']; simpl; split.
  - intros H. right. exists a. auto.
  - intros [H|(a' & Ha & Hk)]; [discriminate|]. injection Ha as ->. exact Hk.
  - intros [= ->]. left. reflexivity.
  - intros [[= ->]|(a' & Ha & _)]; [reflexivity|discriminate].
Qed.

(** ** Dictionaries *)

Module DictFacts.
Import Dict.

Lemma in_list_In (s : string) (l : list string) : in_list s l = true <-> In s l.
Proof.
  unfold in_list. rewrite existsb_exists. split.
  - intros (x & Hx & E). apply String.eqb_eq in E. subst. exact Hx.
  - intros H. exists s. split; [exact H|apply String.eqb_refl].
Qed.

Lemma mem_in_list {V : Type} (key : string) (d : dict V) :
  mem key d = in_list key (keys d).
Proof.
  induction d as [|[k v] d IH]; simpl; [reflexivity|].
  rewrite (String.eqb_sym key k). destruct (String.eqb k key); simpl; auto.
Qed.

Lemma mem_get {V : Type} (key : string) (d : dict V) :
  mem key d = true -> exists v, get key d = Ok v.
Proof.
  induction d as [|[k v] d IH]; simpl; [discriminate|].
  destruct (String.eqb k key); eauto.
Qed.

Lemma get_mem {V : Type} (key : string) (d : dict V) (v : V) :
  get key d = Ok v -> mem key d = true.
Proof.
  induction d as [|[k w] d IH]; simpl; [discriminate|].
  destruct (String.eqb k key); auto.
Qed.

Lemma get_In {V : Type} (key : string) (d : dict V) (v : V) :
  get key d = Ok v -> In (key, v) d.
Proof.
  induction d as [|[k w] d IH]; simpl; [discriminate|].
  destruct (String.eqb_spec k key) as [->|N].
  - intros [= ->]. left. reflexivity.
  - intros H. right. auto.
Qed.

Lemma In_get {V : Type} (key : string) (d : dict V) (v : V) :
  List.NoDup (keys d) -> In (key, v) d -> get key d = Ok v.
Proof.
  induction d as [|[k w] d IH]; simpl; [tauto|].
  intros ND. apply NoDup_cons_iff in ND as [Hk ND].
  intros [[= -> ->]|Hin].
  - rewrite String.eqb_refl. reflexivity.
  - destruct (String.eqb_spec k key) as [->|N]; [|auto].
    exfalso. apply Hk. apply (in_map fst) in Hin. exact Hin.
Qed.

Lemma get_set_eq {V : Type} (key : string) (v : V) (d : dict V) :
  get key (set key v d) = Ok v.
Proof.
  induction d as [|[k w] d IH]; simpl.
  - rewrite String.eqb_refl. reflexivity.
  - destruct (String.eqb k key) eqn:E; simpl; rewrite E; auto.
Qed.

Lemma get_set_ne {V : Type} (key key' : string) (v : V) (d : dict V) :
  key <> key' -> get key' (set key v d) = get key' d.
Proof.
  intros N. induction d as [|[k w] d IH]; simpl.
  - apply String.eqb_neq in N. rewrite N. reflexivity.
  - destruct (String.eqb_spec k key) as [->|Nk]; simpl.
    + apply String.eqb_neq in N. rewrite N. reflexivity.
    + destruct (String.eqb k key'); auto.
Qed.

Lemma set_set {V : Type} (key : string) (v w : V) (d : dict V) :
  set key w (set key v d) = set key w d.
Proof.
  induction d as [|[k u] d IH]; simpl.
  - rewrite String.eqb_refl. reflexivity.
  - destruct (String.eqb k key) eqn:E; simpl; rewrite E; [reflexivity|].
    f_equal. exact IH.
Qed.

Lemma keys_set {V : Type} (key : string) (v : V) (d : dict V) :
  keys (set key v d) = if mem key d then keys d else keys d ++ [key].
Proof.
  unfold keys. induction d as [|[k w] d IH]; simpl; [reflexivity|].
  destruct (String.eqb k key) eqn:E; simpl; [reflexivity|].
  rewrite IH. destruct (mem key d); reflexivity.
Qed.

End DictFacts.

(** ** The compliance classifier *)

Lemma compliance_step_full (eol : list eol_entry) (vr : list vendor_entry)
    (a : full_asset) :
  compliance_step (eol, vr) (json_of a) =
  Ok (eol ++ (if eol_selected a then [eol_of a] else []),
      vr ++ (if vendor_selected a then [vendor_of a] else [])).
Proof.
  unfold compliance_step, eol_selected, vendor_selected, eol_of, vendor_of, json_of.
  cbn [getitem bind asset_age_years status asset_id rack_id vendor].
  destruct (py_ge (fa_age a) EOL_AGE_YEARS);
    destruct (String.eqb (fa_status a) "Decom Pending");
    destruct (in_list (fa_vendor a) CRITICAL_VENDORS);
    destruct (String.eqb (fa_status a) "Online");
    cbn [getitem bind negb andb]; rewrite ?app_nil_r; reflexivity.
Qed.

Lemma compliance_loop_full (recs : list full_asset) :
  forall (eol : list eol_entry) (vr : list vendor_entry),
    compliance_loop (eol, vr) (map json_of recs) =
    Ok (eol ++ map eol_of (List.filter eol_selected recs),
        vr ++ map vendor_of (List.filter vendor_selected recs)).
Proof.
  induction recs as [|a recs IH]; intros eol vr.
  - simpl. rewrite !app_nil_r. reflexivity.
  - cbn [map compliance_loop List.filter]. rewrite compliance_step_full.
    cbn [bind]. rewrite IH.
    destruct (eol_selected a); destruct (vendor_selected a);
      cbn [map]; rewrite <- ?app_assoc, ?app_nil_r; reflexivity.
Qed.

Lemma filter_sublist {A : Type} (p : A -> bool) (l : list A) :
  sublist (List.filter p l) l.
Proof.
  induction l as [|x l IH]; simpl.
  - constructor.
  - destruct (p x); constructor; exact IH.
Qed.

Lemma int_age_threshold (z : Z) : py_ge (PInt z) EOL_AGE_YEARS = (5 <=? z).
Proof.
  unfold py_ge, EOL_AGE_YEARS.
  change (float_of_Z 5) with (S754_finite false 5629499534213120 (-50)).
  unfold int_ge_float.
  change (0 <=? -50) with false. cbv iota.
  change (- -50) with 50.
  apply Bool.eq_iff_eq_true. rewrite !Z.leb_le.
  change (Z.pos 5629499534213120) with (5 * 2 ^ 50). 
  assert (0 < 2 ^ 50) by (apply Z.pow_pos_nonneg; lia). nia.
Qed.

(** C2: on every well-formed snapshot the classifier returns, as EOL
    candidates, the entries of exactly the assets with
    [asset_age_years >= EOL_AGE_YEARS] and a status other than
    ["Decom Pending"], in input order; an asset whose status is
    ["Decom Pending"] is never selected, whatever its age. *)
Theorem eol_candidates_exact (recs : list full_asset) :
  exists (selected : list full_asset) (vr : list vendor_entry),
    check_compliance_and_eol (map json_of recs) = Ok (map eol_of selected, vr)
    /\ selected = List.filter eol_selected recs
    /\ sublist selected recs
    /\ (forall a, In a selected <->
          In a recs /\ py_ge (fa_age a) EOL_AGE_YEARS = true
          /\ fa_status a <> "Decom Pending")
    /\ (forall a, fa_status a = "Decom Pending" -> ~ In a selected).
Proof.
  exists (List.filter eol_selected recs), (map vendor_of (List.filter vendor_selected recs)).
  assert (Hsel : forall a, In a (List.filter eol_selected recs) <->
            In a recs /\ py_ge (fa_age a) EOL_AGE_YEARS = true
            /\ fa_status a <> "Decom Pending").
  { intros a. rewrite filter_In. unfold eol_selected.
    rewrite andb_true_iff, negb_true_iff, String.eqb_neq. reflexivity. }
  split; [|split; [reflexivity|split; [apply filter_sublist|split; [exact Hsel|]]]].
  - unfold check_compliance_and_eol. rewrite compliance_loop_full. reflexivity.
  - intros a Hst Hin. apply Hsel in Hin. tauto.
Qed.

(** C3: on every well-formed snapshot the classifier returns, as
    vendor-risk candidates, the entries of exactly the assets whose vendor
    is one of the critical vendors ["HP"] and ["EMC"] and whose status is
    ["Online"], in input order; an asset with any other status is never
    selected. *)
Theorem vendor_risk_exact (recs : list full_asset) :
  exists (eol : list eol_entry) (selected : list full_asset),
    check_compliance_and_eol (map json_of recs) = Ok (eol, map vendor_of selected)
    /\ selected = List.filter vendor_selected recs
    /\ sublist selected recs
    /\ (forall a, In a selected <->
          In a recs /\ (fa_vendor a = "HP" \/ fa_vendor a = "EMC")
          /\ fa_status a = "Online")
    /\ (forall a, fa_status a <> "Online" -> ~ In a selected).
Proof.
  exists (map eol_of (List.filter eol_selected recs)), (List.filter vendor_selected recs).
  assert (Hsel : forall a, In a (List.filter vendor_selected recs) <->
            In a recs /\ (fa_vendor a = "HP" \/ fa_vendor a = "EMC")
            /\ fa_status a = "Online").
  { intros a. rewrite filter_In. unfold vendor_selected.
    rewrite andb_true_iff, DictFacts.in_list_In, String.eqb_eq.
    unfold CRITICAL_VENDORS. simpl. intuition congruence. }
  split; [|split; [reflexivity|split; [apply filter_sublist|split; [exact Hsel|]]]].
  - unfold check_compliance_and_eol. rewrite compliance_loop_full. reflexivity.
  - intros a Hst Hin. apply Hsel in Hin. tauto.
Qed.

(** ** The first loop of [analyze_capacity] *)

Import DictFacts.

Lemma in_list_filter_ne (x y : string) (l : list string) :
  x <> y ->
  in_list x (List.filter (fun z => negb (String.eqb z y)) l) = in_list x l.
Proof.
  intros N. apply Bool.eq_iff_eq_true. rewrite !in_list_In, filter_In.
  rewrite negb_true_iff, String.eqb_neq. tauto.
Qed.

Lemma first_seen_In (x : string) (ids : list string) :
  In x (first_seen ids) <-> In x ids.
Proof.
  induction ids as [|y ids IH]; simpl; [tauto|].
  rewrite filter_In, negb_true_iff, String.eqb_neq, IH.
  destruct (String.eqb_spec y x); intuition congruence.
Qed.

Lemma first_seen_NoDup (ids : list string) : List.NoDup (first_seen ids).
Proof.
  induction ids as [|y ids IH]; simpl; constructor.
  - rewrite filter_In, negb_true_iff, String.eqb_neq. tauto.
  - apply List.NoDup_filter. exact IH.
Qed.

Lemma first_seen_snoc (ids : list string) (x : string) :
  first_seen (ids ++ [x]) =
  if in_list x (first_seen ids) then first_seen ids else first_seen ids ++ [x].
Proof.
  induction ids as [|y ids IH]; [reflexivity|].
  cbn [app first_seen]. rewrite IH. clear IH.
  destruct (String.eqb_spec x y) as [->|N].
  - replace (in_list y (y :: _)) with true
      by (symmetry; apply in_list_In; left; reflexivity).
    destruct (in_list y (first_seen ids)); [reflexivity|].
    rewrite List.filter_app. simpl. rewrite String.eqb_refl. simpl.
    rewrite app_nil_r. reflexivity.
  - replace (in_list x (y :: List.filter (fun z => negb (String.eqb z y)) (first_seen ids)))
      with (in_list x (first_seen ids)).
    + destruct (in_list x (first_seen ids)); [reflexivity|].
      rewrite List.filter_app. simpl.
      apply String.eqb_neq in N. rewrite N. reflexivity.
    + unfold in_list at 2. simpl. fold (in_list x (List.filter (fun z => negb (String.eqb z y)) (first_seen ids))).
      rewrite in_list_filter_ne by exact N.
      apply String.eqb_neq in N. rewrite N. reflexivity.
Qed.

Lemma rack_online_snoc (r : string) (recs : list full_asset) (a : full_asset) :
  rack_online r (recs ++ [a]) =
  rack_online r recs ++ (if is_online a && in_rack r a then [a] else []).
Proof.
  unfold rack_online. rewrite List.filter_app. simpl.
  destruct (is_online a && in_rack r a); reflexivity.
Qed.

Lemma sumZ_app (l1 l2 : list Z) : sumZ (l1 ++ l2) = sumZ l1 + sumZ l2.
Proof. induction l1 as [|x l1 IH]; simpl; [reflexivity|]. rewrite IH. lia. Qed.

Lemma py_sum_app (acc : pynum) (l1 l2 : list pynum) :
  py_sum acc (l1 ++ l2) = bind (py_sum acc l1) (fun s => py_sum s l2).
Proof.
  revert acc. induction l1 as [|w l1 IH]; intros acc; simpl; [reflexivity|].
  destruct (py_add acc w) as [s|e]; simpl; [apply IH|reflexivity].
Qed.

Lemma aggregate_app (d : Dict.dict rack_metrics) (l1 l2 : list asset) :
  aggregate d (l1 ++ l2) = bind (aggregate d l1) (fun d' => aggregate d' l2).
Proof.
  revert d. induction l1 as [|a l1 IH]; intros d; simpl; [reflexivity|].
  destruct (aggregate_step d a) as [d'|e]; simpl; [apply IH|reflexivity].
Qed.

Lemma aggregate_step_full (d : Dict.dict rack_metrics) (a : full_asset) :
  aggregate_step d (json_of a) =
  let d1 := ensure_rack (fa_rack a) d in
  if is_online a then
    bind (Dict.get (fa_rack a) d1) (fun m =>
    bind (py_add (power_used_watts m) (fa_watts a)) (fun p =>
    Ok (Dict.set (fa_rack a) (mk_rack_metrics (units_used m + fa_units a) p) d1)))
  else Ok d1.
Proof.
  unfold aggregate_step, json_of, is_online.
  cbn [getitem bind rack_id status rack_units power_watts].
  fold (ensure_rack (fa_rack a) d).
  destruct (String.eqb (fa_status a) "Online"); [|reflexivity].
  cbv zeta.
  destruct (Dict.get (fa_rack a) (ensure_rack (fa_rack a) d)) as [m|e]; [|reflexivity].
  cbn [bind units_used power_used_watts].
  rewrite get_set_eq. cbn [bind units_used power_used_watts].
  destruct (py_add (power_used_watts m) (fa_watts a)) as [p|e]; [|reflexivity].
  cbn [bind]. rewrite set_set. reflexivity.
Qed.

Lemma ensure_rack_keys (rid : string) (d : Dict.dict rack_metrics) :
  Dict.keys (ensure_rack rid d) =
  if in_list rid (Dict.keys d) then Dict.keys d else Dict.keys d ++ [rid].
Proof.
  unfold ensure_rack. rewrite <- mem_in_list.
  destruct (Dict.mem rid d) eqn:E; [reflexivity|].
  rewrite keys_set, E. reflexivity.
Qed.

Lemma ensure_rack_get_eq (rid : string) (d : Dict.dict rack_metrics) :
  Dict.get rid (ensure_rack rid d) =
  if Dict.mem rid d then Dict.get rid d else Ok (mk_rack_metrics 0 (PInt 0)).
Proof.
  unfold ensure_rack. destruct (Dict.mem rid d); [reflexivity|apply get_set_eq].
Qed.

Lemma ensure_rack_get_ne (rid r : string) (d : Dict.dict rack_metrics) :
  rid <> r -> Dict.get r (ensure_rack rid d) = Dict.get r d.
Proof.
  intros N. unfold ensure_rack. destruct (Dict.mem rid d); [reflexivity|].
  apply get_set_ne. exact N.
Qed.

Lemma rack_online_absent (r : string) (recs : list full_asset) :
  ~ In r (map fa_rack recs) -> rack_online r recs = [].
Proof.
  intros H. unfold rack_online. induction recs as [|a recs IH]; [reflexivity|].
  simpl in *. unfold in_rack at 1.
  destruct (String.eqb_spec (fa_rack a) r) as [E|N]; [tauto|].
  rewrite andb_false_r. apply IH. tauto.
Qed.

Lemma aggregated_ensure (recs : list full_asset) (d : Dict.dict rack_metrics)
    (rid : string) :
  aggregated recs d ->
  forall r m, Dict.get r (ensure_rack rid d) = Ok m ->
    units_used m = sumZ (map fa_units (rack_online r recs))
    /\ py_sum (PInt 0) (map fa_watts (rack_online r recs)) = Ok (power_used_watts m).
Proof.
  intros [Hk Hv] r m. destruct (String.eqb_spec rid r) as [<-|N].
  - rewrite ensure_rack_get_eq. destruct (Dict.mem rid d) eqn:E; [apply Hv|].
    intros [= <-]. rewrite rack_online_absent; [simpl; auto|].
    rewrite <- first_seen_In, <- Hk, <- in_list_In, <- mem_in_list, E. discriminate.
  - rewrite ensure_rack_get_ne by exact N. apply Hv.
Qed.

Lemma aggregated_step (recs : list full_asset) (d d' : Dict.dict rack_metrics)
    (a : full_asset) :
  aggregated recs d ->
  aggregate_step d (json_of a) = Ok d' ->
  aggregated (recs ++ [a]) d'.
Proof.
  intros [Hk Hv]. rewrite aggregate_step_full. cbv zeta. intros Hstep.
  assert (Hk1 : Dict.keys (ensure_rack (fa_rack a) d) = first_seen (map fa_rack (recs ++ [a]))).
  { rewrite map_app. simpl. rewrite first_seen_snoc, ensure_rack_keys, Hk. reflexivity. }
  pose proof (aggregated_ensure recs d (fa_rack a) (conj Hk Hv)) as Hv1.
  destruct (is_online a) eqn:Hon.
  - apply bind_Ok in Hstep as (m & Hm & Hstep).
    apply bind_Ok in Hstep as (p & Hp & Hstep). injection Hstep as <-.
    split.
    + rewrite keys_set, (get_mem _ _ _ Hm). exact Hk1.
    + intros r m'. rewrite rack_online_snoc, Hon. unfold in_rack. simpl.
      destruct (String.eqb_spec (fa_rack a) r) as [<-|N].
      * rewrite get_set_eq. intros [= <-]. simpl.
        destruct (Hv1 _ _ Hm) as [Hu Hw].
        rewrite !map_app, sumZ_app, py_sum_app, Hw, <- Hu. simpl.
        rewrite Hp. split; [lia|reflexivity].
      * rewrite get_set_ne by exact N. rewrite app_nil_r. apply Hv1.
  - injection Hstep as <-. split; [exact Hk1|].
    intros r m. rewrite rack_online_snoc, Hon. simpl. rewrite app_nil_r. apply Hv1.
Qed.

Lemma aggregated_nil : aggregated [] [].
Proof. split; [reflexivity|]. intros r m. discriminate. Qed.

Lemma aggregate_sound (recs : list full_asset) (d : Dict.dict rack_metrics) :
  aggregate [] (map json_of recs) = Ok d -> aggregated recs d.
Proof.
  revert d. induction recs as [|a recs IH] using rev_ind; intros d.
  - simpl. intros [= <-]. apply aggregated_nil.
  - rewrite map_app, aggregate_app. intros H.
    apply bind_Ok in H as (d0 & H0 & H1). simpl in H1.
    apply bind_Ok in H1 as (d1 & H1 & [= <-]).
    eapply aggregated_step; eauto.
Qed.

(** ** Sums *)

Lemma sumZ_nonneg (l : list Z) : Forall (fun z => 0 <= z) l -> 0 <= sumZ l.
Proof. induction 1 as [|z l Hz _ IH]; simpl; lia. Qed.

Lemma sumZ_filter_le {A : Type} (f : A -> Z) (p : A -> bool) (l : list A) :
  Forall (fun a => 0 <= f a) l ->
  0 <= sumZ (map f (List.filter p l)) <= sumZ (map f l).
Proof.
  induction 1 as [|a l Ha _ IH]; simpl; [lia|].
  destruct (p a); simpl; lia.
Qed.

Lemma py_sum_ints (ws : list pynum) :
  Forall (fun w => exists z, w = PInt z) ws ->
  forall i, py_sum (PInt i) ws = Ok (PInt (i + sumZ (map int_part ws))).
Proof.
  induction 1 as [|w ws [z ->] _ IH]; intros i; simpl.
  - f_equal. f_equal. lia.
  - rewrite IH. f_equal. f_equal. lia.
Qed.

Lemma float_of_int_small (z : Z) :
  0 <= z < int_limit -> float_of_int z = Ok (float_of_Z z).
Proof.
  intros H. unfold float_of_int.
  replace (Z.abs z <? int_limit) with true; [reflexivity|].
  symmetry. apply Z.ltb_lt. lia.
Qed.

Lemma py_sum_in_range (ws : list pynum) :
  Forall (fun w => 0 <= int_part w) ws ->
  forall acc,
    0 <= int_part acc ->
    int_part acc + sumZ (map int_part ws) < int_limit ->
    exists s, py_sum acc ws = Ok s
              /\ 0 <= int_part s <= int_part acc + sumZ (map int_part ws).
Proof.
  induction 1 as [|w ws Hw Hws IH]; intros acc Hacc Hlim; cbn [py_sum map] in *.
  - exists acc. change (sumZ []) with 0 in *. split; [reflexivity|lia].
  - change (sumZ (int_part w :: map int_part ws))
      with (int_part w + sumZ (map int_part ws)) in *.
    assert (Hrest : 0 <= sumZ (map int_part ws)).
    { apply sumZ_nonneg. rewrite Forall_map. exact Hws. }
    destruct acc as [a|f], w as [b|g]; cbn [py_add int_part bind] in *.
    + destruct (IH (PInt (a + b))) as (s & Hs & Hb); cbn [int_part] in *; [lia|lia|].
      exists s. split; [exact Hs|lia].
    + rewrite float_of_int_small by lia. cbn [bind].
      destruct (IH (PFloat (fadd (float_of_Z a) g))) as (s & Hs & Hb);
        cbn [int_part] in *; [lia|lia|].
      exists s. split; [exact Hs|lia].
    + rewrite float_of_int_small by lia. cbn [bind].
      destruct (IH (PFloat (fadd f (float_of_Z b)))) as (s & Hs & Hb);
        cbn [int_part] in *; [lia|lia|].
      exists s. split; [exact Hs|lia].
    + destruct (IH (PFloat (fadd f g))) as (s & Hs & Hb); cbn [int_part] in *; [lia|lia|].
      exists s. split; [exact Hs|lia].
Qed.

(** ** What [in_range] gives *)

Lemma in_range_inv (recs : list full_asset) :
  in_range recs = true ->
  Forall (fun a => 0 <= fa_units a) recs
  /\ Forall (fun a => 0 <= watts_int a) recs
  /\ sumZ (map fa_units recs) < int_limit
  /\ sumZ (map watts_int recs) < int_limit.
Proof.
  unfold in_range. rewrite !andb_true_iff, forallb_forall, !Z.ltb_lt.
  intros [[H Hu] Hw]. repeat split; auto.
  - apply List.Forall_forall. intros a Ha. specialize (H a Ha).
    apply andb_true_iff in H as [H _]. apply Z.leb_le in H. exact H.
  - apply List.Forall_forall. intros a Ha. specialize (H a Ha).
    apply andb_true_iff in H as [_ H]. apply Z.leb_le in H. exact H.
Qed.

Lemma in_range_prefix (recs : list full_asset) (a : full_asset) :
  in_range (recs ++ [a]) = true -> in_range recs = true.
Proof.
  intros H. destruct (in_range_inv _ H) as (Hu & Hw & Su & Sw).
  apply Forall_app in Hu as [Hu Hua]. apply Forall_app in Hw as [Hw Hwa].
  rewrite map_app, sumZ_app in Su, Sw. simpl in Su, Sw.
  apply Forall_inv in Hua. apply Forall_inv in Hwa.
  unfold in_range. rewrite !andb_true_iff, forallb_forall, !Z.ltb_lt.
  repeat split.
  - intros x Hx. rewrite List.Forall_forall in Hu, Hw.
    specialize (Hu x Hx). specialize (Hw x Hx). unfold watts_int in Hw.
    apply andb_true_iff. split; apply Z.leb_le; assumption.
  - lia.
  - unfold watts_int in *. lia.
Qed.

Lemma rack_power_in_range (recs : list full_asset) (r : string) :
  in_range recs = true ->
  exists p, py_sum (PInt 0) (map fa_watts (rack_online r recs)) = Ok p
            /\ 0 <= int_part p <= sumZ (map watts_int (rack_online r recs)).
Proof.
  intros H. destruct (in_range_inv _ H) as (_ & Hw & _ & Sw).
  pose proof (sumZ_filter_le watts_int (fun a => is_online a && in_rack r a) recs Hw) as Hle.
  fold (rack_online r recs) in Hle.
  destruct (py_sum_in_range (map fa_watts (rack_online r recs))) with (acc := PInt 0)
    as (p & Hp & Hb).
  - rewrite Forall_map. unfold rack_online.
    apply List.Forall_forall. intros a Ha. apply filter_In in Ha as [Ha _].
    rewrite List.Forall_forall in Hw. apply (Hw a Ha).
  - simpl. lia.
  - simpl. rewrite map_map. fold watts_int.
    change (fun x => int_part (fa_watts x)) with watts_int. lia.
  - exists p. split; [exact Hp|]. simpl in Hb. rewrite map_map in Hb.
    change (fun x => int_part (fa_watts x)) with watts_int in Hb. lia.
Qed.

Lemma aggregate_total (recs : list full_asset) :
  in_range recs = true ->
  exists d, aggregate [] (map json_of recs) = Ok d.
Proof.
  induction recs as [|a recs IH] using rev_ind; intros Hr.
  - exists []. reflexivity.
  - destruct (IH (in_range_prefix _ _ Hr)) as (d & Hd).
    pose proof (aggregate_sound _ _ Hd) as Hagg.
    rewrite map_app, aggregate_app, Hd. simpl.
    rewrite aggregate_step_full. cbv zeta.
    destruct (is_online a) eqn:Hon; [|simpl; eauto].
    assert (Hmem : exists m, Dict.get (fa_rack a) (ensure_rack (fa_rack a) d) = Ok m).
    { rewrite ensure_rack_get_eq. destruct (Dict.mem (fa_rack a) d) eqn:E; [|eauto].
      apply mem_get. exact E. }
    destruct Hmem as (m & Hm). rewrite Hm. cbn [bind].
    destruct (aggregated_ensure _ _ _ Hagg _ _ Hm) as [_ Hw].
    destruct (rack_power_in_range (recs ++ [a]) (fa_rack a) Hr) as (p & Hp & _).
    rewrite rack_online_snoc, Hon in Hp. unfold in_rack in Hp.
    rewrite String.eqb_refl in Hp. simpl in Hp.
    rewrite map_app, py_sum_app, Hw in Hp. simpl in Hp.
    destruct (py_add (power_used_watts m) (fa_watts a)) as [q|e]; [|discriminate].
    simpl. eauto.
Qed.

(** ** The second loop of [analyze_capacity] *)

Lemma finalize_step_Ok (acc cm : list capacity_metric) (tot t : pynum)
    (item : string * rack_metrics) :
  finalize_step (acc, tot) item = Ok (cm, t) <->
  exists m, metric_of item = Ok m /\ cm = acc ++ [m]
            /\ py_add tot (power_used_watts (snd item)) = Ok t.
Proof.
  destruct item as [rid metrics]. unfold finalize_step, metric_of. cbn [snd].
  destruct (py_div_float (power_used_watts metrics) watts_per_kva) as [kva|e]; cbn [bind].
  2:{ split; [discriminate|]. intros (m & H & _). discriminate. }
  destruct (int_truediv (units_used metrics) MAX_RACK_UNITS) as [q|e]; cbn [bind].
  2:{ split; [discriminate|]. intros (m & H & _). discriminate. }
  destruct (py_add tot (power_used_watts metrics)) as [s|e]; cbn [bind].
  2:{ split; [discriminate|]. intros (m & _ & _ & H). discriminate. }
  split.
  - intros [= <- <-]. eexists. split; [reflexivity|]. split; reflexivity.
  - intros (m & [= <-] & -> & [= ->]). reflexivity.
Qed.

Lemma finalize_Ok (d : Dict.dict rack_metrics) :
  forall (acc cm : list capacity_metric) (tot t : pynum),
    finalize (acc, tot) d = Ok (cm, t) <->
    exists ms, map_result metric_of d = Ok ms /\ cm = acc ++ ms
               /\ py_sum tot (map (fun item => power_used_watts (snd item)) d) = Ok t.
Proof.
  induction d as [|item d IH]; intros acc cm tot t; cbn [finalize map_result py_sum map].
  - split.
    + intros [= <- <-]. exists []. rewrite app_nil_r. auto.
    + intros (ms & [= <-] & -> & [= ->]). rewrite app_nil_r. reflexivity.
  - rewrite bind_Ok. split.
    + intros ([acc' tot'] & Hstep & Hrest).
      apply finalize_step_Ok in Hstep as (m & Hm & -> & Hadd).
      apply IH in Hrest as (ms & Hms & -> & Hsum).
      exists (m :: ms). rewrite Hm, Hms, Hadd. cbn [bind].
      rewrite <- app_assoc. auto.
    + intros (ms & Hms & -> & Hsum).
      apply bind_Ok in Hms as (m & Hm & Hms).
      apply bind_Ok in Hms as (ms' & Hms' & [= <-]).
      apply bind_Ok in Hsum as (s & Hadd & Hsum).
      exists (acc ++ [m], s). split.
      * apply finalize_step_Ok. eauto.
      * apply IH. exists ms'. rewrite <- app_assoc. auto.
Qed.

Lemma analyze_capacity_Ok (assets : list asset) (cm : list capacity_metric)
    (n : Z) (t : pynum) :
  analyze_capacity assets = Ok (cm, n, t) <->
  exists d, aggregate [] assets = Ok d
            /\ map_result metric_of d = Ok cm
            /\ n = Z.of_nat (length assets)
            /\ py_sum (PInt 0) (map (fun item => power_used_watts (snd item)) d) = Ok t.
Proof.
  unfold analyze_capacity. rewrite bind_Ok. split.
  - intros (d & Hd & H). apply bind_Ok in H as ([cm' t'] & Hf & [= <- <- <-]).
    apply finalize_Ok in Hf as (ms & Hms & -> & Hsum). exists d. auto.
  - intros (d & Hd & Hms & -> & Hsum). exists d. split; [exact Hd|].
    apply bind_Ok. exists (cm, t). split; [|reflexivity].
    apply finalize_Ok. exists cm. auto.
Qed.

Lemma map_result_Forall2 {A B : Type} (f : A -> result B) (l : list A) (ms : list B) :
  map_result f l = Ok ms <-> List.Forall2 (fun x y => f x = Ok y) l ms.
Proof.
  revert ms. induction l as [|x l IH]; intros ms; cbn [map_result].
  - split; [intros [= <-]; constructor|]. intros H. inversion H. reflexivity.
  - rewrite bind_Ok. split.
    + intros (y & Hy & H). apply bind_Ok in H as (ys & Hys & [= <-]).
      constructor; [exact Hy|]. apply IH. exact Hys.
    + intros H. inversion H as [|x' y l' ys Hy Hys]; subst.
      exists y. split; [exact Hy|]. apply IH in Hys. rewrite Hys. reflexivity.
Qed.

Lemma metric_of_rack_id (item : string * rack_metrics) (m : capacity_metric) :
  metric_of item = Ok m ->
  cm_rack_id m = fst item /\ cm_units_used m = units_used (snd item).
Proof.
  destruct item as [rid metrics]. unfold metric_of. intros H.
  apply bind_Ok in H as (kva & _ & H). apply bind_Ok in H as (q & _ & [= <-]).
  split; reflexivity.
Qed.

Lemma metric_of_in_range (rid : string) (metrics : rack_metrics) :
  0 <= units_used metrics < int_limit ->
  0 <= int_part (power_used_watts metrics) < int_limit ->
  exists m, metric_of (rid, metrics) = Ok m.
Proof.
  intros Hu Hp. unfold metric_of.
  assert (exists kva, py_div_float (power_used_watts metrics) watts_per_kva = Ok kva)
    as (kva & ->).
  { destruct (power_used_watts metrics) as [z|f]; simpl in *; [|eauto].
    rewrite float_of_int_small by lia. simpl. eauto. }
  cbn [bind].
  assert (exists q, int_truediv (units_used metrics) MAX_RACK_UNITS = Ok q) as (q & ->).
  { unfold int_truediv.
    replace (Z.abs (units_used metrics) <? int_limit * MAX_RACK_UNITS) with true; [eauto|].
    symmetry. apply Z.ltb_lt. unfold MAX_RACK_UNITS. lia. }
  cbn [bind]. eauto.
Qed.

(** ** Every online asset belongs to one rack group *)

Lemma concat_without (A : Type) (g : string -> list A) (x : string) (l : list string) :
  List.NoDup l -> (~ In x l -> g x = []) ->
  Permutation (g x ++ concat (map g (List.filter (fun y => negb (String.eqb y x)) l)))
              (concat (map g l)).
Proof.
  induction 1 as [|y l Hy ND IH]; intros Hx.
  - simpl. rewrite Hx by tauto. reflexivity.
  - simpl. destruct (String.eqb_spec y x) as [->|N]; simpl.
    + apply Permutation_app_head.
      replace (List.filter (fun y => negb (String.eqb y x)) l) with l; [reflexivity|].
      clear IH ND Hx. induction l as [|z l IHl]; [reflexivity|]. simpl.
      destruct (String.eqb_spec z x) as [->|Nz]; simpl.
      * exfalso. apply Hy. left. reflexivity.
      * f_equal. apply IHl. intros H. apply Hy. right. exact H.
    + rewrite Permutation_app_swap_app. apply Permutation_app_head.
      apply IH. intros H. apply Hx. intros [E|E]; [congruence|tauto].
Qed.

Lemma rack_online_partition (recs : list full_asset) :
  Permutation
    (concat (map (fun r => rack_online r recs) (first_seen (map fa_rack recs))))
    (List.filter is_online recs).
Proof.
  induction recs as [|a recs IH]; [reflexivity|].
  cbn [map first_seen concat].
  set (x := fa_rack a).
  set (F := List.filter (fun y => negb (String.eqb y x)) (first_seen (map fa_rack recs))).
  assert (Hx : rack_online x (a :: recs)
               = (if is_online a then [a] else []) ++ rack_online x recs).
  { unfold rack_online. simpl. unfold in_rack at 1. subst x.
    rewrite String.eqb_refl, andb_true_r. destruct (is_online a); reflexivity. }
  assert (HF : map (fun r => rack_online r (a :: recs)) F
               = map (fun r => rack_online r recs) F).
  { apply map_ext_in. intros r Hr. subst F. apply filter_In in Hr as [_ Hr].
    apply negb_true_iff in Hr. unfold rack_online. simpl. unfold in_rack at 1.
    rewrite String.eqb_sym in Hr. fold x. rewrite Hr, andb_false_r. reflexivity. }
  rewrite Hx, HF, <- app_assoc.
  transitivity ((if is_online a then [a] else []) ++ List.filter is_online recs).
  - apply Permutation_app_head. rewrite <- IH. subst F.
    apply (concat_without _ (fun r => rack_online r recs)).
    + apply first_seen_NoDup.
    + intros H. apply rack_online_absent. rewrite first_seen_In in H. exact H.
  - simpl. destruct (is_online a); reflexivity.
Qed.

Lemma sumZ_Permutation (l l' : list Z) : Permutation l l' -> sumZ l = sumZ l'.
Proof. induction 1; simpl in *; lia. Qed.

Lemma sumZ_concat {A : Type} (f : A -> Z) (ls : list (list A)) :
  sumZ (map f (concat ls)) = sumZ (map (fun l => sumZ (map f l)) ls).
Proof.
  induction ls as [|l ls IH]; simpl; [reflexivity|].
  rewrite map_app, sumZ_app. unfold sumZ in *. simpl. rewrite IH. reflexivity.
Qed.

Lemma rack_sums_partition (f : full_asset -> Z) (recs : list full_asset) :
  sumZ (map (fun r => sumZ (map f (rack_online r recs))) (first_seen (map fa_rack recs)))
  = sumZ (map f (List.filter is_online recs)).
Proof.
  rewrite <- (sumZ_Permutation _ _ (Permutation_map f (rack_online_partition recs))).
  rewrite sumZ_concat, map_map. reflexivity.
Qed.

(** ** [analyze_capacity] on a well-formed snapshot *)

Lemma aggregated_items (recs : list full_asset) (d : Dict.dict rack_metrics) :
  aggregated recs d -> List.Forall (rack_ok recs) d.
Proof.
  intros [Hk Hv]. apply List.Forall_forall. intros [r m] Hin.
  apply Hv. apply In_get; [|exact Hin]. rewrite Hk. apply first_seen_NoDup.
Qed.

Lemma map_result_total {A B : Type} (f : A -> result B) (l : list A) :
  List.Forall (fun x => exists y, f x = Ok y) l -> exists ys, map_result f l = Ok ys.
Proof.
  induction 1 as [|x l [y Hy] _ [ys Hys]]; cbn [map_result].
  - eauto.
  - rewrite Hy, Hys. cbn [bind]. eauto.
Qed.

Lemma sumZ_le_keys (d : Dict.dict rack_metrics) (h : string -> Z) (k : rack_metrics -> Z) :
  List.Forall (fun item => 0 <= k (snd item) <= h (fst item)) d ->
  0 <= sumZ (map (fun item => k (snd item)) d) <= sumZ (map h (Dict.keys d)).
Proof.
  unfold Dict.keys, sumZ. induction 1 as [|item d [H1 H2] _ [I1 I2]]; simpl in *; [lia|].
  split; [apply Z.add_nonneg_nonneg|apply Z.add_le_mono]; assumption.
Qed.

Lemma rack_ok_bounds (recs : list full_asset) (item : string * rack_metrics) :
  in_range recs = true -> rack_ok recs item ->
  0 <= units_used (snd item) < int_limit
  /\ 0 <= int_part (power_used_watts (snd item))
       <= sumZ (map watts_int (rack_online (fst item) recs))
  /\ sumZ (map watts_int (rack_online (fst item) recs)) < int_limit.
Proof.
  intros Hr [Hu Hp].
  destruct (in_range_inv _ Hr) as (Hun & Hwn & Su & Sw).
  pose proof (sumZ_filter_le fa_units (fun a => is_online a && in_rack (fst item) a) recs Hun) as Hule.
  pose proof (sumZ_filter_le watts_int (fun a => is_online a && in_rack (fst item) a) recs Hwn) as Hwle.
  fold (rack_online (fst item) recs) in Hule, Hwle.
  destruct (rack_power_in_range recs (fst item) Hr) as (p & Hp' & Hb).
  rewrite Hp in Hp'. injection Hp' as <-.
  rewrite Hu. lia.
Qed.

Lemma analyze_capacity_full (recs : list full_asset) :
  in_range recs = true ->
  exists (d : Dict.dict rack_metrics) (cm : list capacity_metric) (total : pynum),
    analyze_capacity (map json_of recs) = Ok (cm, Z.of_nat (length recs), total)
    /\ Dict.keys d = first_seen (map fa_rack recs)
    /\ List.Forall (rack_ok recs) d
    /\ List.Forall2 (fun item m => metric_of item = Ok m) d cm
    /\ py_sum (PInt 0) (map (fun item => power_used_watts (snd item)) d) = Ok total.
Proof.
  intros Hr. destruct (aggregate_total recs Hr) as (d & Hd).
  pose proof (aggregate_sound _ _ Hd) as Hagg.
  pose proof (aggregated_items _ _ Hagg) as Hitems.
  destruct Hagg as [Hk _].
  destruct (map_result_total metric_of d) as (cm & Hcm).
  { eapply List.Forall_impl; [|exact Hitems]. intros [r m] Hok.
    destruct (rack_ok_bounds recs (r, m) Hr Hok) as (Hu & Hp & Hlt).
    apply metric_of_in_range; cbn [snd] in *; lia. }
  destruct (in_range_inv _ Hr) as (_ & Hwn & _ & Sw).
  assert (Hb : List.Forall (fun item => 0 <= int_part (power_used_watts (snd item))
                 <= sumZ (map watts_int (rack_online (fst item) recs))) d).
  { eapply List.Forall_impl; [|exact Hitems]. intros item Hok.
    destruct (rack_ok_bounds recs item Hr Hok) as (_ & Hp & _). exact Hp. }
  pose proof (sumZ_le_keys d (fun r => sumZ (map watts_int (rack_online r recs)))
                (fun m => int_part (power_used_watts m)) Hb) as Hsum.
  rewrite Hk, rack_sums_partition in Hsum.
  pose proof (sumZ_filter_le watts_int is_online recs Hwn) as Hon.
  destruct (py_sum_in_range (map (fun item => power_used_watts (snd item)) d))
    with (acc := PInt 0) as (total & Ht & _).
  { rewrite Forall_map. eapply List.Forall_impl; [|exact Hb]. intros item H. cbv beta in *. lia. }
  { simpl. lia. }
  { cbn [int_part]. rewrite map_map. lia. }
  exists d, cm, total.
  split; [|split; [exact Hk|split; [exact Hitems|split; [|exact Ht]]]].
  - apply analyze_capacity_Ok. exists d. rewrite length_map. auto.
  - apply map_result_Forall2. exact Hcm.
Qed.

Import DictFacts.

(** ** Claims about [analyze_capacity] *)

Lemma metrics_keys (d : Dict.dict rack_metrics) (cm : list capacity_metric) :
  List.Forall2 (fun item m => metric_of item = Ok m) d cm ->
  map cm_rack_id cm = Dict.keys d.
Proof.
  unfold Dict.keys. induction 1 as [|item m d cm H _ IH]; simpl; [reflexivity|].
  apply metric_of_rack_id in H as [-> _]. f_equal. exact IH.
Qed.

Lemma metrics_rack_ok (recs : list full_asset) (d : Dict.dict rack_metrics)
    (cm : list capacity_metric) :
  List.Forall (rack_ok recs) d ->
  List.Forall2 (fun item m => metric_of item = Ok m) d cm ->
  List.Forall2
    (fun m p =>
       cm_units_used m = sumZ (map fa_units (rack_online (cm_rack_id m) recs))
       /\ py_sum (PInt 0) (map fa_watts (rack_online (cm_rack_id m) recs)) = Ok p)
    cm (map (fun item => power_used_watts (snd item)) d).
Proof.
  intros Hok H. induction H as [|item m d cm H _ IH]; simpl; [constructor|].
  apply List.Forall_cons_iff in Hok as [[Hu Hp] Hok].
  apply metric_of_rack_id in H as [Hr Hun].
  constructor; [|apply IH; exact Hok].
  rewrite Hr, Hun. auto.
Qed.

Lemma rack_totals_ints (recs : list full_asset) (ids : list string) (ps : list pynum) :
  (forall a, In a recs -> exists z, fa_watts a = PInt z) ->
  List.Forall2
    (fun r p => py_sum (PInt 0) (map fa_watts (rack_online r recs)) = Ok p) ids ps ->
  ps = map (fun r => PInt (sumZ (map watts_int (rack_online r recs)))) ids.
Proof.
  intros Hint. induction 1 as [|r p ids ps H _ IH]; simpl; [reflexivity|].
  f_equal; [|exact IH].
  rewrite py_sum_ints in H.
  - injection H as <-. rewrite map_map. reflexivity.
  - rewrite Forall_map. apply List.Forall_forall. intros a Ha.
    apply Hint. unfold rack_online in Ha. apply filter_In in Ha. tauto.
Qed.

(** C4: on a well-formed snapshot within range [analyze_capacity] returns
    the number of input records as total asset count, whatever their
    status.  Its rack entries carry, as [units_used], the rack units of the
    online assets naming that rack; the rack groups together hold every
    online asset once and no other asset; and the total power is the sum,
    with Python's [+], of the per-rack sums of the online assets'
    [power_watts].  When every [power_watts] is an int, that total is the
    plain integer sum over the online assets. *)
Theorem capacity_totals (recs : list full_asset) :
  in_range recs = true ->
  exists (cm : list capacity_metric) (total : pynum) (rack_totals : list pynum),
    analyze_capacity (map json_of recs) = Ok (cm, Z.of_nat (length recs), total)
    /\ List.Forall2
         (fun m p =>
            cm_units_used m = sumZ (map fa_units (rack_online (cm_rack_id m) recs))
            /\ py_sum (PInt 0) (map fa_watts (rack_online (cm_rack_id m) recs)) = Ok p)
         cm rack_totals
    /\ py_sum (PInt 0) rack_totals = Ok total
    /\ Permutation (concat (map (fun m => rack_online (cm_rack_id m) recs) cm))
                   (List.filter is_online recs)
    /\ sumZ (map cm_units_used cm) = sumZ (map fa_units (List.filter is_online recs))
    /\ ((forall a, In a recs -> exists z, fa_watts a = PInt z) ->
        total = PInt (sumZ (map watts_int (List.filter is_online recs)))).
Proof.
  intros Hr.
  destruct (analyze_capacity_full recs Hr) as (d & cm & total & Han & Hk & Hok & Hcm & Ht).
  pose proof (metrics_keys _ _ Hcm) as Hids. rewrite Hk in Hids.
  pose proof (metrics_rack_ok _ _ _ Hok Hcm) as Hrack.
  exists cm, total, (map (fun item => power_used_watts (snd item)) d).
  split; [exact Han|]. split; [exact Hrack|]. split; [exact Ht|].
  assert (Hunits : map cm_units_used cm
                   = map (fun r => sumZ (map fa_units (rack_online r recs)))
                       (map cm_rack_id cm)).
  { clear -Hrack. induction Hrack as [|m p cm ps [Hu _] _ IH]; simpl; [reflexivity|].
    rewrite Hu. f_equal. exact IH. }
  split; [|split].
  - rewrite <- (rack_online_partition recs), <- Hids, map_map. reflexivity.
  - rewrite Hunits, Hids. apply rack_sums_partition.
  - intros Hint.
    assert (Hps : List.Forall2
              (fun r p => py_sum (PInt 0) (map fa_watts (rack_online r recs)) = Ok p)
              (map cm_rack_id cm) (map (fun item => power_used_watts (snd item)) d)).
    { clear -Hrack. induction Hrack as [|m p cm ps [_ Hp] _ IH]; simpl; constructor; auto. }
    apply (rack_totals_ints _ _ _ Hint) in Hps. rewrite Hps in Ht.
    rewrite py_sum_ints in Ht.
    + injection Ht as <-. rewrite map_map. cbn [int_part].
      rewrite Hids, rack_sums_partition. reflexivity.
    + rewrite Forall_map. apply List.Forall_forall. intros r _. eauto.
Qed.

Lemma capacity_totals_witness :
  exists (cm : list capacity_metric) (total : pynum) (rack_totals : list pynum),
    analyze_capacity (map json_of scenario) = Ok (cm, 2, total)
    /\ List.Forall2
         (fun m p =>
            cm_units_used m = sumZ (map fa_units (rack_online (cm_rack_id m) scenario))
            /\ py_sum (PInt 0) (map fa_watts (rack_online (cm_rack_id m) scenario)) = Ok p)
         cm rack_totals
    /\ py_sum (PInt 0) rack_totals = Ok total
    /\ Permutation (concat (map (fun m => rack_online (cm_rack_id m) scenario) cm))
                   (List.filter is_online scenario)
    /\ sumZ (map cm_units_used cm) = sumZ (map fa_units (List.filter is_online scenario))
    /\ ((forall a, In a scenario -> exists z, fa_watts a = PInt z) ->
        total = PInt (sumZ (map watts_int (List.filter is_online scenario)))).
Proof. apply (capacity_totals scenario). vm_compute. reflexivity. Defined.

Lemma first_seen_sorted (ids : list string) :
  StronglySorted lt (map (fun r => first_index r ids) (first_seen ids)).
Proof.
  induction ids as [|x ids IH]; simpl; [constructor|].
  rewrite String.eqb_refl.
  assert (Hmap : map (fun r => if String.eqb x r then O else S (first_index r ids))
                   (List.filter (fun y => negb (String.eqb y x)) (first_seen ids))
                 = map S (map (fun r => first_index r ids)
                            (List.filter (fun y => negb (String.eqb y x)) (first_seen ids)))).
  { rewrite map_map. apply map_ext_in. intros r Hr. apply filter_In in Hr as [_ Hr].
    apply negb_true_iff in Hr. rewrite String.eqb_sym in Hr. rewrite Hr. reflexivity. }
  rewrite Hmap. constructor.
  - clear Hmap. induction (first_seen ids) as [|y l IHl]; simpl; [constructor|].
    inversion IH as [|? ? Hs Hf]; subst.
    destruct (negb (String.eqb y x)); simpl; [|auto].
    constructor; [auto|].
    rewrite Forall_map. rewrite List.Forall_forall in Hf |- *.
    intros n Hn. apply in_map_iff in Hn as (r & <- & Hr). apply filter_In in Hr as [Hr _].
    apply -> Nat.succ_lt_mono. apply Hf.
    apply (in_map (fun r => first_index r ids)). exact Hr.
  - rewrite Forall_map. apply List.Forall_forall. intros n _. lia.
Qed.

Lemma metric_of_idle (rid : string) :
  metric_of (rid, mk_rack_metrics 0 (PInt 0)) = Ok (idle_metric rid).
Proof. vm_compute. reflexivity. Qed.

(** C5: on a well-formed snapshot within range the capacity metrics hold
    one entry per distinct [rack_id] of the input, in the order in which
    the rack ids first occur; a rack that no online asset names still has
    its entry, with [units_used] 0, power ["0.00"] and both utilizations
    ["0.0%"]. *)
Theorem rack_entries_first_seen (recs : list full_asset) :
  in_range recs = true ->
  exists (cm : list capacity_metric) (total : pynum),
    analyze_capacity (map json_of recs) = Ok (cm, Z.of_nat (length recs), total)
    /\ map cm_rack_id cm = first_seen (map fa_rack recs)
    /\ List.NoDup (map cm_rack_id cm)
    /\ (forall r, In r (map cm_rack_id cm) <-> In r (map fa_rack recs))
    /\ StronglySorted lt
         (map (fun r => first_index r (map fa_rack recs)) (map cm_rack_id cm))
    /\ (forall m, In m cm -> rack_online (cm_rack_id m) recs = [] ->
          m = idle_metric (cm_rack_id m)).
Proof.
  intros Hr.
  destruct (analyze_capacity_full recs Hr) as (d & cm & total & Han & Hk & Hok & Hcm & Ht).
  pose proof (metrics_keys _ _ Hcm) as Hids. rewrite Hk in Hids.
  exists cm, total. split; [exact Han|]. split; [exact Hids|]. rewrite Hids.
  split; [apply first_seen_NoDup|]. split; [intros r; apply first_seen_In|].
  split; [apply first_seen_sorted|].
  intros m Hm Hnone. clear -Hok Hcm Hm Hnone.
  induction Hcm as [|[r metrics] m' d cm H _ IH]; [destruct Hm|].
  apply List.Forall_cons_iff in Hok as [[Hu Hp] Hok].
  destruct Hm as [->|Hm]; [|apply IH; assumption].
  destruct (metric_of_rack_id _ _ H) as [Hrid _]. cbn [fst snd] in *.
  rewrite Hrid in Hnone. rewrite Hnone in Hu, Hp. simpl in Hu, Hp.
  injection Hp as Hp. destruct metrics as [u p]. cbn [units_used power_used_watts] in *.
  subst u p. rewrite metric_of_idle in H. injection H as <-. reflexivity.
Qed.

Lemma rack_entries_first_seen_witness :
  exists (cm : list capacity_metric) (total : pynum),
    analyze_capacity (map json_of idle_rack_snapshot) = Ok (cm, 3, total)
    /\ map cm_rack_id cm = ["R2"; "R1"]
    /\ List.NoDup (map cm_rack_id cm)
    /\ (forall r, In r (map cm_rack_id cm) <-> In r ["R2"; "R1"; "R2"])
    /\ StronglySorted lt
         (map (fun r => first_index r ["R2"; "R1"; "R2"]) (map cm_rack_id cm))
    /\ (forall m, In m cm -> rack_online (cm_rack_id m) idle_rack_snapshot = [] ->
          m = idle_metric (cm_rack_id m)).
Proof. apply (rack_entries_first_seen idle_rack_snapshot). vm_compute. reflexivity. Defined.

(** ** Utilization strings *)

Lemma metric_of_utilization (item : string * rack_metrics) (m : capacity_metric) :
  metric_of item = Ok m ->
  units_utilization_of (units_used (snd item)) = Ok (cm_units_utilization m)
  /\ power_utilization_of (power_used_watts (snd item)) = Ok (cm_power_utilization m)
  /\ exists kva, py_div_float (power_used_watts (snd item)) watts_per_kva = Ok kva
                 /\ cm_power_used_kva m = format_f 2 kva.
Proof.
  destruct item as [rid metrics]. unfold metric_of, units_utilization_of, power_utilization_of.
  cbn [snd]. intros H.
  apply bind_Ok in H as (kva & Hk & H). apply bind_Ok in H as (q & Hq & [= <-]).
  rewrite Hk, Hq. cbn [bind cm_units_utilization cm_power_utilization cm_power_used_kva].
  eauto.
Qed.

Lemma in_Z_range (n z : Z) :
  0 <= z < n -> In z (map Z.of_nat (seq 0 (Z.to_nat n))).
Proof.
  intros H. apply in_map_iff. exists (Z.to_nat z). split; [lia|].
  apply in_seq. lia.
Qed.

Lemma format_f_tenths (f : float) (n : Z) :
  tenths f = Some n -> format_f 1 f = fixed 1 n.
Proof.
  destruct f as [[|]|[|]| |[|] m e]; simpl; try discriminate; intros [= <-]; reflexivity.
Qed.

Lemma units_agree_range :
  forallb units_agree (map Z.of_nat (seq 0 (Z.to_nat 1001))) = true.
Proof. vm_compute. reflexivity. Qed.

Lemma power_agree_range :
  forallb power_agree (map Z.of_nat (seq 0 (Z.to_nat 6001))) = true.
Proof. vm_compute. reflexivity. Qed.

Lemma units_utilization_exact (u : Z) :
  0 <= u <= 1000 ->
  units_utilization_of u = Ok (percent_of_tenths (exact_units_tenths u)).
Proof.
  intros H. pose proof units_agree_range as Hall.
  rewrite forallb_forall in Hall. specialize (Hall u (in_Z_range 1001 u ltac:(lia))).
  unfold units_agree in Hall. unfold units_utilization_of, percent_of_tenths.
  destruct (int_truediv u MAX_RACK_UNITS) as [q|e]; [|discriminate]. cbn [bind].
  destruct (tenths (fmul q hundred)) as [n|] eqn:E; [|discriminate].
  apply Z.eqb_eq in Hall. rewrite (format_f_tenths _ _ E), Hall. reflexivity.
Qed.

Lemma power_utilization_exact (w : Z) :
  0 <= w <= 6000 ->
  power_utilization_of (PInt w) = Ok (percent_of_tenths (exact_power_tenths w)).
Proof.
  intros H. pose proof power_agree_range as Hall.
  rewrite forallb_forall in Hall. specialize (Hall w (in_Z_range 6001 w ltac:(lia))).
  unfold power_agree in Hall. unfold power_utilization_of, percent_of_tenths.
  destruct (py_div_float (PInt w) watts_per_kva) as [kva|e]; [|discriminate]. cbn [bind].
  destruct (tenths (fmul (fdiv kva MAX_RACK_POWER_KVA) hundred)) as [n|] eqn:E;
    [|discriminate].
  apply Z.eqb_eq in Hall. rewrite (format_f_tenths _ _ E), Hall. reflexivity.
Qed.

(** C1, as amended: the utilization fields of a rack entry are strings.
    [units_utilization] is [(units_used / MAX_RACK_UNITS) * 100] and
    [power_utilization] is
    [((power_used_watts / 1000.0) / MAX_RACK_POWER_KVA) * 100], computed in
    floating point on the rack's sums over its online assets, then printed
    with one fractional digit and a [%] sign.  Nothing clamps them: up to
    1000 U and, for whole watts, up to 6000 W, the printed number is the
    exact percentage rounded to one fractional digit, whether it is below
    or above 100. *)
Theorem utilization_formula (recs : list full_asset) :
  in_range recs = true ->
  exists (cm : list capacity_metric) (total : pynum),
    analyze_capacity (map json_of recs) = Ok (cm, Z.of_nat (length recs), total)
    /\ List.Forall
         (fun m =>
            exists p : pynum,
              cm_units_used m = sumZ (map fa_units (rack_online (cm_rack_id m) recs))
              /\ py_sum (PInt 0) (map fa_watts (rack_online (cm_rack_id m) recs)) = Ok p
              /\ units_utilization_of (cm_units_used m) = Ok (cm_units_utilization m)
              /\ power_utilization_of p = Ok (cm_power_utilization m)
              /\ (cm_units_used m <= 1000 ->
                  cm_units_utilization m
                  = percent_of_tenths (exact_units_tenths (cm_units_used m)))
              /\ (forall w, p = PInt w -> w <= 6000 ->
                  cm_power_utilization m = percent_of_tenths (exact_power_tenths w)))
         cm.
Proof.
  intros Hr.
  destruct (analyze_capacity_full recs Hr) as (d & cm & total & Han & Hk & Hok & Hcm & Ht).
  exists cm, total. split; [exact Han|].
  clear -Hr Hok Hcm. induction Hcm as [|item m d cm H _ IH]; [constructor|].
  apply List.Forall_cons_iff in Hok as [Hitem Hok].
  constructor; [|apply IH; exact Hok].
  destruct (rack_ok_bounds recs item Hr Hitem) as (Hub & Hpb & _).
  destruct Hitem as [Hu Hp].
  destruct (metric_of_rack_id _ _ H) as [Hrid Hunits].
  destruct (metric_of_utilization _ _ H) as (Huu & Hpu & _).
  exists (power_used_watts (snd item)).
  rewrite Hrid, Hunits. repeat split; auto.
  - intros Hle. rewrite units_utilization_exact in Huu by lia. congruence.
  - intros w Hw Hle. rewrite Hw in Hpu, Hpb. cbn [int_part] in Hpb.
    rewrite power_utilization_exact in Hpu by lia. congruence.
Qed.

Lemma utilization_formula_witness :
  exists (cm : list capacity_metric) (total : pynum),
    analyze_capacity (map json_of over_limit_snapshot) = Ok (cm, 1, total)
    /\ List.Forall
         (fun m =>
            exists p : pynum,
              cm_units_used m
              = sumZ (map fa_units (rack_online (cm_rack_id m) over_limit_snapshot))
              /\ py_sum (PInt 0)
                   (map fa_watts (rack_online (cm_rack_id m) over_limit_snapshot)) = Ok p
              /\ units_utilization_of (cm_units_used m) = Ok (cm_units_utilization m)
              /\ power_utilization_of p = Ok (cm_power_utilization m)
              /\ (cm_units_used m <= 1000 ->
                  cm_units_utilization m
                  = percent_of_tenths (exact_units_tenths (cm_units_used m)))
              /\ (forall w, p = PInt w -> w <= 6000 ->
                  cm_power_utilization m = percent_of_tenths (exact_power_tenths w)))
         cm.
Proof. apply (utilization_formula over_limit_snapshot). vm_compute. reflexivity. Defined.

(** C1 as stated fails on a rack drawing 5001 W on 3 U.  The rack is over
    its 5 kVA limit, yet the reported power utilization is ["100.0%"],
    which does not exceed 100; the reported unit utilization is ["7.1%"],
    not the value of [100 * 3 / 42]; and already before printing, the float
    [(3 / 42) * 100] that the code computes differs from the float
    [100 * 3 / 42]. *)
Lemma utilization_counterexample :
  analyze_capacity (map json_of over_limit_snapshot)
  = Ok ([ {| cm_rack_id := "R1";
             cm_units_used := 3;
             cm_power_used_kva := "5.00";
             cm_power_utilization := "100.0%";
             cm_units_utilization := "7.1%" |} ], 1, PInt 5001)
  /\ 5 * 1000 < 5001
  /\ exists q r, int_truediv 3 MAX_RACK_UNITS = Ok q
                 /\ int_truediv (100 * 3) MAX_RACK_UNITS = Ok r
                 /\ SFeqb (fmul q hundred) r = false.
Proof.
  split; [vm_compute; reflexivity|]. split; [lia|].
  eexists. eexists. split; [vm_compute; reflexivity|].
  split; [vm_compute; reflexivity|]. vm_compute. reflexivity.
Qed.

Example over_limit_units_unclamped :
  units_utilization_of 43 = Ok "102.4%" /\ power_utilization_of (PInt 6000) = Ok "120.0%".
Proof. split; vm_compute; reflexivity. Qed.

(** ** The report formatter *)

Lemma py_format_f_ok (d : nat) (x : pynum) :
  float_ok x = true -> exists s, py_format_f d x = Ok s.
Proof.
  destruct x as [z|f]; simpl; [|eauto].
  unfold float_of_int. intros ->. simpl. eauto.
Qed.

Lemma py_div_float_ok (x : pynum) (d : float) :
  float_ok x = true -> exists q, py_div_float x d = Ok q.
Proof.
  destruct x as [z|f]; simpl; [|eauto].
  unfold float_of_int. intros ->. simpl. eauto.
Qed.

Lemma eol_rows_ok (eol : list eol_entry) :
  forallb (fun e => float_ok (eol_age e)) eol = true ->
  exists rows, map_result eol_row eol = Ok rows.
Proof.
  intros H. apply map_result_total. apply List.Forall_forall. intros e He.
  rewrite forallb_forall in H. specialize (H e He).
  destruct (py_format_f_ok 1 _ H) as (s & Hs).
  unfold eol_row. rewrite Hs. cbn [bind]. eauto.
Qed.

Lemma vendor_rows_ok (vr : list vendor_entry) :
  forallb (fun e => float_ok (vr_age e)) vr = true ->
  exists rows, map_result vendor_row vr = Ok rows.
Proof.
  intros H. apply map_result_total. apply List.Forall_forall. intros e He.
  rewrite forallb_forall in H. specialize (H e He).
  destruct (py_format_f_ok 1 _ H) as (s & Hs).
  unfold vendor_row. rewrite Hs. cbn [bind]. eauto.
Qed.

Lemma eol_row_Ok_text (e : eol_entry) (row : string) :
  eol_row e = Ok row ->
  exists age, py_format_f 1 (eol_age e) = Ok age
    /\ row = ljust 15 (eol_id e) +:+ ljust 10 (eol_rack e) +:+ ljust 10 age
             +:+ ljust 15 (eol_status e).
Proof.
  unfold eol_row. intros H. apply bind_Ok in H as (age & Hage & H).
  exists age. split; [exact Hage|]. congruence.
Qed.

Lemma vendor_row_Ok_text (e : vendor_entry) (row : string) :
  vendor_row e = Ok row ->
  exists age, py_format_f 1 (vr_age e) = Ok age
    /\ row = ljust 15 (vr_id e) +:+ ljust 10 (vr_rack e) +:+ ljust 10 (vr_vendor e)
             +:+ ljust 10 age.
Proof.
  unfold vendor_row. intros H. apply bind_Ok in H as (age & Hage & H).
  exists age. split; [exact Hage|]. congruence.
Qed.

(** C7: [generate_report] branches on the emptiness of each risk list.
    For an asset count and unit counts that [str()] accepts and a total
    power and ages that convert to floats, the report is the head, the EOL
    part, a blank entry, the vendor part and the end.  The EOL part is the
    single line ["### EOL Assets: 0 devices identified. Compliance
    maintained."] when [eol_assets] is empty; otherwise it is the title
    ["### EOL Assets (Age >= 5.0 Years): <n> Devices Identified"] with the
    threshold and the number [n] of candidates, the column header, a rule
    of 50 dashes and one row per candidate, in order, made of its id, rack,
    age with one fractional digit and status.  The vendor part is the
    single line ["### High-Risk Vendors: No active assets from critical
    vendors identified."] when [vendor_risk_assets] is empty; otherwise the
    title ["### High-Risk Vendor Assets (HP, EMC): <n> Devices Identified"]
    naming the critical vendors and the number of candidates, the column
    header, a rule of 45 dashes and one row per candidate. *)
Theorem report_branches (cm : list capacity_metric) (total_assets : Z)
    (total_power_watts : pynum) (eol : list eol_entry) (vr : list vendor_entry) :
  str_ok total_assets = true ->
  forallb (fun m => str_ok (cm_units_used m)) cm = true ->
  float_ok total_power_watts = true ->
  forallb (fun e => float_ok (eol_age e)) eol = true ->
  forallb (fun e => float_ok (vr_age e)) vr = true ->
  exists (kva : float) (eol_part vendor_part : list string),
    py_div_float total_power_watts watts_per_kva = Ok kva
    /\ report_lines cm total_assets total_power_watts eol vr
       = Ok (report_head cm total_assets kva ++ eol_part ++ [newline]
             ++ vendor_part ++ report_end)
    /\ generate_report cm total_assets total_power_watts eol vr
       = Ok (join_lines (report_head cm total_assets kva ++ eol_part ++ [newline]
                         ++ vendor_part ++ report_end))
    /\ (eol = [] ->
        eol_part = ["### EOL Assets: 0 devices identified. Compliance maintained."])
    /\ (eol <> [] ->
        exists rows,
          List.Forall2
            (fun e row =>
               exists age, py_format_f 1 (eol_age e) = Ok age
                 /\ row = ljust 15 (eol_id e) +:+ ljust 10 (eol_rack e)
                          +:+ ljust 10 age +:+ ljust 15 (eol_status e))
            eol rows
          /\ eol_part
             = ("### EOL Assets (Age >= 5.0 Years): "
                +:+ str_int (Z.of_nat (length eol)) +:+ " Devices Identified")
               :: "Asset ID       Rack ID   Age (Yrs) Status         "
               :: "--------------------------------------------------"
               :: rows)
    /\ (vr = [] ->
        vendor_part
        = ["### High-Risk Vendors: No active assets from critical vendors identified."])
    /\ (vr <> [] ->
        exists rows,
          List.Forall2
            (fun e row =>
               exists age, py_format_f 1 (vr_age e) = Ok age
                 /\ row = ljust 15 (vr_id e) +:+ ljust 10 (vr_rack e)
                          +:+ ljust 10 (vr_vendor e) +:+ ljust 10 age)
            vr rows
          /\ vendor_part
             = ("### High-Risk Vendor Assets (HP, EMC): "
                +:+ str_int (Z.of_nat (length vr)) +:+ " Devices Identified")
               :: "Asset ID       Rack ID   Vendor    Age (Yrs) "
               :: "---------------------------------------------"
               :: rows).
Proof.
  (* The first two hypotheses keep the ints within what [str_int] models. *)
  intros _ _ Hp He Hv.
  destruct (py_div_float_ok _ watts_per_kva Hp) as (kva & Hkva).
  destruct (eol_rows_ok eol He) as (erows & Herows).
  destruct (vendor_rows_ok vr Hv) as (vrows & Hvrows).
  assert (Hes : exists eol_part, eol_section eol = Ok eol_part
            /\ (eol = [] -> eol_part = [eol_none])
            /\ (eol <> [] ->
                eol_part = [eol_title (length eol); eol_header; rule "-" 50] ++ erows)).
  { unfold eol_section. destruct eol as [|e eol'].
    - exists [eol_none]. split; [reflexivity|]. split; [reflexivity|]. intros H. congruence.
    - rewrite Herows. cbn [bind]. eexists. split; [reflexivity|].
      split; [discriminate|]. reflexivity. }
  assert (Hvs : exists vendor_part, vendor_section vr = Ok vendor_part
            /\ (vr = [] -> vendor_part = [vendor_none])
            /\ (vr <> [] ->
                vendor_part
                = [vendor_title (length vr); vendor_header; rule "-" 45] ++ vrows)).
  { unfold vendor_section. destruct vr as [|e vr'].
    - exists [vendor_none]. split; [reflexivity|]. split; [reflexivity|]. intros H. congruence.
    - rewrite Hvrows. cbn [bind]. eexists. split; [reflexivity|].
      split; [discriminate|]. reflexivity. }
  destruct Hes as (eol_part & Hes & He1 & He2).
  destruct Hvs as (vendor_part & Hvs & Hv1 & Hv2).
  exists kva, eol_part, vendor_part.
  assert (Hlines : report_lines cm total_assets total_power_watts eol vr
            = Ok (report_head cm total_assets kva ++ eol_part ++ [newline]
                  ++ vendor_part ++ report_end)).
  { unfold report_lines. rewrite Hkva. cbn [bind]. rewrite Hes. cbn [bind].
    rewrite Hvs. cbn [bind]. unfold report_head, report_end. f_equal.
    repeat rewrite <- app_assoc. reflexivity. }
  split; [exact Hkva|]. split; [exact Hlines|]. split.
  { unfold generate_report. rewrite Hlines. reflexivity. }
  split; [exact He1|]. split.
  { intros Hne. exists erows. split.
    - eapply List.Forall2_impl; [|apply map_result_Forall2; exact Herows].
      intros e row. apply eol_row_Ok_text.
    - rewrite (He2 Hne). reflexivity. }
  split; [exact Hv1|].
  intros Hne. exists vrows. split.
  - eapply List.Forall2_impl; [|apply map_result_Forall2; exact Hvrows].
    intros e row. apply vendor_row_Ok_text.
  - rewrite (Hv2 Hne). reflexivity.
Qed.

Lemma report_branches_witness :
  exists (kva : float) (eol_part vendor_part : list string),
    py_div_float (PInt 500) watts_per_kva = Ok kva
    /\ report_lines [idle_metric "R1"] 2 (PInt 500) [eol_of scenario_head] []
       = Ok (report_head [idle_metric "R1"] 2 kva ++ eol_part ++ [newline]
             ++ vendor_part ++ report_end)
    /\ generate_report [idle_metric "R1"] 2 (PInt 500) [eol_of scenario_head] []
       = Ok (join_lines (report_head [idle_metric "R1"] 2 kva ++ eol_part ++ [newline]
                         ++ vendor_part ++ report_end))
    /\ ([eol_of scenario_head] = [] ->
        eol_part = ["### EOL Assets: 0 devices identified. Compliance maintained."])
    /\ ([eol_of scenario_head] <> [] ->
        exists rows,
          List.Forall2
            (fun e row =>
               exists age, py_format_f 1 (eol_age e) = Ok age
                 /\ row = ljust 15 (eol_id e) +:+ ljust 10 (eol_rack e)
                          +:+ ljust 10 age +:+ ljust 15 (eol_status e))
            [eol_of scenario_head] rows
          /\ eol_part
             = ("### EOL Assets (Age >= 5.0 Years): "
                +:+ str_int (Z.of_nat (length [eol_of scenario_head]))
                +:+ " Devices Identified")
               :: "Asset ID       Rack ID   Age (Yrs) Status         "
               :: "--------------------------------------------------"
               :: rows)
    /\ (@nil vendor_entry = [] ->
        vendor_part
        = ["### High-Risk Vendors: No active assets from critical vendors identified."])
    /\ (@nil vendor_entry <> [] ->
        exists rows,
          List.Forall2
            (fun e row =>
               exists age, py_format_f 1 (vr_age e) = Ok age
                 /\ row = ljust 15 (vr_id e) +:+ ljust 10 (vr_rack e)
                          +:+ ljust 10 (vr_vendor e) +:+ ljust 10 age)
            (@nil vendor_entry) rows
          /\ vendor_part
             = ("### High-Risk Vendor Assets (HP, EMC): "
                +:+ str_int (Z.of_nat (length (@nil vendor_entry)))
                +:+ " Devices Identified")
               :: "Asset ID       Rack ID   Vendor    Age (Yrs) "
               :: "---------------------------------------------"
               :: rows).
Proof.
  apply (report_branches [idle_metric "R1"] 2 (PInt 500) [eol_of scenario_head] []);
    vm_compute; reflexivity.
Defined.

(** ** Empty input *)

(** C6, as amended: on the empty asset sequence the three functions still
    return: the aggregator gives no metrics, 0 assets and 0 W, the
    classifier gives two empty lists, and the report rendered from these
    holds both empty-case lines.  The program itself does not crash either,
    but its [if assets:] guard skips the report: with the data file missing
    it prints only the not-found message, and with an empty list in the
    file it prints nothing. *)
Theorem empty_input_report :
  analyze_capacity [] = Ok ([], 0, PInt 0)
  /\ check_compliance_and_eol [] = Ok ([], [])
  /\ (exists lines,
        report_lines [] 0 (PInt 0) [] [] = Ok lines
        /\ generate_report [] 0 (PInt 0) [] [] = Ok (join_lines lines)
        /\ In eol_none lines /\ In vendor_none lines)
  /\ main None = mk_outcome ["Error: Data file dcim_data.json not found."] None
  /\ main (Some []) = mk_outcome [] None.
Proof.
  split; [reflexivity|]. split; [reflexivity|]. split.
  - eexists. split; [vm_compute; reflexivity|]. split; [vm_compute; reflexivity|].
    split; vm_compute; tauto.
  - split; reflexivity.
Qed.

(** C6 as stated fails: with the data source unavailable, and likewise with
    an empty list in the file, no report is among the printed texts and the
    run ends normally. *)
Lemma empty_input_counterexample :
  exists report,
    generate_report [] 0 (PInt 0) [] [] = Ok report
    /\ ~ In report (stdout (main None))
    /\ stdout (main (Some [])) = []
    /\ uncaught (main None) = None.
Proof.
  eexists. split; [vm_compute; reflexivity|]. split.
  - vm_compute. intros [H|[]]. discriminate.
  - split; reflexivity.
Qed.

(** ** Missing fields *)

Lemma getitem_Raise {A : Type} (key : string) (field : option A) (e : exn) :
  getitem key field = Raise e -> e = KeyError key /\ field = None.
Proof. destruct field; simpl; [discriminate|]. intros [= <-]. auto. Qed.

Lemma float_of_int_Raise (z : Z) (e : exn) :
  float_of_int z = Raise e -> e = OverflowError.
Proof. unfold float_of_int. destruct (_ <? _); [discriminate|]. intros [= <-]. reflexivity. Qed.

Lemma py_add_Raise (x y : pynum) (e : exn) : py_add x y = Raise e -> e = OverflowError.
Proof.
  destruct x as [a|f], y as [b|g]; simpl; try discriminate.
  - destruct (float_of_int a) eqn:E; simpl; [discriminate|].
    intros [= <-]. eapply float_of_int_Raise; eauto.
  - destruct (float_of_int b) eqn:E; simpl; [discriminate|].
    intros [= <-]. eapply float_of_int_Raise; eauto.
Qed.

Lemma py_div_float_Raise (x : pynum) (d : float) (e : exn) :
  py_div_float x d = Raise e -> e = OverflowError.
Proof.
  destruct x as [a|f]; simpl; [|discriminate].
  destruct (float_of_int a) eqn:E; simpl; [discriminate|].
  intros [= <-]. eapply float_of_int_Raise; eauto.
Qed.

Lemma int_truediv_Raise (a b : Z) (e : exn) : int_truediv a b = Raise e -> e = OverflowError.
Proof. unfold int_truediv. destruct (_ <? _); [discriminate|]. intros [= <-]. reflexivity. Qed.

Lemma py_format_f_Raise (d : nat) (x : pynum) (e : exn) :
  py_format_f d x = Raise e -> e = OverflowError.
Proof.
  destruct x as [a|f]; simpl; [|discriminate].
  destruct (float_of_int a) eqn:E; simpl; [discriminate|].
  intros [= <-]. eapply float_of_int_Raise; eauto.
Qed.

Lemma map_result_Raise {A B : Type} (f : A -> result B) (l : list A) (e : exn) :
  map_result f l = Raise e -> exists x, In x l /\ f x = Raise e.
Proof.
  induction l as [|x l IH]; cbn [map_result]; [discriminate|].
  intros H. apply bind_Raise in H as [H|(y & Hy & H)].
  - exists x. split; [left; reflexivity|exact H].
  - apply bind_Raise in H as [H|(ys & Hys & H)]; [|discriminate].
    destruct (IH H) as (x' & Hin & Hx'). exists x'. split; [right; exact Hin|exact Hx'].
Qed.

(** *** The aggregator *)

Lemma ensure_rack_get (rid : string) (d : Dict.dict rack_metrics) :
  exists m, Dict.get rid (ensure_rack rid d) = Ok m.
Proof.
  rewrite ensure_rack_get_eq. destruct (Dict.mem rid d) eqn:E; [|eauto].
  apply mem_get. exact E.
Qed.

Lemma aggregate_step_Ok_readable (d d' : Dict.dict rack_metrics) (a : asset) :
  aggregate_step d a = Ok d' -> capacity_readable a = true.
Proof.
  unfold aggregate_step, capacity_readable.
  destruct (rack_id a) as [rid|]; cbn [getitem bind]; [|discriminate].
  destruct (status a) as [st|]; cbn [getitem bind]; [|discriminate].
  destruct (String.eqb st "Online"); [|reflexivity].
  fold (ensure_rack rid d).
  destruct (Dict.get rid (ensure_rack rid d)) as [m|e]; cbn [bind]; [|discriminate].
  destruct (rack_units a) as [u|]; cbn [getitem bind]; [|discriminate].
  rewrite get_set_eq. cbn [bind].
  destruct (power_watts a) as [w|]; cbn [getitem bind]; [|discriminate].
  reflexivity.
Qed.

Lemma aggregate_step_Raise (d : Dict.dict rack_metrics) (a : asset) (e : exn) :
  aggregate_step d a = Raise e ->
  e = OverflowError \/ exists key, e = KeyError key /\ absent key a = true.
Proof.
  unfold aggregate_step.
  destruct (rack_id a) as [rid|] eqn:Hrid; cbn [getitem bind].
  2:{ intros [= <-]. right. exists "rack_id". unfold absent. rewrite Hrid. auto. }
  destruct (status a) as [st|] eqn:Hst; cbn [getitem bind].
  2:{ intros [= <-]. right. exists "status". unfold absent. rewrite Hst. auto. }
  destruct (String.eqb st "Online"); [|discriminate].
  fold (ensure_rack rid d).
  destruct (ensure_rack_get rid d) as (m & ->). cbn [bind].
  destruct (rack_units a) as [u|] eqn:Hu; cbn [getitem bind].
  2:{ intros [= <-]. right. exists "rack_units". unfold absent. rewrite Hu. auto. }
  rewrite get_set_eq. cbn [bind].
  destruct (power_watts a) as [w|] eqn:Hw; cbn [getitem bind].
  2:{ intros [= <-]. right. exists "power_watts". unfold absent. rewrite Hw. auto. }
  intros H. apply bind_Raise in H as [H|(p & _ & H)]; [|discriminate].
  left. eapply py_add_Raise; eauto.
Qed.

Lemma aggregate_Ok_readable (assets : list asset) :
  forall d d', aggregate d assets = Ok d' ->
    List.Forall (fun a => capacity_readable a = true) assets.
Proof.
  induction assets as [|a assets IH]; intros d d'; cbn [aggregate]; [constructor|].
  intros H. apply bind_Ok in H as (d1 & H1 & H).
  constructor; [eapply aggregate_step_Ok_readable; eauto|eapply IH; eauto].
Qed.

Lemma aggregate_Raise (assets : list asset) :
  forall d e, aggregate d assets = Raise e ->
    e = OverflowError \/ exists key a, e = KeyError key /\ In a assets /\ absent key a = true.
Proof.
  induction assets as [|a assets IH]; intros d e; cbn [aggregate]; [discriminate|].
  intros H. apply bind_Raise in H as [H|(d1 & _ & H)].
  - apply aggregate_step_Raise in H as [H|(key & H & Ha)]; [auto|].
    right. exists key, a. simpl. auto.
  - apply IH in H as [H|(key & a' & H & Hin & Ha)]; [auto|].
    right. exists key, a'. simpl. auto.
Qed.

Lemma finalize_Raise (items : Dict.dict rack_metrics) :
  forall acc e, finalize acc items = Raise e -> e = OverflowError.
Proof.
  induction items as [|[rid metrics] items IH]; intros [cm tot] e; cbn [finalize];
    [discriminate|].
  intros H. apply bind_Raise in H as [H|(acc' & _ & H)]; [|eapply IH; eauto].
  unfold finalize_step in H.
  apply bind_Raise in H as [H|(kva & _ & H)]; [eapply py_div_float_Raise; eauto|].
  apply bind_Raise in H as [H|(q & _ & H)]; [eapply int_truediv_Raise; eauto|].
  apply bind_Raise in H as [H|(t & _ & H)]; [eapply py_add_Raise; eauto|discriminate].
Qed.

Lemma analyze_capacity_Raise (assets : list asset) (e : exn) :
  analyze_capacity assets = Raise e ->
  e = OverflowError \/ exists key a, e = KeyError key /\ In a assets /\ absent key a = true.
Proof.
  unfold analyze_capacity. intros H.
  apply bind_Raise in H as [H|(d & _ & H)]; [eapply aggregate_Raise; eauto|].
  apply bind_Raise in H as [H|(r & _ & H)]; [|discriminate].
  left. eapply finalize_Raise; eauto.
Qed.

(** *** The classifier *)

Ltac split_fields a :=
  destruct (asset_age_years a) as [?age|] eqn:?Hage;
  destruct (vendor a) as [?v|] eqn:?Hvendor;
  destruct (status a) as [?st|] eqn:?Hstatus;
  destruct (asset_id a) as [?id|] eqn:?Hid;
  destruct (rack_id a) as [?rid|] eqn:?Hrid.

Lemma compliance_step_Ok_readable (acc acc' : list eol_entry * list vendor_entry)
    (a : asset) :
  compliance_step acc a = Ok acc' -> compliance_readable a = true.
Proof.
  destruct acc as [eol vr]. unfold compliance_step, compliance_readable.
  split_fields a; cbn [getitem bind present]; try discriminate;
    try destruct (py_ge age EOL_AGE_YEARS);
    try destruct (in_list v CRITICAL_VENDORS);
    try destruct (String.eqb st "Decom Pending");
    try destruct (String.eqb st "Online");
    cbn [getitem bind negb andb orb]; try discriminate; reflexivity.
Qed.

Lemma absent_intro (key : string) (a : asset) :
  (key = "asset_id" /\ asset_id a = None)
  \/ (key = "rack_id" /\ rack_id a = None)
  \/ (key = "status" /\ status a = None)
  \/ (key = "asset_age_years" /\ asset_age_years a = None)
  \/ (key = "vendor" /\ vendor a = None) ->
  absent key a = true.
Proof.
  intros [[-> H]|[[-> H]|[[-> H]|[[-> H]|[-> H]]]]]; unfold absent; rewrite H; reflexivity.
Qed.

Lemma compliance_step_Raise (acc : list eol_entry * list vendor_entry)
    (a : asset) (e : exn) :
  compliance_step acc a = Raise e ->
  exists key, e = KeyError key /\ absent key a = true.
Proof.
  destruct acc as [eol vr]. unfold compliance_step.
  split_fields a; cbn [getitem bind];
    try destruct (py_ge age EOL_AGE_YEARS);
    try destruct (in_list v CRITICAL_VENDORS);
    try destruct (String.eqb st "Decom Pending");
    try destruct (String.eqb st "Online");
    cbn [getitem bind negb andb orb]; try discriminate;
    intros [= <-]; eexists; (split; [reflexivity|]); apply absent_intro; tauto.
Qed.

Lemma compliance_loop_Ok_readable (assets : list asset) :
  forall acc acc', compliance_loop acc assets = Ok acc' ->
    List.Forall (fun a => compliance_readable a = true) assets.
Proof.
  induction assets as [|a assets IH]; intros acc acc'; cbn [compliance_loop]; [constructor|].
  intros H. apply bind_Ok in H as (acc1 & H1 & H).
  constructor; [eapply compliance_step_Ok_readable; eauto|eapply IH; eauto].
Qed.

Lemma compliance_loop_Raise (assets : list asset) :
  forall acc e, compliance_loop acc assets = Raise e ->
    exists key a, e = KeyError key /\ In a assets /\ absent key a = true.
Proof.
  induction assets as [|a assets IH]; intros acc e; cbn [compliance_loop]; [discriminate|].
  intros H. apply bind_Raise in H as [H|(acc1 & _ & H)].
  - apply compliance_step_Raise in H as (key & H & Ha).
    exists key, a. simpl. auto.
  - apply IH in H as (key & a' & H & Hin & Ha).
    exists key, a'. simpl. auto.
Qed.

(** *** The formatter *)

Lemma eol_section_Raise (eol : list eol_entry) (e : exn) :
  eol_section eol = Raise e -> e = OverflowError.
Proof.
  unfold eol_section. destruct eol as [|x eol]; [discriminate|].
  intros H. apply bind_Raise in H as [H|(rows & _ & H)]; [|discriminate].
  apply map_result_Raise in H as (y & _ & H). unfold eol_row in H.
  apply bind_Raise in H as [H|(s & _ & H)]; [|discriminate].
  eapply py_format_f_Raise; eauto.
Qed.

Lemma vendor_section_Raise (vr : list vendor_entry) (e : exn) :
  vendor_section vr = Raise e -> e = OverflowError.
Proof.
  unfold vendor_section. destruct vr as [|x vr]; [discriminate|].
  intros H. apply bind_Raise in H as [H|(rows & _ & H)]; [|discriminate].
  apply map_result_Raise in H as (y & _ & H). unfold vendor_row in H.
  apply bind_Raise in H as [H|(s & _ & H)]; [|discriminate].
  eapply py_format_f_Raise; eauto.
Qed.

Lemma generate_report_Raise (cm : list capacity_metric) (n : Z) (tp : pynum)
    (eol : list eol_entry) (vr : list vendor_entry) (e : exn) :
  generate_report cm n tp eol vr = Raise e -> e = OverflowError.
Proof.
  unfold generate_report. intros H.
  apply bind_Raise in H as [H|(lines & _ & H)]; [|discriminate].
  unfold report_lines in H.
  apply bind_Raise in H as [H|(kva & _ & H)]; [eapply py_div_float_Raise; eauto|].
  apply bind_Raise in H as [H|(ep & _ & H)]; [eapply eol_section_Raise; eauto|].
  apply bind_Raise in H as [H|(vp & _ & H)]; [eapply vendor_section_Raise; eauto|].
  discriminate.
Qed.

(** *** The whole run *)

Lemma build_report_Ok_readable (assets : list asset) (text : string) :
  build_report assets = Ok text -> List.Forall (fun a => readable a = true) assets.
Proof.
  unfold build_report. intros H.
  apply bind_Ok in H as ([[cm n] tp] & Han & H).
  apply bind_Ok in H as ([eol vr] & Hcl & _).
  unfold analyze_capacity in Han. apply bind_Ok in Han as (d & Hd & _).
  apply aggregate_Ok_readable in Hd. apply compliance_loop_Ok_readable in Hcl.
  rewrite List.Forall_forall in *. intros a Ha. unfold readable.
  rewrite (Hd a Ha), (Hcl a Ha). reflexivity.
Qed.

Lemma build_report_Raise (assets : list asset) (e : exn) :
  build_report assets = Raise e ->
  e = OverflowError \/ exists key a, e = KeyError key /\ In a assets /\ absent key a = true.
Proof.
  unfold build_report. intros H.
  apply bind_Raise in H as [H|([[cm n] tp] & _ & H)]; [eapply analyze_capacity_Raise; eauto|].
  apply bind_Raise in H as [H|([eol vr] & _ & H)].
  - right. eapply compliance_loop_Raise; eauto.
  - left. eapply generate_report_Raise; eauto.
Qed.

(** C8, as amended: a record that lacks a field the program subscripts on
    it makes the whole run fail with an uncaught exception and nothing
    printed; the fields read are [rack_id], [status], [asset_age_years] and
    [vendor] on every record, [rack_units] and [power_watts] on an online
    one, [asset_id] on a record selected as EOL or vendor risk.  When the
    exception is a [KeyError] it carries the name of a key that some record
    lacks, not an asset identifier; there is no [MalformedRecordError], and
    no default value is substituted. *)
Theorem missing_field_aborts (assets : list asset) :
  List.Exists (fun a => readable a = false) assets ->
  exists e,
    build_report assets = Raise e
    /\ main (Some assets) = mk_outcome [] (Some e)
    /\ (forall key, e = KeyError key ->
          exists a, In a assets /\ absent key a = true).
Proof.
  intros Hex.
  destruct (build_report assets) as [text|e] eqn:Hb.
  - exfalso. apply build_report_Ok_readable in Hb.
    apply List.Exists_exists in Hex as (a & Ha & Hr).
    rewrite List.Forall_forall in Hb. rewrite (Hb a Ha) in Hr. discriminate.
  - exists e. split; [reflexivity|]. split.
    + unfold main, load_data. destruct assets as [|a assets].
      * apply List.Exists_nil in Hex. destruct Hex.
      * rewrite Hb. reflexivity.
    + intros key ->. apply build_report_Raise in Hb as [Hb|(k & a & [= <-] & Ha)];
        [discriminate|]. exists a. exact Ha.
Qed.

Lemma missing_field_aborts_witness :
  exists e,
    build_report [json_of scenario_head; rackless_asset] = Raise e
    /\ main (Some [json_of scenario_head; rackless_asset]) = mk_outcome [] (Some e)
    /\ (forall key, e = KeyError key ->
          exists a, In a [json_of scenario_head; rackless_asset] /\ absent key a = true).
Proof.
  apply (missing_field_aborts [json_of scenario_head; rackless_asset]).
  apply List.Exists_cons_tl. apply List.Exists_cons_hd. vm_compute. reflexivity.
Defined.

(** C8 as stated fails twice.  A record without [asset_id], [rack_units]
    and [power_watts] goes through when it is offline, young and from no
    critical vendor: the run ends normally and prints a report that counts
    it.  And when asset A9 lacks its [rack_id], the exception raised is
    [KeyError] with the key's name; the asset identifier is nowhere in
    it. *)
Lemma missing_field_counterexample :
  readable sparse_asset = true
  /\ absent "rack_units" sparse_asset = true
  /\ (exists report,
        build_report [sparse_asset] = Ok report
        /\ main (Some [sparse_asset]) = mk_outcome [report] None)
  /\ asset_id rackless_asset = Some "A9"
  /\ main (Some [rackless_asset]) = mk_outcome [] (Some (KeyError "rack_id")).
Proof.
  split; [reflexivity|]. split; [reflexivity|]. split.
  - eexists. split; vm_compute; reflexivity.
  - split; reflexivity.
Qed.

(** * The store model *)

(** ** The store *)

Section HeapFacts.
Import Heap HeapOps HeapRel.
Local Open Scope nat_scope.

Lemma hbind_inl {A B : Type} (m : M A) (k : A -> M B) (h h' : heap) (a : A) :
  m h = (inl a, h') -> hbind m k h = k a h'.
Proof. unfold hbind. intros ->. reflexivity. Qed.

Lemma hbind_inr {A B : Type} (m : M A) (k : A -> M B) (h h' : heap) (f : fault) :
  m h = (inr f, h') -> hbind m k h = (inr f, h').
Proof. unfold hbind. intros ->. reflexivity. Qed.

Lemma run_read (l : loc) (o : obj) (h : heap) :
  h !! l = Some o -> read l h = (inl o, h).
Proof. unfold read. intros ->. reflexivity. Qed.

Lemma run_read_asset (l : loc) (a : asset) (h : heap) :
  h !! l = Some (OAsset a) -> read_asset l h = (inl a, h).
Proof. intros H. unfold read_asset. rewrite (hbind_inl _ _ _ _ _ (run_read _ _ _ H)). reflexivity. Qed.

Lemma run_read_list (l : loc) (items : list loc) (h : heap) :
  h !! l = Some (OList items) -> read_list l h = (inl items, h).
Proof. intros H. unfold read_list. rewrite (hbind_inl _ _ _ _ _ (run_read _ _ _ H)). reflexivity. Qed.

Lemma run_read_racks (l : loc) (d : Dict.dict loc) (h : heap) :
  h !! l = Some (ORacks d) -> read_racks l h = (inl d, h).
Proof. intros H. unfold read_racks. rewrite (hbind_inl _ _ _ _ _ (run_read _ _ _ H)). reflexivity. Qed.

Lemma run_read_rack (l : loc) (m : rack_metrics) (h : heap) :
  h !! l = Some (ORack m) -> read_rack l h = (inl m, h).
Proof. intros H. unfold read_rack. rewrite (hbind_inl _ _ _ _ _ (run_read _ _ _ H)). reflexivity. Qed.

Lemma run_subscript {A : Type} (ref : loc) (key : string) (field : asset -> option A)
    (a : asset) (h : heap) :
  h !! ref = Some (OAsset a) ->
  subscript ref key field h = lift (getitem key (field a)) h.
Proof.
  intros H. unfold subscript. rewrite (hbind_inl _ _ _ _ _ (run_read_asset _ _ _ H)).
  reflexivity.
Qed.

Lemma run_write (l : loc) (o : obj) (h : heap) :
  l < length h -> write l o h = (inl tt, <[l := o]> h).
Proof.
  intros H. unfold write. apply Nat.ltb_lt in H. rewrite H. reflexivity.
Qed.

Lemma run_append (lst x : loc) (items : list loc) (h : heap) :
  h !! lst = Some (OList items) ->
  append lst x h = (inl tt, <[lst := OList (items ++ [x])]> h).
Proof.
  intros H. unfold append. rewrite (hbind_inl _ _ _ _ _ (run_read_list _ _ _ H)).
  apply run_write. eapply lookup_lt_Some. exact H.
Qed.

Lemma frame_refl (h : heap) : frame h h.
Proof. split; auto. Qed.

Lemma frame_alloc (h0 h : heap) (o : obj) : frame h0 h -> frame h0 (h ++ [o]).
Proof.
  intros [Hlen Hl]. split.
  - rewrite length_app. lia.
  - intros l Hlt. rewrite lookup_app_l by lia. auto.
Qed.

Lemma frame_write (h0 h : heap) (l : loc) (o : obj) :
  frame h0 h -> length h0 <= l -> frame h0 (<[l := o]> h).
Proof.
  intros [Hlen Hl] Hge. split.
  - rewrite length_insert. exact Hlen.
  - intros l' Hlt. rewrite list_lookup_insert_ne by lia. auto.
Qed.

Lemma frame_prefix (h0 h : heap) : frame h0 h -> exists ext, h = h0 ++ ext.
Proof.
  intros [Hlen Hl]. exists (drop (length h0) h).
  rewrite <- (take_drop (length h0) h) at 1. f_equal.
  apply list_eq. intros i. destruct (decide (i < length h0)) as [Hi|Hi].
  - rewrite lookup_take_lt by exact Hi. auto.
  - rewrite lookup_take_ge by lia. symmetry. apply lookup_ge_None. lia.
Qed.

Lemma lookup_alloc_new (h : heap) (o : obj) : (h ++ [o]) !! length h = Some o.
Proof. rewrite lookup_app_r by lia. rewrite Nat.sub_diag. reflexivity. Qed.

Lemma lookup_alloc_old (h : heap) (o : obj) (l : loc) :
  l < length h -> (h ++ [o]) !! l = h !! l.
Proof. intros H. apply lookup_app_l. exact H. Qed.

(** *** Dictionaries of references *)

Lemma set_absent {V : Type} (key : string) (v : V) (d : Dict.dict V) :
  Dict.mem key d = false -> Dict.set key v d = d ++ [(key, v)].
Proof.
  induction d as [|[k w] d IH]; simpl; [reflexivity|].
  destruct (String.eqb k key); [discriminate|]. intros H. rewrite IH by exact H. reflexivity.
Qed.

Lemma get_In_snd {V : Type} (key : string) (v : V) (d : Dict.dict V) :
  Dict.get key d = Ok v -> In v (map snd d).
Proof.
  intros H. apply DictFacts.get_In in H. apply (in_map snd) in H. exact H.
Qed.

Lemma rack_rel_mem (h : heap) (d : Dict.dict loc) (dp : Dict.dict rack_metrics)
    (key : string) :
  List.Forall2 (rack_rel h) d dp -> Dict.mem key d = Dict.mem key dp.
Proof.
  induction 1 as [|[k l] [k' m] d dp [Hk _] _ IH]; simpl in *; [reflexivity|].
  subst k'. destruct (String.eqb k key); auto.
Qed.

Lemma rack_rel_get (h : heap) (d : Dict.dict loc) (dp : Dict.dict rack_metrics)
    (key : string) :
  List.Forall2 (rack_rel h) d dp ->
  match Dict.get key dp with
  | Ok m => exists l, Dict.get key d = Ok l /\ h !! l = Some (ORack m)
  | Raise e => Dict.get key d = Raise e
  end.
Proof.
  induction 1 as [|[k l] [k' m] d dp [Hk Hl] _ IH]; simpl in *; [reflexivity|].
  subst k'. destruct (String.eqb k key); [eauto|exact IH].
Qed.

Lemma rack_rel_heap (h h' : heap) (d : Dict.dict loc) (dp : Dict.dict rack_metrics) :
  (forall l, In l (map snd d) -> h' !! l = h !! l) ->
  List.Forall2 (rack_rel h) d dp -> List.Forall2 (rack_rel h') d dp.
Proof.
  intros Hsame H. induction H as [|[k l] [k' m] d dp [Hk Hl] _ IH]; constructor.
  - split; [exact Hk|]. simpl in *. rewrite Hsame by auto. exact Hl.
  - apply IH. intros l' Hin. apply Hsame. simpl. auto.
Qed.

Lemma rack_rel_update (h : heap) (d : Dict.dict loc) (dp : Dict.dict rack_metrics)
    (key : string) (l : loc) (m' : rack_metrics) :
  List.Forall2 (rack_rel h) d dp ->
  List.NoDup (map snd d) ->
  Dict.get key d = Ok l ->
  l < length h ->
  List.Forall2 (rack_rel (<[l := ORack m']> h)) d (Dict.set key m' dp).
Proof.
  intros H. induction H as [|[k l0] [k' m] d dp [Hk Hl] Hrest IH]; simpl; [discriminate|].
  simpl in Hk, Hl. subst k'. intros ND Hget Hlt.
  apply NoDup_cons_iff in ND as [Hnotin ND].
  destruct (String.eqb k key) eqn:E.
  - injection Hget as <-. constructor.
    + split; [reflexivity|]. simpl. apply list_lookup_insert_eq. exact Hlt.
    + eapply rack_rel_heap; [|exact Hrest]. intros l' Hin.
      apply list_lookup_insert_ne. intros ->. auto.
  - constructor.
    + split; [reflexivity|]. simpl. rewrite list_lookup_insert_ne; [exact Hl|].
      intros ->. apply Hnotin. eapply get_In_snd. exact Hget.
    + apply IH; assumption.
Qed.

End HeapFacts.

Section AggregateSim.
Import Heap HeapOps HeapRel.
Local Open Scope nat_scope.

Lemma frame_lookup (h0 h : heap) (l : loc) (o : obj) :
  frame h0 h -> h0 !! l = Some o -> h !! l = Some o.
Proof.
  intros [_ Hl] H. rewrite Hl; [exact H|]. eapply lookup_lt_Some. exact H.
Qed.

Lemma racks_inv_frame (h0 : heap) (racks : loc) (dp : Dict.dict rack_metrics) (h : heap) :
  racks_inv h0 racks dp h -> frame h0 h.
Proof. intros [H _]. exact H. Qed.

Lemma ensure_rack_sim (h0 : heap) (racks : loc) (dp : Dict.dict rack_metrics)
    (h : heap) (rid : string) :
  racks_inv h0 racks dp h ->
  exists h', HeapCode.ensure_rack racks rid h = (inl tt, h')
             /\ racks_inv h0 racks (ensure_rack rid dp) h'.
Proof.
  intros (Hfr & Hracks & d & Hd & Hrel & ND & Hb).
  unfold HeapCode.ensure_rack, ensure_rack.
  rewrite (hbind_inl _ _ _ _ _ (run_read_racks _ _ _ Hd)).
  rewrite (rack_rel_mem _ _ _ rid Hrel).
  destruct (Dict.mem rid dp) eqn:Hmem.
  - exists h. split; [reflexivity|]. split; [exact Hfr|]. split; [exact Hracks|].
    exists d. auto.
  - set (m0 := mk_rack_metrics 0 (PInt 0)).
    assert (Hd1 : (h ++ [ORack m0]) !! racks = Some (ORacks d)).
    { rewrite lookup_alloc_old by lia. exact Hd. }
    unfold hbind at 1. unfold alloc at 1.
    rewrite (hbind_inl _ _ _ _ _ (run_read_racks _ _ _ Hd1)).
    rewrite run_write by (rewrite length_app; simpl; lia).
    eexists. split; [reflexivity|].
    assert (Hmemd : Dict.mem rid d = false)
      by (rewrite (rack_rel_mem _ _ _ rid Hrel); exact Hmem).
    rewrite (set_absent rid _ d Hmemd), (set_absent rid m0 dp Hmem).
    assert (Hold : forall l, In l (map snd d) ->
              <[racks := ORacks (d ++ [(rid, length h)])]> (h ++ [ORack m0]) !! l = h !! l).
    { intros l Hin. apply in_map_iff in Hin as (kl & <- & Hin).
      rewrite List.Forall_forall in Hb. destruct (Hb kl Hin) as [Hlt Hne].
      rewrite list_lookup_insert_ne by auto. apply lookup_alloc_old. lia. }
    split; [|split].
    + apply frame_write; [apply frame_alloc; exact Hfr|lia].
    + rewrite length_insert, length_app. simpl. lia.
    + exists (d ++ [(rid, length h)]). split; [|split; [|split]].
      * apply list_lookup_insert_eq. rewrite length_app. simpl. lia.
      * apply Forall2_app.
        -- eapply rack_rel_heap; [|exact Hrel]. exact Hold.
        -- constructor; [|constructor]. split; [reflexivity|]. simpl.
           rewrite list_lookup_insert_ne by lia. apply lookup_alloc_new.
      * rewrite map_app. simpl. apply List.NoDup_app; [exact ND| |].
        -- constructor; [simpl; tauto|constructor].
        -- intros l Hin [<-|[]]. apply in_map_iff in Hin as (kl & Hkl & Hin).
           rewrite List.Forall_forall in Hb. destruct (Hb kl Hin) as [Hlt _]. lia.
      * rewrite length_insert, length_app. simpl. apply Forall_app. split.
        -- eapply List.Forall_impl; [|exact Hb]. intros kl [Hlt Hne]. split; [lia|exact Hne].
        -- constructor; [|constructor]. simpl. lia.
Qed.

Lemma bump_sim (h0 : heap) (racks : loc) (dp : Dict.dict rack_metrics)
    (h : heap) (rid : string) (m : rack_metrics) :
  racks_inv h0 racks dp h ->
  Dict.get rid dp = Ok m ->
  exists inner,
    rack_ref racks rid h = (inl inner, h)
    /\ read_rack inner h = (inl m, h)
    /\ forall m', exists h',
         write inner (ORack m') h = (inl tt, h')
         /\ racks_inv h0 racks (Dict.set rid m' dp) h'.
Proof.
  intros (Hfr & Hracks & d & Hd & Hrel & ND & Hb) Hget.
  pose proof (rack_rel_get _ _ _ rid Hrel) as Hg. rewrite Hget in Hg.
  destruct Hg as (l & Hl & Hm).
  assert (Hlb : (length h0 <= l < length h) /\ l <> racks).
  { rewrite List.Forall_forall in Hb. apply DictFacts.get_In in Hl.
    apply (Hb _ Hl). }
  exists l. split; [|split].
  - unfold rack_ref. rewrite (hbind_inl _ _ _ _ _ (run_read_racks _ _ _ Hd)).
    rewrite Hl. reflexivity.
  - apply run_read_rack. exact Hm.
  - intros m'. eexists. split; [apply run_write; lia|].
    split; [apply frame_write; [exact Hfr|lia]|].
    split; [rewrite length_insert; exact Hracks|].
    exists d. split; [|split; [|split]].
    + rewrite list_lookup_insert_ne by (intros E; apply (proj2 Hlb); exact E). exact Hd.
    + apply rack_rel_update; auto. lia.
    + exact ND.
    + rewrite length_insert. exact Hb.
Qed.

Lemma aggregate_step_sim (h0 : heap) (racks : loc) (dp : Dict.dict rack_metrics)
    (h : heap) (ref : loc) (a : asset) :
  racks_inv h0 racks dp h ->
  h0 !! ref = Some (OAsset a) ->
  exists h',
    HeapCode.aggregate_step racks ref h = (ending (aggregate_step dp a) (fun _ => tt), h')
    /\ match aggregate_step dp a with
       | Ok dp' => racks_inv h0 racks dp' h'
       | Raise _ => frame h0 h'
       end.
Proof.
  intros Hinv Href.
  assert (Hsub : forall (A : Type) key (field : asset -> option A) racks' dp' h',
             racks_inv h0 racks' dp' h' ->
             subscript ref key field h' = lift (getitem key (field a)) h').
  { intros A key field racks' dp' h' Hi. apply run_subscript.
    eapply frame_lookup; [eapply racks_inv_frame; exact Hi|exact Href]. }
  unfold HeapCode.aggregate_step, aggregate_step.
  unfold hbind at 1. rewrite (Hsub _ _ _ _ _ _ Hinv).
  destruct (rack_id a) as [rid|]; cbn [getitem lift ret fail bind ending].
  2:{ exists h. split; [reflexivity|]. eapply racks_inv_frame; exact Hinv. }
  destruct (ensure_rack_sim _ _ _ _ rid Hinv) as (h1 & Hrun1 & Hinv1).
  rewrite (hbind_inl _ _ _ _ _ Hrun1). fold (ensure_rack rid dp).
  unfold hbind at 1. rewrite (Hsub _ _ _ _ _ _ Hinv1).
  destruct (status a) as [st|]; cbn [getitem lift ret fail bind ending].
  2:{ exists h1. split; [reflexivity|]. eapply racks_inv_frame; exact Hinv1. }
  destruct (String.eqb st "Online").
  2:{ exists h1. split; [reflexivity|exact Hinv1]. }
  destruct (Dict.get rid (ensure_rack rid dp)) as [m|e] eqn:Hget.
  2:{ destruct (ensure_rack_get rid dp) as (m & Hm). congruence. }
  cbn [bind].
  destruct (bump_sim _ _ _ _ rid m Hinv1 Hget) as (inner & Hrf & Hread & Hwrite).
  rewrite (hbind_inl _ _ _ _ _ Hrf), (hbind_inl _ _ _ _ _ Hread).
  unfold hbind at 1. rewrite (Hsub _ _ _ _ _ _ Hinv1).
  destruct (rack_units a) as [u|]; cbn [getitem lift ret fail bind ending].
  2:{ exists h1. split; [reflexivity|]. eapply racks_inv_frame; exact Hinv1. }
  destruct (Hwrite (mk_rack_metrics (units_used m + u) (power_used_watts m)))
    as (h2 & Hrun2 & Hinv2).
  rewrite (hbind_inl _ _ _ _ _ Hrun2).
  rewrite DictFacts.get_set_eq. cbn [bind units_used power_used_watts].
  destruct (bump_sim _ _ _ _ rid _ Hinv2 (DictFacts.get_set_eq _ _ _))
    as (inner' & Hrf' & Hread' & Hwrite').
  rewrite (hbind_inl _ _ _ _ _ Hrf'), (hbind_inl _ _ _ _ _ Hread').
  unfold hbind at 1. rewrite (Hsub _ _ _ _ _ _ Hinv2).
  destruct (power_watts a) as [w|]; cbn [getitem lift ret fail bind ending].
  2:{ exists h2. split; [reflexivity|]. eapply racks_inv_frame; exact Hinv2. }
  cbn [units_used power_used_watts].
  destruct (py_add (power_used_watts m) w) as [p|e]; cbn [bind ending].
  2:{ exists h2. split; [reflexivity|]. eapply racks_inv_frame; exact Hinv2. }
  unfold hbind at 1. cbn [lift ret].
  destruct (Hwrite' (mk_rack_metrics (units_used m + u) p)) as (h3 & Hrun3 & Hinv3).
  exists h3. split; [exact Hrun3|exact Hinv3].
Qed.

Lemma aggregate_sim (h0 : heap) (racks : loc) (refs : list loc) (assets : list asset) :
  holds_assets h0 refs assets ->
  forall (dp : Dict.dict rack_metrics) (h : heap),
    racks_inv h0 racks dp h ->
    exists h',
      HeapCode.aggregate racks refs h = (ending (aggregate dp assets) (fun _ => tt), h')
      /\ match aggregate dp assets with
         | Ok dp' => racks_inv h0 racks dp' h'
         | Raise _ => frame h0 h'
         end.
Proof.
  induction 1 as [|ref a refs assets Href _ IH]; intros dp h Hinv.
  - simpl. exists h. auto.
  - cbn [aggregate HeapCode.aggregate].
    destruct (aggregate_step_sim _ _ _ _ _ _ Hinv Href) as (h1 & Hrun & Hpost).
    destruct (aggregate_step dp a) as [dp1|e]; cbn [bind ending] in *.
    + rewrite (hbind_inl _ _ _ _ _ Hrun). apply IH. exact Hpost.
    + rewrite (hbind_inr _ _ _ _ _ Hrun). exists h1. auto.
Qed.

End AggregateSim.

Section FinalizeSim.
Import Heap HeapOps HeapRel.
Local Open Scope nat_scope.

Lemma modifies_only_frame (h0 h h' : heap) (lst : loc) :
  frame h0 h -> modifies_only lst h h' -> length h0 <= lst -> frame h0 h'.
Proof.
  intros [Hlen Hl] [Hlen' Hl'] Hge. split; [lia|].
  intros l Hlt. rewrite Hl' by lia. auto.
Qed.

Lemma holds_same {A : Type} (to_obj : A -> obj) (h h' : heap) (refs : list loc)
    (values : list A) :
  (forall r, In r refs -> h' !! r = h !! r) ->
  List.Forall2 (fun r v => h !! r = Some (to_obj v)) refs values ->
  List.Forall2 (fun r v => h' !! r = Some (to_obj v)) refs values.
Proof.
  intros Hsame H. induction H as [|r v refs values Hr _ IH]; constructor.
  - rewrite Hsame by (left; reflexivity). exact Hr.
  - apply IH. intros r' Hin. apply Hsame. right. exact Hin.
Qed.

Lemma fresh_list_append {A : Type} (to_obj : A -> obj) (h0 : heap) (lo lst : loc)
    (values : list A) (h : heap) (v : A) :
  fresh_list to_obj h0 lo lst values h ->
  exists h',
    (record <~ alloc (to_obj v) ;; append lst record) h = (inl tt, h')
    /\ fresh_list to_obj h0 lo lst (values ++ [v]) h'
    /\ modifies_only lst h h'.
Proof.
  intros (Hlst & Hlo & refs & Hl & Hrefs & Hb & ND).
  assert (Hl1 : (h ++ [to_obj v]) !! lst = Some (OList refs)).
  { rewrite lookup_alloc_old by lia. exact Hl. }
  unfold hbind, alloc. rewrite (run_append _ _ _ _ Hl1).
  eexists. split; [reflexivity|].
  assert (Hmod : modifies_only lst h (<[lst := OList (refs ++ [length h])]> (h ++ [to_obj v]))).
  { split.
    - rewrite length_insert, length_app. lia.
    - intros l Hlt Hne. rewrite list_lookup_insert_ne by auto. apply lookup_alloc_old. exact Hlt. }
  split; [|exact Hmod].
  split; [exact Hlst|]. split; [rewrite length_insert, length_app; lia|].
  exists (refs ++ [length h]). split; [|split; [|split]].
  - apply list_lookup_insert_eq. rewrite length_app. simpl. lia.
  - apply Forall2_app.
    + eapply holds_same; [|exact Hrefs]. intros r Hin.
      rewrite List.Forall_forall in Hb. specialize (Hb _ Hin). simpl in Hb.
      apply (proj2 Hmod); lia.
    + constructor; [|constructor]. rewrite list_lookup_insert_ne by lia.
      apply lookup_alloc_new.
  - rewrite length_insert, length_app. simpl. apply Forall_app. split.
    + eapply List.Forall_impl; [|exact Hb]. intros r Hr. simpl in Hr. lia.
    + constructor; [lia|constructor].
  - apply List.NoDup_app; [exact ND|constructor; [simpl; tauto|constructor]|].
    intros r Hin [<-|[]]. rewrite List.Forall_forall in Hb. specialize (Hb _ Hin). lia.
Qed.


Lemma fresh_list_other {A : Type} (to_obj : A -> obj) (h0 : heap) (lo lst lst' : loc)
    (values : list A) (h h' : heap) :
  fresh_list to_obj h0 lo lst values h ->
  modifies_only lst' h h' -> lst' < lo -> lst' <> lst ->
  fresh_list to_obj h0 lo lst values h'.
Proof.
  intros (Hlst & Hlo & refs & Hl & Hrefs & Hb & ND) [Hlen Hsame] Hlt Hne.
  split; [exact Hlst|]. split; [lia|].
  exists refs. split; [|split; [|split]].
  - rewrite Hsame by lia. exact Hl.
  - eapply holds_same; [|exact Hrefs]. intros r Hin.
    rewrite List.Forall_forall in Hb. specialize (Hb _ Hin). simpl in Hb.
    apply Hsame; lia.
  - eapply List.Forall_impl; [|exact Hb]. intros r Hr. simpl in Hr. lia.
  - exact ND.
Qed.

Lemma items_rel_modifies (h h' : heap) (cml : loc) (d : Dict.dict loc)
    (dp : Dict.dict rack_metrics) :
  items_rel h cml d dp -> modifies_only cml h h' -> items_rel h' cml d dp.
Proof.
  intros [Hrel Hb] [Hlen Hsame]. split.
  - eapply rack_rel_heap; [|exact Hrel]. intros l Hin.
    apply in_map_iff in Hin as (kl & <- & Hin).
    rewrite List.Forall_forall in Hb. destruct (Hb _ Hin) as [Hlt Hne].
    apply Hsame; assumption.
  - eapply List.Forall_impl; [|exact Hb]. intros kl [Hlt Hne]. split; [lia|exact Hne].
Qed.

Lemma finalize_step_sim (h0 : heap) (cml : loc) (acc : list capacity_metric)
    (tot : pynum) (rid : string) (l : loc) (m : rack_metrics) (h : heap) :
  frame h0 h ->
  fresh_list OMetric h0 (S cml) cml acc h ->
  h !! l = Some (ORack m) ->
  exists h',
    HeapCode.finalize_step cml tot (rid, l) h
    = (ending (finalize_step (acc, tot) (rid, m)) snd, h')
    /\ frame h0 h'
    /\ modifies_only cml h h'
    /\ match finalize_step (acc, tot) (rid, m) with
       | Ok (acc', _) => fresh_list OMetric h0 (S cml) cml acc' h'
       | Raise _ => True
       end.
Proof.
  intros Hfr Hlist Hl.
  assert (Hrefl : modifies_only cml h h) by (split; auto).
  unfold HeapCode.finalize_step, finalize_step.
  rewrite (hbind_inl _ _ _ _ _ (run_read_rack _ _ _ Hl)).
  destruct (py_div_float (power_used_watts m) watts_per_kva) as [kva|e];
    unfold hbind at 1; cbn [lift ret fail bind ending].
  2:{ exists h. auto. }
  destruct (int_truediv (units_used m) MAX_RACK_UNITS) as [q|e];
    unfold hbind at 1; cbn [lift ret fail bind ending].
  2:{ exists h. auto. }
  rewrite (hbind_inl _ _ _ _ _ (run_read_rack _ _ _ Hl)).
  destruct (py_add tot (power_used_watts m)) as [total|e];
    unfold hbind at 1; cbn [lift ret fail bind ending snd].
  2:{ exists h. auto. }
  rewrite (hbind_inl _ _ _ _ _ (run_read_rack _ _ _ Hl)).
  match goal with
  | |- context [alloc (OMetric ?c)] =>
      destruct (fresh_list_append OMetric h0 (S cml) cml acc h c Hlist)
        as (h' & Hrun & Hlist' & Hmod)
  end.
  exists h'. split.
  - unfold hbind in Hrun |- *. unfold alloc in Hrun |- *.
    destruct (append cml (length h) (h ++ _)) as [[[]|f] h1] eqn:E;
      inversion Hrun; subst. reflexivity.
  - split; [|split; [exact Hmod|exact Hlist']].
    eapply modifies_only_frame; [exact Hfr|exact Hmod|]. destruct Hlist as [Hb _]. lia.
Qed.

Lemma finalize_sim (h0 : heap) (cml : loc) (d : Dict.dict loc)
    (dp : Dict.dict rack_metrics) :
  forall (acc : list capacity_metric) (tot : pynum) (h : heap),
    frame h0 h ->
    fresh_list OMetric h0 (S cml) cml acc h ->
    items_rel h cml d dp ->
    exists h',
      HeapCode.finalize cml tot d h = (ending (finalize (acc, tot) dp) snd, h')
      /\ frame h0 h'
      /\ match finalize (acc, tot) dp with
         | Ok (acc', _) => fresh_list OMetric h0 (S cml) cml acc' h'
         | Raise _ => True
         end.
Proof.
  revert d. induction dp as [|[rid m] dp IH]; intros d acc tot h Hfr Hlist [Hrel Hb].
  - inversion Hrel; subst. simpl. exists h. auto.
  - inversion Hrel as [|[rid' l] ? d' ? [Hk Hl] Hrel']; subst. simpl in Hk, Hl. subst rid'.
    apply List.Forall_cons_iff in Hb as [_ Hb].
    cbn [finalize HeapCode.finalize].
    destruct (finalize_step_sim h0 cml acc tot rid l m h Hfr Hlist Hl)
      as (h1 & Hrun & Hfr1 & Hmod & Hpost).
    destruct (finalize_step (acc, tot) (rid, m)) as [[acc1 tot1]|e]; cbn [bind ending snd] in *.
    + rewrite (hbind_inl _ _ _ _ _ Hrun). apply IH; auto.
      eapply items_rel_modifies; [split; eassumption|exact Hmod].
    + rewrite (hbind_inr _ _ _ _ _ Hrun). exists h1. auto.
Qed.

(** On a store where [assets] refers to a list of asset records, the
    aggregator over references does what [analyze_capacity] does on the
    values, leaves every object of the initial store as it was, and returns
    a list object and records that it allocated itself. *)
Lemma analyze_capacity_sim (h0 : heap) (assets_ref : loc) (refs : list loc)
    (assets : list asset) :
  h0 !! assets_ref = Some (OList refs) ->
  holds_assets h0 refs assets ->
  exists out h',
    HeapCode.analyze_capacity assets_ref h0 = (out, h')
    /\ frame h0 h'
    /\ match analyze_capacity assets with
       | Ok (cm, n, t) =>
           exists cml, out = inl (cml, n, t)
                       /\ fresh_list OMetric h0 (S cml) cml cm h'
       | Raise e => out = inr (Py e)
       end.
Proof.
  intros Hlist Hassets.
  unfold HeapCode.analyze_capacity, analyze_capacity.
  rewrite (hbind_inl _ _ _ _ _ (run_read_list _ _ _ Hlist)).
  unfold hbind at 1. unfold alloc at 1.
  set (racks := length h0). set (h1 := h0 ++ [ORacks []]).
  assert (Hfr1 : frame h0 h1) by (apply frame_alloc, frame_refl).
  assert (Hinv1 : racks_inv h0 racks [] h1).
  { split; [exact Hfr1|]. split.
    - subst racks h1. rewrite length_app. simpl. lia.
    - exists []. split; [apply lookup_alloc_new|].
      split; [constructor|]. split; constructor. }
  rewrite (hbind_inl _ _ _ _ _ (run_read_list _ _ _ (frame_lookup _ _ _ _ Hfr1 Hlist))).
  destruct (aggregate_sim h0 racks refs assets Hassets [] h1 Hinv1) as (h2 & Hrun2 & Hpost2).
  destruct (aggregate [] assets) as [dp|e]; cbn [bind ending] in *.
  2:{ rewrite (hbind_inr _ _ _ _ _ Hrun2). eauto. }
  rewrite (hbind_inl _ _ _ _ _ Hrun2).
  destruct Hpost2 as (Hfr2 & Hracks & d & Hd & Hrel & ND & Hb).
  unfold hbind at 1. unfold alloc at 1.
  set (cml := length h2). set (h3 := h2 ++ [OList []]).
  assert (Hd3 : h3 !! racks = Some (ORacks d)).
  { subst h3. rewrite lookup_alloc_old by lia. exact Hd. }
  rewrite (hbind_inl _ _ _ _ _ (run_read_racks _ _ _ Hd3)).
  assert (Hfr3 : frame h0 h3) by (apply frame_alloc; exact Hfr2).
  assert (Hl3 : fresh_list OMetric h0 (S cml) cml [] h3).
  { split; [subst cml; destruct Hfr2; lia|]. split.
    - subst cml h3. rewrite length_app. simpl. lia.
    - exists []. split; [apply lookup_alloc_new|]. split; [constructor|]. split; constructor. }
  assert (Hit : items_rel h3 cml d dp).
  { split.
    - eapply rack_rel_heap; [|exact Hrel]. intros l Hin.
      apply in_map_iff in Hin as (kl & <- & Hin).
      rewrite List.Forall_forall in Hb. destruct (Hb _ Hin) as [Hlt _].
      apply lookup_alloc_old. lia.
    - eapply List.Forall_impl; [|exact Hb]. intros kl [Hlt _].
      subst cml h3. rewrite length_app. simpl. lia. }
  destruct (finalize_sim h0 cml d dp [] (PInt 0) h3 Hfr3 Hl3 Hit) as (h4 & Hrun4 & Hfr4 & Hpost4).
  destruct (finalize ([], PInt 0) dp) as [[cm t]|e]; cbn [bind ending fst snd] in *.
  2:{ rewrite (hbind_inr _ _ _ _ _ Hrun4). eauto. }
  rewrite (hbind_inl _ _ _ _ _ Hrun4). cbn [ret].
  eexists. exists h4. split; [reflexivity|]. split; [exact Hfr4|].
  exists cml. split; [|exact Hpost4].
  rewrite (Forall2_length _ _ _ Hassets). reflexivity.
Qed.

End FinalizeSim.

Section ComplianceSim.
Import Heap HeapOps HeapRel HeapSim.
Local Open Scope nat_scope.

Variable h0 : heap.

Lemma sim_bind {A B C D : Type} (P : heap -> Prop) (m : M B) (r : result A)
    (f : A -> B) (Q : A -> heap -> Prop) (k : B -> M D) (kp : A -> result C)
    (g : C -> D) (Q' : C -> heap -> Prop) :
  sim h0 P m r f Q ->
  (forall a, sim h0 (Q a) (k (f a)) (kp a) g Q') ->
  sim h0 P (hbind m k) (bind r kp) g Q'.
Proof.
  intros Hm Hk h HP. destruct (Hm h HP) as (h1 & Hrun & Hpost).
  destruct r as [a|e]; cbn [ending bind] in *.
  - rewrite (hbind_inl _ _ _ _ _ Hrun). apply (Hk a). exact Hpost.
  - rewrite (hbind_inr _ _ _ _ _ Hrun). exists h1. auto.
Qed.

Lemma sim_lift {A : Type} (P : heap -> Prop) (r : result A) :
  (forall h, P h -> frame h0 h) ->
  sim h0 P (lift r) r (fun x => x) (fun _ => P).
Proof.
  intros HP h Hh. exists h. destruct r as [a|e]; cbn [lift ret fail ending]; auto.
Qed.

Lemma sim_subscript {A : Type} (P : heap -> Prop) (ref : loc) (a : asset)
    (key : string) (field : asset -> option A) :
  (forall h, P h -> frame h0 h) ->
  h0 !! ref = Some (OAsset a) ->
  sim h0 P (subscript ref key field) (getitem key (field a)) (fun x => x) (fun _ => P).
Proof.
  intros HP Href h Hh.
  rewrite (run_subscript _ _ _ _ _ (frame_lookup _ _ _ _ (HP h Hh) Href)).
  apply sim_lift; assumption.
Qed.

Lemma sim_ret {A B : Type} (P : heap -> Prop) (a : A) (f : A -> B)
    (Q : A -> heap -> Prop) :
  (forall h, P h -> Q a h) ->
  sim h0 P (ret (f a)) (Ok a) f Q.
Proof. intros HQ h Hh. exists h. split; [reflexivity|]. apply HQ. exact Hh. Qed.

Lemma lists_inv_frame (le lv : loc) (acc : list eol_entry * list vendor_entry) (h : heap) :
  lists_inv h0 le lv acc h -> frame h0 h.
Proof. intros [H _]. exact H. Qed.

Lemma sim_append_eol (le lv : loc) (eol : list eol_entry) (vr : list vendor_entry)
    (e : eol_entry) :
  sim h0 (lists_inv h0 le lv (eol, vr))
    (record <~ alloc (OEol e) ;; append le record)
    (Ok (eol ++ [e])) (fun _ => tt)
    (fun eol' => lists_inv h0 le lv (eol', vr)).
Proof.
  intros h (Hfr & Hne & He & Hv). cbn [fst snd] in *.
  destruct (fresh_list_append OEol h0 _ le eol h e He) as (h' & Hrun & He' & Hmod).
  exists h'. split; [exact Hrun|]. split; [|split; [exact Hne|split; [exact He'|]]].
  - eapply modifies_only_frame; [exact Hfr|exact Hmod|]. destruct He as [Hb _]. lia.
  - eapply fresh_list_other; [exact Hv|exact Hmod|lia|exact Hne].
Qed.

Lemma sim_append_vendor (le lv : loc) (eol : list eol_entry) (vr : list vendor_entry)
    (v : vendor_entry) :
  sim h0 (lists_inv h0 le lv (eol, vr))
    (record <~ alloc (OVendor v) ;; append lv record)
    (Ok (vr ++ [v])) (fun _ => tt)
    (fun vr' => lists_inv h0 le lv (eol, vr')).
Proof.
  intros h (Hfr & Hne & He & Hv). cbn [fst snd] in *.
  destruct (fresh_list_append OVendor h0 _ lv vr h v Hv) as (h' & Hrun & Hv' & Hmod).
  exists h'. split; [exact Hrun|]. split; [|split; [exact Hne|split; [|exact Hv']]].
  - eapply modifies_only_frame; [exact Hfr|exact Hmod|]. destruct Hv as [Hb _]. lia.
  - eapply fresh_list_other; [exact He|exact Hmod|lia|]. intros E. apply Hne. auto.
Qed.

Lemma compliance_step_sim (le lv : loc) (acc : list eol_entry * list vendor_entry)
    (ref : loc) (a : asset) :
  h0 !! ref = Some (OAsset a) ->
  sim h0 (lists_inv h0 le lv acc)
    (HeapCode.compliance_step le lv ref)
    (compliance_step acc a) (fun _ => tt)
    (fun acc' => lists_inv h0 le lv acc').
Proof.
  intros Href. destruct acc as [eol vr].
  unfold HeapCode.compliance_step, compliance_step.
  assert (Hsub : forall (A : Type) acc' key (field : asset -> option A),
             sim h0 (lists_inv h0 le lv acc') (subscript ref key field)
               (getitem key (field a)) (fun x => x) (fun _ => lists_inv h0 le lv acc')).
  { intros. apply sim_subscript; [apply lists_inv_frame|exact Href]. }
  eapply sim_bind; [apply Hsub|]. intros age.
  eapply (sim_bind _ _ _ (fun x : bool => x) (fun _ => lists_inv h0 le lv (eol, vr))).
  { destruct (py_ge age EOL_AGE_YEARS).
    - eapply sim_bind; [apply Hsub|]. intros st.
      apply (sim_ret _ (negb (String.eqb st "Decom Pending")) (fun x => x)). auto.
    - apply (sim_ret _ false (fun x => x)). auto. }
  intros is_eol.
  eapply (sim_bind _ _ _ (fun _ => tt) (fun eol' => lists_inv h0 le lv (eol', vr))).
  { destruct is_eol.
    - eapply sim_bind; [apply Hsub|]. intros id.
      eapply sim_bind; [apply Hsub|]. intros rack.
      eapply sim_bind; [apply Hsub|]. intros age'.
      apply sim_append_eol.
    - apply (sim_ret _ eol (fun _ => tt)). auto. }
  intros eol'.
  eapply sim_bind; [apply Hsub|]. intros v.
  eapply (sim_bind _ _ _ (fun x : bool => x) (fun _ => lists_inv h0 le lv (eol', vr))).
  { destruct (in_list v CRITICAL_VENDORS).
    - eapply sim_bind; [apply Hsub|]. intros st.
      apply (sim_ret _ (String.eqb st "Online") (fun x => x)). auto.
    - apply (sim_ret _ false (fun x => x)). auto. }
  intros is_risk.
  change (sim h0 (lists_inv h0 le lv (eol', vr))
            (if is_risk
             then id <~ subscript ref "asset_id" asset_id ;;
                  rack <~ subscript ref "rack_id" rack_id ;;
                  v0 <~ subscript ref "vendor" vendor ;;
                  age0 <~ subscript ref "asset_age_years" asset_age_years ;;
                  record <~ alloc (OVendor (mk_vendor_entry id rack v0 age0)) ;;
                  append lv record
             else ret tt)
            (bind (if is_risk
                   then id <- getitem "asset_id" (asset_id a) ;;
                        rack <- getitem "rack_id" (rack_id a) ;;
                        v0 <- getitem "vendor" (vendor a) ;;
                        age0 <- getitem "asset_age_years" (asset_age_years a) ;;
                        Ok (vr ++ [mk_vendor_entry id rack v0 age0])
                   else Ok vr)
                  (fun vr' => Ok (eol', vr')))
            (fun _ => tt) (fun acc' => lists_inv h0 le lv acc')).
  destruct is_risk.
  - intros h Hh.
    assert (Hs : sim h0 (lists_inv h0 le lv (eol', vr))
              (id <~ subscript ref "asset_id" asset_id ;;
               rack <~ subscript ref "rack_id" rack_id ;;
               v0 <~ subscript ref "vendor" vendor ;;
               age0 <~ subscript ref "asset_age_years" asset_age_years ;;
               record <~ alloc (OVendor (mk_vendor_entry id rack v0 age0)) ;;
               append lv record)
              (id <- getitem "asset_id" (asset_id a) ;;
               rack <- getitem "rack_id" (rack_id a) ;;
               v0 <- getitem "vendor" (vendor a) ;;
               age0 <- getitem "asset_age_years" (asset_age_years a) ;;
               Ok (vr ++ [mk_vendor_entry id rack v0 age0]))
              (fun _ => tt) (fun vr' => lists_inv h0 le lv (eol', vr'))).
    { eapply sim_bind; [apply Hsub|]. intros id.
      eapply sim_bind; [apply Hsub|]. intros rack.
      eapply sim_bind; [apply Hsub|]. intros v0.
      eapply sim_bind; [apply Hsub|]. intros age0.
      apply sim_append_vendor. }
    destruct (Hs h Hh) as (h' & Hrun & Hpost). exists h'.
    destruct (bind (getitem "asset_id" (asset_id a)) _) as [vr'|e];
      cbn [bind ending] in *; auto.
  - intros h Hh. exists h. cbn [bind ending ret]. auto.
Qed.

Lemma compliance_loop_sim (le lv : loc) (refs : list loc) (assets : list asset) :
  holds_assets h0 refs assets ->
  forall acc,
    sim h0 (lists_inv h0 le lv acc)
      (HeapCode.compliance_loop le lv refs)
      (compliance_loop acc assets) (fun _ => tt)
      (fun acc' => lists_inv h0 le lv acc').
Proof.
  induction 1 as [|ref a refs assets Href _ IH]; intros acc.
  - cbn [HeapCode.compliance_loop compliance_loop]. apply (sim_ret _ acc (fun _ => tt)). auto.
  - cbn [HeapCode.compliance_loop compliance_loop].
    eapply sim_bind; [apply compliance_step_sim; exact Href|].
    intros acc'. apply IH.
Qed.

End ComplianceSim.

Section WholeRuns.
Import Heap HeapOps HeapRel HeapSim.
Local Open Scope nat_scope.

Lemma check_compliance_sim (h0 : heap) (assets_ref : loc) (refs : list loc)
    (assets : list asset) :
  h0 !! assets_ref = Some (OList refs) ->
  holds_assets h0 refs assets ->
  exists out h',
    HeapCode.check_compliance_and_eol assets_ref h0 = (out, h')
    /\ frame h0 h'
    /\ match check_compliance_and_eol assets with
       | Ok (eol, vr) =>
           exists le lv,
             out = inl (le, lv) /\ le <> lv
             /\ fresh_list OEol h0 (S (Nat.max le lv)) le eol h'
             /\ fresh_list OVendor h0 (S (Nat.max le lv)) lv vr h'
       | Raise e => out = inr (Py e)
       end.
Proof.
  intros Hlist Hassets.
  unfold HeapCode.check_compliance_and_eol, check_compliance_and_eol.
  unfold hbind at 1. unfold alloc at 1. unfold hbind at 1. unfold alloc at 1.
  set (le := length h0). set (h1 := h0 ++ [OList []]).
  set (lv := length h1). set (h2 := h1 ++ [OList []]).
  assert (Hlv : lv = S le) by (subst lv h1 le; rewrite length_app; simpl; lia).
  assert (Hlen2 : length h2 = S (S le)) by (subst h2; rewrite length_app; simpl; lia).
  assert (Hfr2 : frame h0 h2) by (apply frame_alloc, frame_alloc, frame_refl).
  rewrite (hbind_inl _ _ _ _ _ (run_read_list _ _ _ (frame_lookup _ _ _ _ Hfr2 Hlist))).
  assert (Hinv : lists_inv h0 le lv ([], []) h2).
  { split; [exact Hfr2|]. split; [lia|]. cbn [fst snd].
    replace (Nat.max le lv) with lv by lia. split.
    - split; [subst le; lia|]. split; [lia|]. exists [].
      split; [|split; [constructor|split; constructor]].
      subst h2. rewrite lookup_alloc_old by (subst lv h1; rewrite length_app; simpl; lia).
      apply lookup_alloc_new.
    - split; [subst le; lia|]. split; [lia|]. exists [].
      split; [|split; [constructor|split; constructor]].
      apply lookup_alloc_new. }
  destruct (compliance_loop_sim h0 le lv refs assets Hassets ([], []) h2 Hinv)
    as (h3 & Hrun & Hpost).
  destruct (compliance_loop ([], []) assets) as [[eol vr]|e]; cbn [ending] in *.
  - rewrite (hbind_inl _ _ _ _ _ Hrun). cbn [ret].
    eexists. exists h3. split; [reflexivity|].
    destruct Hpost as (Hfr3 & Hne & He & Hv). split; [exact Hfr3|].
    exists le, lv. auto.
  - rewrite (hbind_inr _ _ _ _ _ Hrun). eauto.
Qed.

Lemma run_read_each {A : Type} (to_obj : A -> obj) (from_obj : obj -> option A)
    (h : heap) (refs : list loc) (values : list A) :
  (forall v, from_obj (to_obj v) = Some v) ->
  List.Forall2 (fun r v => h !! r = Some (to_obj v)) refs values ->
  read_each from_obj refs h = (inl values, h).
Proof.
  intros Hinv. induction 1 as [|r v refs values Hr _ IH]; cbn [read_each]; [reflexivity|].
  rewrite (hbind_inl _ _ _ _ _ (run_read _ _ _ Hr)). rewrite Hinv.
  rewrite (hbind_inl _ _ _ _ _ IH). reflexivity.
Qed.

Lemma run_read_records {A : Type} (to_obj : A -> obj) (from_obj : obj -> option A)
    (h0 : heap) (lo lst : loc) (values : list A) (h : heap) :
  (forall v, from_obj (to_obj v) = Some v) ->
  fresh_list to_obj h0 lo lst values h ->
  read_records from_obj lst h = (inl values, h).
Proof.
  intros Hinv (_ & _ & refs & Hl & Hrefs & _). unfold read_records.
  rewrite (hbind_inl _ _ _ _ _ (run_read_list _ _ _ Hl)).
  eapply run_read_each; eassumption.
Qed.

Lemma fresh_list_frame {A : Type} (to_obj : A -> obj) (h0 h1 h : heap) (lo lst : loc)
    (values : list A) :
  fresh_list to_obj h0 lo lst values h1 -> frame h1 h ->
  exists refs, h !! lst = Some (OList refs)
               /\ List.Forall2 (fun r v => h !! r = Some (to_obj v)) refs values.
Proof.
  intros (Hlst & Hlo & refs & Hl & Hrefs & Hb & _) Hfr. exists refs. split.
  - eapply frame_lookup; eassumption.
  - eapply holds_same; [|exact Hrefs]. intros r Hin.
    rewrite List.Forall_forall in Hb. specialize (Hb _ Hin). simpl in Hb.
    apply (proj2 Hfr). lia.
Qed.

Lemma frame_trans (h0 h1 h2 : heap) : frame h0 h1 -> frame h1 h2 -> frame h0 h2.
Proof.
  intros [L1 H1] [L2 H2]. split; [lia|]. intros l Hl. rewrite H2 by lia. auto.
Qed.

Lemma holds_assets_frame (h0 h : heap) (refs : list loc) (assets : list asset) :
  holds_assets h0 refs assets -> frame h0 h -> holds_assets h refs assets.
Proof.
  intros H Hfr. unfold holds_assets in *.
  eapply List.Forall2_impl; [|exact H]. intros r a Hr. eapply frame_lookup; eassumption.
Qed.

Lemma build_report_sim (h0 : heap) (assets_ref : loc) (refs : list loc)
    (assets : list asset) :
  h0 !! assets_ref = Some (OList refs) ->
  holds_assets h0 refs assets ->
  exists h',
    HeapCode.build_report assets_ref h0 = (ending (build_report assets) (fun x => x), h')
    /\ frame h0 h'.
Proof.
  intros Hlist Hassets. unfold HeapCode.build_report, build_report.
  destruct (analyze_capacity_sim h0 assets_ref refs assets Hlist Hassets)
    as (out1 & h1 & Hrun1 & Hfr1 & Hpost1).
  destruct (analyze_capacity assets) as [[[cm n] t]|e]; cbn [bind ending].
  2:{ subst out1. rewrite (hbind_inr _ _ _ _ _ Hrun1). eauto. }
  destruct Hpost1 as (cml & -> & Hcm).
  rewrite (hbind_inl _ _ _ _ _ Hrun1).
  destruct (check_compliance_sim h1 assets_ref refs assets
              (frame_lookup _ _ _ _ Hfr1 Hlist) (holds_assets_frame _ _ _ _ Hassets Hfr1))
    as (out2 & h2 & Hrun2 & Hfr2 & Hpost2).
  destruct (check_compliance_and_eol assets) as [[eol vr]|e]; cbn [bind ending].
  2:{ subst out2. rewrite (hbind_inr _ _ _ _ _ Hrun2).
      exists h2. split; [reflexivity|]. eapply frame_trans; eassumption. }
  destruct Hpost2 as (le & lv & -> & Hne & He & Hv).
  rewrite (hbind_inl _ _ _ _ _ Hrun2).
  unfold HeapCode.generate_report.
  destruct (fresh_list_frame _ _ _ _ _ _ _ Hcm Hfr2) as (rcm & Hlcm & Hrcm).
  assert (Hread1 : read_records as_metric cml h2 = (inl cm, h2)).
  { unfold read_records. rewrite (hbind_inl _ _ _ _ _ (run_read_list _ _ _ Hlcm)).
    apply (run_read_each OMetric); [reflexivity|exact Hrcm]. }
  rewrite (hbind_inl _ _ _ _ _ Hread1).
  rewrite (hbind_inl _ _ _ _ _ (run_read_records OEol as_eol _ _ _ _ _ (fun _ => eq_refl) He)).
  rewrite (hbind_inl _ _ _ _ _
             (run_read_records OVendor as_vendor _ _ _ _ _ (fun _ => eq_refl) Hv)).
  exists h2. split; [|eapply frame_trans; eassumption].
  destruct (generate_report cm n t eol vr); reflexivity.
Qed.

End WholeRuns.

Section HeapClaims.
Import Heap HeapOps HeapRel HeapSim.
Local Open Scope nat_scope.

(** C10: run on a store where [assets] refers to a list of asset records,
    neither [analyze_capacity] nor [check_compliance_and_eol] changes an
    object that was there: the store they leave is the initial one followed
    by the objects they allocated, so the list and every record in it are as
    before, also when an exception ends the call.  What they return is
    freshly built: the result lists and the records in them lie beyond the
    initial store, at distinct locations, and hold the values computed by
    the functions on values. *)
Theorem inputs_untouched (h0 : heap) (assets_ref : loc) (refs : list loc)
    (assets : list asset) :
  h0 !! assets_ref = Some (OList refs) ->
  holds_assets h0 refs assets ->
  (exists out h' ext,
     HeapCode.analyze_capacity assets_ref h0 = (out, h')
     /\ h' = h0 ++ ext
     /\ h' !! assets_ref = Some (OList refs)
     /\ holds_assets h' refs assets
     /\ match analyze_capacity assets with
        | Ok (cm, n, t) =>
            exists cml, out = inl (cml, n, t)
                        /\ fresh_list OMetric h0 (S cml) cml cm h'
        | Raise e => out = inr (Py e)
        end)
  /\ (exists out h' ext,
        HeapCode.check_compliance_and_eol assets_ref h0 = (out, h')
        /\ h' = h0 ++ ext
        /\ h' !! assets_ref = Some (OList refs)
        /\ holds_assets h' refs assets
        /\ match check_compliance_and_eol assets with
           | Ok (eol, vr) =>
               exists le lv,
                 out = inl (le, lv) /\ le <> lv
                 /\ fresh_list OEol h0 (S (Nat.max le lv)) le eol h'
                 /\ fresh_list OVendor h0 (S (Nat.max le lv)) lv vr h'
           | Raise e => out = inr (Py e)
           end).
Proof.
  intros Hlist Hassets. split.
  - destruct (analyze_capacity_sim h0 assets_ref refs assets Hlist Hassets)
      as (out & h' & Hrun & Hfr & Hpost).
    destruct (frame_prefix _ _ Hfr) as (ext & Hext).
    exists out, h', ext. split; [exact Hrun|]. split; [exact Hext|].
    split; [eapply frame_lookup; eassumption|].
    split; [eapply holds_assets_frame; eassumption|exact Hpost].
  - destruct (check_compliance_sim h0 assets_ref refs assets Hlist Hassets)
      as (out & h' & Hrun & Hfr & Hpost).
    destruct (frame_prefix _ _ Hfr) as (ext & Hext).
    exists out, h', ext. split; [exact Hrun|]. split; [exact Hext|].
    split; [eapply frame_lookup; eassumption|].
    split; [eapply holds_assets_frame; eassumption|exact Hpost].
Qed.

Lemma inputs_untouched_witness :
  (exists out h' ext,
     HeapCode.analyze_capacity 2 scenario_store = (out, h')
     /\ h' = scenario_store ++ ext
     /\ h' !! 2 = Some (OList [0; 1])
     /\ holds_assets h' [0; 1] (map json_of scenario)
     /\ match analyze_capacity (map json_of scenario) with
        | Ok (cm, n, t) =>
            exists cml, out = inl (cml, n, t)
                        /\ fresh_list OMetric scenario_store (S cml) cml cm h'
        | Raise e => out = inr (Py e)
        end)
  /\ (exists out h' ext,
        HeapCode.check_compliance_and_eol 2 scenario_store = (out, h')
        /\ h' = scenario_store ++ ext
        /\ h' !! 2 = Some (OList [0; 1])
        /\ holds_assets h' [0; 1] (map json_of scenario)
        /\ match check_compliance_and_eol (map json_of scenario) with
           | Ok (eol, vr) =>
               exists le lv,
                 out = inl (le, lv) /\ le <> lv
                 /\ fresh_list OEol scenario_store (S (Nat.max le lv)) le eol h'
                 /\ fresh_list OVendor scenario_store (S (Nat.max le lv)) lv vr h'
           | Raise e => out = inr (Py e)
           end).
Proof.
  apply (inputs_untouched scenario_store 2 [0; 1] (map json_of scenario)).
  - reflexivity.
  - repeat constructor.
Defined.

(** C9: the report is a function of the asset sequence alone.  Two runs of
    the aggregation, the classification and the formatting on stores that
    hold the same sequence of records, at whatever locations and among
    whatever other objects, end alike: with the same report text, or with
    the same exception; and this is the outcome of [build_report] on the
    values. *)
Theorem report_deterministic (h1 h2 : heap) (ref1 ref2 : loc)
    (refs1 refs2 : list loc) (assets : list asset) :
  h1 !! ref1 = Some (OList refs1) ->
  holds_assets h1 refs1 assets ->
  h2 !! ref2 = Some (OList refs2) ->
  holds_assets h2 refs2 assets ->
  fst (HeapCode.build_report ref1 h1) = fst (HeapCode.build_report ref2 h2)
  /\ fst (HeapCode.build_report ref1 h1) = ending (build_report assets) (fun text => text).
Proof.
  intros Hl1 Ha1 Hl2 Ha2.
  destruct (build_report_sim h1 ref1 refs1 assets Hl1 Ha1) as (h1' & Hrun1 & _).
  destruct (build_report_sim h2 ref2 refs2 assets Hl2 Ha2) as (h2' & Hrun2 & _).
  rewrite Hrun1, Hrun2. split; reflexivity.
Qed.

Lemma report_deterministic_witness :
  fst (HeapCode.build_report 2 scenario_store)
  = fst (HeapCode.build_report 3 scenario_store_moved)
  /\ fst (HeapCode.build_report 2 scenario_store)
     = ending (build_report (map json_of scenario)) (fun text => text).
Proof.
  apply (report_deterministic scenario_store scenario_store_moved 2 3 [0; 1] [4; 1]
           (map json_of scenario)).
  - reflexivity.
  - repeat constructor.
  - reflexivity.
  - repeat constructor.
Defined.

End HeapClaims.

(** ** Worked examples *)

Example scenario_capacity :
  analyze_capacity (map json_of scenario)
  = Ok ([ {| cm_rack_id := "R1";
             cm_units_used := 2;
             cm_power_used_kva := "0.50";
             cm_power_utilization := "10.0%";
             cm_units_utilization := "4.8%" |} ], 2, PInt 500).
Proof. vm_compute. reflexivity. Qed.

Example scenario_compliance :
  check_compliance_and_eol (map json_of scenario)
  = Ok ([mk_eol_entry "A1" "R1" (PInt 6) "EOL Risk"],
        [mk_vendor_entry "A1" "R1" "HP" (PInt 6)]).
Proof. vm_compute. reflexivity. Qed.

Example decom_pending_exempt :
  check_compliance_and_eol
    [json_of (mk_full_asset "D1" "R3" "Decom Pending" 1 (PInt 100) (PInt 10) "HP")]
  = Ok ([], []).
Proof. vm_compute. reflexivity. Qed.

Example titles :
  eol_title 3 = "### EOL Assets (Age >= 5.0 Years): 3 Devices Identified"
  /\ vendor_title 2 = "### High-Risk Vendor Assets (HP, EMC): 2 Devices Identified".
Proof. split; vm_compute; reflexivity. Qed.

Example eol_row_text :
  eol_row (mk_eol_entry "A1" "R1" (PInt 6) "EOL Risk")
  = Ok "A1             R1        6.0       EOL Risk       ".
Proof. vm_compute. reflexivity. Qed.

(** [format] rounds the exact binary value, ties to even. *)
Example format_f_rounding :
  format_f 1 (fdiv (float_of_Z 1) (float_of_Z 4)) = "0.2"
  /\ format_f 1 (fdiv (float_of_Z 35) (float_of_Z 100)) = "0.3"
  /\ format_f 2 (fdiv (float_of_Z 1) (float_of_Z 8)) = "0.12"
  /\ format_f 1 (fdiv (float_of_Z (-4)) (float_of_Z 100)) = "-0.0".
Proof. repeat split; vm_compute; reflexivity. Qed.

(** The largest integer that converts is the one just below [int_limit];
    [int_limit] itself rounds to infinity. *)
Example int_limit_is_sharp :
  float_of_Z (int_limit - 1) = S754_finite false 9007199254740991 971
  /\ float_of_Z int_limit = S754_infinity false.
Proof. split; vm_compute; reflexivity. Qed.

(** With float watts the total depends on the grouping by rack: here rack
    R1 sums [0.1 + 0.4] before the [0.1] of rack R2 is added, which gives
    [0.6], while adding the three in input order gives
    [0.6000000000000001]. *)
Example total_power_is_grouped :
  let tenth (n : Z) := fdiv (float_of_Z n) (float_of_Z 10) in
  let recs :=
    [ mk_full_asset "F1" "R1" "Online" 1 (PFloat (tenth 1)) (PInt 1) "Dell";
      mk_full_asset "F2" "R2" "Online" 1 (PFloat (tenth 1)) (PInt 1) "Dell";
      mk_full_asset "F3" "R1" "Online" 1 (PFloat (tenth 4)) (PInt 1) "Dell" ] in
  (exists cm, analyze_capacity (map json_of recs) = Ok (cm, 3, PFloat (tenth 6)))
  /\ (exists f, py_sum (PInt 0) (map fa_watts recs) = Ok (PFloat f)
                /\ SFltb (tenth 6) f = true).
Proof.
  split; [eexists; vm_compute; reflexivity|].
  eexists. split; vm_compute; reflexivity.
Qed.


(** * Further properties *)

(** ** What the functions do not look at *)

Lemma cons_eq_inv {A : Type} (x y : A) (l l' : list A) :
  x :: l = y :: l' -> x = y /\ l = l'.
Proof. intros H. split; congruence. Qed.

Lemma aggregate_step_view (d : Dict.dict rack_metrics) (a b : asset) :
  capacity_view a = capacity_view b -> aggregate_step d a = aggregate_step d b.
Proof.
  unfold capacity_view, aggregate_step. intros H.
  injection H as Hrid Hst Hrest. rewrite <- Hrid, <- Hst.
  destruct (rack_id a) as [rid|]; cbn [getitem bind]; [|reflexivity].
  rewrite <- Hst in Hrest.
  destruct (status a) as [st|]; cbn [getitem bind]; [|reflexivity].
  destruct (String.eqb st "Online"); [|reflexivity].
  injection Hrest as Hu Hw. rewrite <- Hu, <- Hw. reflexivity.
Qed.

Lemma aggregate_view (assets1 assets2 : list asset) :
  map capacity_view assets1 = map capacity_view assets2 ->
  forall d, aggregate d assets1 = aggregate d assets2.
Proof.
  revert assets2. induction assets1 as [|a assets1 IH]; intros [|b assets2] H d;
    try discriminate; [reflexivity|].
  cbn [map] in H. apply cons_eq_inv in H as [Hab Hrest]. cbn [aggregate].
  rewrite (aggregate_step_view d a b Hab).
  destruct (aggregate_step d b) as [d'|e]; cbn [bind]; [|reflexivity].
  apply IH. exact Hrest.
Qed.

(** X1: [analyze_capacity] sees of a record only its [rack_id], its
    [status] and, when that is ["Online"], its [rack_units] and
    [power_watts].  Two snapshots that agree on these give the same metrics,
    count and total (or the same exception): identifiers, vendors, ages,
    the capacity fields of assets that are not online, and which
    non-online status an asset has beyond this, make no difference. *)
Theorem capacity_sees_only_view (assets1 assets2 : list asset) :
  map capacity_view assets1 = map capacity_view assets2 ->
  analyze_capacity assets1 = analyze_capacity assets2.
Proof.
  intros H. unfold analyze_capacity.
  rewrite (aggregate_view _ _ H).
  replace (length assets1) with (length assets2); [reflexivity|].
  rewrite <- (length_map capacity_view assets2), <- H. apply length_map.
Qed.

Lemma capacity_sees_only_view_witness :
  analyze_capacity [sparse_asset; json_of scenario_head]
  = analyze_capacity
      [ json_of (mk_full_asset "Z1" "R1" "Offline" 9 (PInt 9000) (PInt 30) "HP");
        json_of (mk_full_asset "Z2" "R1" "Online" 2 (PInt 500) (PInt 0) "Dell") ].
Proof. apply capacity_sees_only_view. reflexivity. Defined.

Lemma compliance_step_view (acc : list eol_entry * list vendor_entry) (a b : asset) :
  compliance_view a = compliance_view b -> compliance_step acc a = compliance_step acc b.
Proof.
  unfold compliance_view, compliance_step. intros H.
  injection H as Hage Hst Hid Hrid Hv.
  rewrite Hage, Hst, Hid, Hrid, Hv. reflexivity.
Qed.

(** X2: [check_compliance_and_eol] never looks at [rack_units] or
    [power_watts]: two snapshots that agree on the other five fields of
    every record give the same two lists, or the same exception. *)
Theorem compliance_sees_only_view (assets1 assets2 : list asset) :
  map compliance_view assets1 = map compliance_view assets2 ->
  check_compliance_and_eol assets1 = check_compliance_and_eol assets2.
Proof.
  unfold check_compliance_and_eol. generalize (@nil eol_entry, @nil vendor_entry).
  revert assets2. induction assets1 as [|a assets1 IH]; intros [|b assets2] acc H;
    try discriminate; [reflexivity|].
  cbn [map] in H. apply cons_eq_inv in H as [Hab Hrest]. cbn [compliance_loop].
  rewrite (compliance_step_view acc a b Hab).
  destruct (compliance_step acc b) as [acc'|e]; cbn [bind]; [|reflexivity].
  apply IH. exact Hrest.
Qed.

Lemma compliance_sees_only_view_witness :
  check_compliance_and_eol [unitless_asset]
  = check_compliance_and_eol
      [json_of (mk_full_asset "A8" "R2" "Online" 40 (PFloat (float_of_Z 7)) (PInt 7) "EMC")].
Proof. apply compliance_sees_only_view. reflexivity. Defined.

(** ** Which records the classifier accepts *)

Lemma compliance_step_readable (acc : list eol_entry * list vendor_entry) (a : asset) :
  compliance_readable a = true -> exists acc', compliance_step acc a = Ok acc'.
Proof.
  destruct acc as [eol vr]. unfold compliance_step, compliance_readable.
  split_fields a; cbn [getitem bind present]; try discriminate;
    try destruct (py_ge age EOL_AGE_YEARS);
    try destruct (in_list v CRITICAL_VENDORS);
    try destruct (String.eqb st "Decom Pending");
    try destruct (String.eqb st "Online");
    cbn [getitem bind negb andb orb]; try discriminate; eauto.
Qed.

Lemma compliance_step_Raise_key (acc : list eol_entry * list vendor_entry)
    (a : asset) (key : string) :
  compliance_step acc a = Raise (KeyError key) -> In key compliance_keys.
Proof.
  destruct acc as [eol vr]. unfold compliance_step, compliance_keys.
  split_fields a; cbn [getitem bind];
    try destruct (py_ge age EOL_AGE_YEARS);
    try destruct (in_list v CRITICAL_VENDORS);
    try destruct (String.eqb st "Decom Pending");
    try destruct (String.eqb st "Online");
    cbn [getitem bind negb andb orb]; try discriminate;
    intros [= <-]; simpl; tauto.
Qed.

Lemma compliance_step_unreadable (acc : list eol_entry * list vendor_entry) (a : asset) :
  compliance_readable a = false ->
  exists key, compliance_step acc a = Raise (KeyError key)
              /\ absent key a = true /\ In key compliance_keys.
Proof.
  intros Hr. destruct (compliance_step acc a) as [acc'|e] eqn:E.
  - apply compliance_step_Ok_readable in E. congruence.
  - destruct (compliance_step_Raise _ _ _ E) as (key & -> & Ha).
    exists key. split; [reflexivity|]. split; [exact Ha|].
    eapply compliance_step_Raise_key. exact E.
Qed.

Lemma compliance_loop_app (l1 l2 : list asset) :
  forall acc, compliance_loop acc (l1 ++ l2)
              = bind (compliance_loop acc l1) (fun acc' => compliance_loop acc' l2).
Proof.
  induction l1 as [|a l1 IH]; intros acc; cbn [app compliance_loop bind]; [reflexivity|].
  destruct (compliance_step acc a) as [acc'|e]; cbn [bind]; [apply IH|reflexivity].
Qed.

Lemma compliance_loop_readable (assets : list asset) :
  List.Forall (fun a => compliance_readable a = true) assets ->
  forall acc, exists acc', compliance_loop acc assets = Ok acc'.
Proof.
  induction 1 as [|a assets Ha _ IH]; intros acc; cbn [compliance_loop]; [eauto|].
  destruct (compliance_step_readable acc a Ha) as (acc1 & ->). cbn [bind]. apply IH.
Qed.

Lemma check_compliance_readable (assets : list asset) :
  List.Forall (fun a => compliance_readable a = true) assets ->
  exists r, check_compliance_and_eol assets = Ok r.
Proof. intros H. apply (compliance_loop_readable assets H). Qed.

(** X3: [check_compliance_and_eol] returns exactly when every record has
    the fields the classifier reads on it: [asset_age_years] and [vendor]
    always, [status] when the age reaches the threshold or the vendor is
    critical, [asset_id] and [rack_id] when the record is selected.  The
    values of the numbers play no part: no age, however large, infinite or
    not a number, makes it fail. *)
Theorem classifier_accepts_readable (assets : list asset) :
  (exists r, check_compliance_and_eol assets = Ok r)
  <-> List.Forall (fun a => compliance_readable a = true) assets.
Proof.
  unfold check_compliance_and_eol. split.
  - intros (r & H). eapply compliance_loop_Ok_readable. exact H.
  - intros H. apply (compliance_loop_readable assets H).
Qed.

(** X4: the classifier stops at the first record it cannot read.  When
    the records before it are readable, the call ends with a [KeyError]
    naming one of the classifier's keys that this record lacks, whatever
    follows it in the sequence. *)
Theorem classifier_first_error (before after : list asset) (a : asset) :
  List.Forall (fun b => compliance_readable b = true) before ->
  compliance_readable a = false ->
  exists key,
    check_compliance_and_eol (before ++ a :: after) = Raise (KeyError key)
    /\ absent key a = true
    /\ In key compliance_keys.
Proof.
  intros Hb Ha. unfold check_compliance_and_eol.
  destruct (compliance_loop_readable before Hb ([], [])) as (acc & Hacc).
  destruct (compliance_step_unreadable acc a Ha) as (key & Hstep & Habs & Hin).
  exists key. split; [|auto].
  rewrite compliance_loop_app, Hacc. cbn [bind compliance_loop]. rewrite Hstep. reflexivity.
Qed.

Lemma classifier_first_error_witness :
  exists key,
    check_compliance_and_eol ([sparse_asset] ++ ageless_asset :: [rackless_asset])
    = Raise (KeyError key)
    /\ absent key ageless_asset = true
    /\ In key compliance_keys.
Proof.
  apply (classifier_first_error [sparse_asset] [rackless_asset] ageless_asset).
  - repeat constructor.
  - reflexivity.
Defined.

(** ** Which records the aggregator accepts *)

Lemma aggregate_step_unreadable (d : Dict.dict rack_metrics) (a : asset) :
  capacity_readable a = false ->
  exists key, aggregate_step d a = Raise (KeyError key)
              /\ absent key a = true /\ In key capacity_keys.
Proof.
  unfold aggregate_step, capacity_readable, capacity_keys.
  destruct (rack_id a) as [rid|] eqn:Hrid; cbn [getitem bind].
  2:{ intros _. exists "rack_id". unfold absent. rewrite Hrid. simpl. auto. }
  destruct (status a) as [st|] eqn:Hst; cbn [getitem bind].
  2:{ intros _. exists "status". unfold absent. rewrite Hst. simpl. auto. }
  destruct (String.eqb st "Online"); [|discriminate].
  fold (ensure_rack rid d).
  destruct (ensure_rack_get rid d) as (m & ->). cbn [bind].
  destruct (rack_units a) as [u|] eqn:Hu; cbn [getitem bind present].
  2:{ intros _. exists "rack_units". unfold absent. rewrite Hu. simpl. tauto. }
  rewrite DictFacts.get_set_eq. cbn [bind].
  destruct (power_watts a) as [w|] eqn:Hw; cbn [getitem bind present]; [discriminate|].
  intros _. exists "power_watts". unfold absent. rewrite Hw. simpl. tauto.
Qed.

Lemma aggregate_step_readable_Raise (d : Dict.dict rack_metrics) (a : asset) (e : exn) :
  capacity_readable a = true -> aggregate_step d a = Raise e -> e = OverflowError.
Proof.
  intros Hr H. destruct (aggregate_step_Raise d a e H) as [He|(key & -> & Ha)]; [exact He|].
  exfalso. revert H. unfold aggregate_step. unfold capacity_readable in Hr.
  destruct (rack_id a) as [rid|]; cbn [getitem bind]; [|discriminate].
  destruct (status a) as [st|]; cbn [getitem bind]; [|discriminate].
  destruct (String.eqb st "Online"); [|discriminate].
  fold (ensure_rack rid d).
  destruct (ensure_rack_get rid d) as (m & ->). cbn [bind].
  destruct (rack_units a) as [u|]; cbn [getitem bind present] in *; [|discriminate].
  rewrite DictFacts.get_set_eq. cbn [bind].
  destruct (power_watts a) as [w|]; cbn [getitem bind present] in *; [|discriminate].
  intros H. apply bind_Raise in H as [H|(p & _ & H)]; [|discriminate].
  apply py_add_Raise in H. discriminate.
Qed.

Lemma aggregate_readable_Raise (assets : list asset) :
  List.Forall (fun a => capacity_readable a = true) assets ->
  forall d e, aggregate d assets = Raise e -> e = OverflowError.
Proof.
  induction 1 as [|a assets Ha _ IH]; intros d e; cbn [aggregate]; [discriminate|].
  intros H. apply bind_Raise in H as [H|(d1 & _ & H)].
  - eapply aggregate_step_readable_Raise; eauto.
  - eapply IH; eauto.
Qed.

(** X5: the aggregator stops at the first record it cannot read.  When
    the records before it are accepted, [analyze_capacity] ends with a
    [KeyError] naming one of [rack_id], [status], [rack_units],
    [power_watts] that this record lacks, whatever follows; and since the
    aggregator runs first, this is also how the whole report run ends,
    whatever the classifier would have found. *)
Theorem aggregator_first_error (before after : list asset) (a : asset)
    (r : list capacity_metric * Z * pynum) :
  analyze_capacity before = Ok r ->
  capacity_readable a = false ->
  exists key,
    analyze_capacity (before ++ a :: after) = Raise (KeyError key)
    /\ build_report (before ++ a :: after) = Raise (KeyError key)
    /\ absent key a = true
    /\ In key capacity_keys.
Proof.
  intros Hb Ha. destruct r as [[cm n] t].
  apply analyze_capacity_Ok in Hb as (d & Hd & _).
  destruct (aggregate_step_unreadable d a Ha) as (key & Hstep & Habs & Hin).
  exists key.
  assert (Han : analyze_capacity (before ++ a :: after) = Raise (KeyError key)).
  { unfold analyze_capacity. rewrite aggregate_app, Hd. cbn [bind aggregate].
    rewrite Hstep. reflexivity. }
  split; [exact Han|]. split; [|auto].
  unfold build_report. rewrite Han. reflexivity.
Qed.

Lemma aggregator_first_error_witness :
  exists key,
    analyze_capacity ([ageless_asset] ++ unitless_asset :: [rackless_asset])
    = Raise (KeyError key)
    /\ build_report ([ageless_asset] ++ unitless_asset :: [rackless_asset])
       = Raise (KeyError key)
    /\ absent key unitless_asset = true
    /\ In key capacity_keys.
Proof.
  apply (aggregator_first_error [ageless_asset] [rackless_asset] unitless_asset
           ([idle_metric "R1"], 1, PInt 0)).
  - vm_compute. reflexivity.
  - reflexivity.
Defined.

(** X6: when every record has the fields that are read on it, no
    [KeyError] can end the report run: the only exception left is the
    [OverflowError] of an int too large for a float. *)
Theorem readable_run_raises_only_overflow (assets : list asset) (e : exn) :
  List.Forall (fun a => readable a = true) assets ->
  build_report assets = Raise e ->
  e = OverflowError.
Proof.
  intros Hr H.
  assert (Hcap : List.Forall (fun a => capacity_readable a = true) assets).
  { eapply List.Forall_impl; [|exact Hr]. intros a Ha. unfold readable in Ha.
    apply andb_true_iff in Ha. tauto. }
  assert (Hcls : List.Forall (fun a => compliance_readable a = true) assets).
  { eapply List.Forall_impl; [|exact Hr]. intros a Ha. unfold readable in Ha.
    apply andb_true_iff in Ha. tauto. }
  unfold build_report in H.
  apply bind_Raise in H as [H|([[cm n] t] & _ & H)].
  - unfold analyze_capacity in H.
    apply bind_Raise in H as [H|(d & _ & H)]; [eapply aggregate_readable_Raise; eauto|].
    apply bind_Raise in H as [H|(x & _ & H)]; [|discriminate].
    eapply finalize_Raise; eauto.
  - apply bind_Raise in H as [H|([eol vr] & _ & H)].
    + destruct (check_compliance_readable assets Hcls) as (x & Hx). congruence.
    + eapply generate_report_Raise; eauto.
Qed.

Lemma readable_run_raises_only_overflow_witness :
  readable (json_of huge_draw) = true
  /\ build_report [json_of huge_draw] = Raise OverflowError
  /\ OverflowError = OverflowError.
Proof.
  split; [reflexivity|]. split; [vm_compute; reflexivity|].
  apply (readable_run_raises_only_overflow [json_of huge_draw] OverflowError).
  - repeat constructor.
  - vm_compute. reflexivity.
Defined.

(** ** When the formatter and the whole run succeed *)

Lemma float_of_int_Ok (z : Z) (f : float) :
  float_of_int z = Ok f -> (Z.abs z <? int_limit) = true.
Proof. unfold float_of_int. destruct (Z.abs z <? int_limit); [reflexivity|discriminate]. Qed.

Lemma py_div_float_Ok_float_ok (x : pynum) (d q : float) :
  py_div_float x d = Ok q -> float_ok x = true.
Proof.
  destruct x as [z|f]; simpl; [|reflexivity].
  intros H. apply bind_Ok in H as (g & Hg & _). eapply float_of_int_Ok. exact Hg.
Qed.

Lemma py_format_f_Ok_float_ok (d : nat) (x : pynum) (s : string) :
  py_format_f d x = Ok s -> float_ok x = true.
Proof.
  destruct x as [z|f]; simpl; [|reflexivity].
  intros H. apply bind_Ok in H as (g & Hg & _). eapply float_of_int_Ok. exact Hg.
Qed.

Lemma map_result_Ok_each {A B : Type} (f : A -> result B) (l : list A) (ys : list B) :
  map_result f l = Ok ys -> forall x, In x l -> exists y, f x = Ok y.
Proof.
  intros H. apply map_result_Forall2 in H.
  induction H as [|x y l ys Hxy _ IH]; intros x' Hin; [destruct Hin|].
  destruct Hin as [<-|Hin]; eauto.
Qed.

Lemma eol_section_Ok_float_ok (eol : list eol_entry) (part : list string) :
  eol_section eol = Ok part -> forallb (fun e => float_ok (eol_age e)) eol = true.
Proof.
  unfold eol_section. destruct eol as [|e0 eol0]; [reflexivity|].
  intros H. apply bind_Ok in H as (rows & Hrows & _).
  apply forallb_forall. intros e He.
  destruct (map_result_Ok_each _ _ _ Hrows e He) as (row & Hrow).
  unfold eol_row in Hrow. apply bind_Ok in Hrow as (s & Hs & _).
  eapply py_format_f_Ok_float_ok. exact Hs.
Qed.

Lemma vendor_section_Ok_float_ok (vr : list vendor_entry) (part : list string) :
  vendor_section vr = Ok part -> forallb (fun e => float_ok (vr_age e)) vr = true.
Proof.
  unfold vendor_section. destruct vr as [|e0 vr0]; [reflexivity|].
  intros H. apply bind_Ok in H as (rows & Hrows & _).
  apply forallb_forall. intros e He.
  destruct (map_result_Ok_each _ _ _ Hrows e He) as (row & Hrow).
  unfold vendor_row in Hrow. apply bind_Ok in Hrow as (s & Hs & _).
  eapply py_format_f_Ok_float_ok. exact Hs.
Qed.

Lemma generate_report_ok (cm : list capacity_metric) (n : Z) (tp : pynum)
    (eol : list eol_entry) (vr : list vendor_entry) :
  float_ok tp = true ->
  forallb (fun e => float_ok (eol_age e)) eol = true ->
  forallb (fun e => float_ok (vr_age e)) vr = true ->
  exists text, generate_report cm n tp eol vr = Ok text.
Proof.
  intros Hp He Hv. unfold generate_report, report_lines.
  destruct (py_div_float_ok _ watts_per_kva Hp) as (kva & ->). cbn [bind].
  assert (exists part, eol_section eol = Ok part) as (ep & ->).
  { unfold eol_section. destruct eol as [|e0 eol0]; [eauto|].
    destruct (eol_rows_ok _ He) as (rows & ->). cbn [bind]. eauto. }
  cbn [bind].
  assert (exists part, vendor_section vr = Ok part) as (vp & ->).
  { unfold vendor_section. destruct vr as [|e0 vr0]; [eauto|].
    destruct (vendor_rows_ok _ Hv) as (rows & ->). cbn [bind]. eauto. }
  cbn [bind]. eauto.
Qed.

(** X7: for an asset count and unit counts that [str()] accepts (at most
    4300 digits), [generate_report] returns a text exactly when every
    number it has to print converts to a float: the total power and the age
    of every listed candidate are floats, or ints of magnitude below
    [2^1024 - 2^970].  The strings of the capacity metrics never make it
    fail. *)
Theorem formatter_accepts_printable (cm : list capacity_metric) (n : Z) (tp : pynum)
    (eol : list eol_entry) (vr : list vendor_entry) :
  str_ok n = true ->
  forallb (fun m => str_ok (cm_units_used m)) cm = true ->
  (exists text, generate_report cm n tp eol vr = Ok text)
  <-> float_ok tp = true
      /\ forallb (fun e => float_ok (eol_age e)) eol = true
      /\ forallb (fun e => float_ok (vr_age e)) vr = true.
Proof.
  (* The two hypotheses keep the ints within what [str_int] models. *)
  intros _ _. split.
  - intros (text & H). unfold generate_report in H.
    apply bind_Ok in H as (lines & H & _). unfold report_lines in H.
    apply bind_Ok in H as (kva & Hkva & H).
    apply bind_Ok in H as (ep & Hep & H).
    apply bind_Ok in H as (vp & Hvp & _).
    split; [eapply py_div_float_Ok_float_ok; exact Hkva|].
    split; [eapply eol_section_Ok_float_ok; exact Hep|].
    eapply vendor_section_Ok_float_ok; exact Hvp.
  - intros (Hp & He & Hv). apply generate_report_ok; assumption.
Qed.

Lemma formatter_accepts_printable_witness :
  (exists text,
     generate_report [idle_metric "R1"] 2 (PInt 500) [eol_of scenario_head] []
     = Ok text)
  <-> float_ok (PInt 500) = true
      /\ forallb (fun e => float_ok (eol_age e)) [eol_of scenario_head] = true
      /\ forallb (fun e => float_ok (vr_age e)) (@nil vendor_entry) = true.
Proof.
  apply (formatter_accepts_printable [idle_metric "R1"] 2 (PInt 500)
           [eol_of scenario_head] []); vm_compute; reflexivity.
Defined.

Lemma total_power_float_ok (recs : list full_asset) (cm : list capacity_metric)
    (n : Z) (total : pynum) :
  in_range recs = true ->
  analyze_capacity (map json_of recs) = Ok (cm, n, total) ->
  float_ok total = true.
Proof.
  intros Hr Han.
  destruct (analyze_capacity_full recs Hr) as (d & cm' & total' & Han' & Hk & Hok & _ & Ht).
  rewrite Han in Han'. injection Han' as _ _ <-.
  destruct total as [z|f]; [|reflexivity]. cbn [float_ok].
  destruct (in_range_inv _ Hr) as (_ & Hwn & _ & Sw).
  assert (Hb : List.Forall (fun item => 0 <= int_part (power_used_watts (snd item))
                 <= sumZ (map watts_int (rack_online (fst item) recs))) d).
  { eapply List.Forall_impl; [|exact Hok]. intros item Hitem.
    destruct (rack_ok_bounds recs item Hr Hitem) as (_ & Hp & _). exact Hp. }
  pose proof (sumZ_le_keys d (fun r => sumZ (map watts_int (rack_online r recs)))
                (fun m => int_part (power_used_watts m)) Hb) as Hsum.
  rewrite Hk, rack_sums_partition in Hsum.
  pose proof (sumZ_filter_le watts_int is_online recs Hwn) as Hon.
  destruct (py_sum_in_range (map (fun item => power_used_watts (snd item)) d))
    with (acc := PInt 0) as (s & Hs & Hbound).
  { rewrite Forall_map. eapply List.Forall_impl; [|exact Hb]. intros item H.
    cbv beta in *. lia. }
  { simpl. lia. }
  { cbn [int_part]. rewrite map_map. lia. }
  rewrite Ht in Hs. injection Hs as <-. cbn [int_part] in Hbound.
  rewrite map_map in Hbound. apply Z.ltb_lt. lia.
Qed.

Lemma forallb_filter_map {A B : Type} (p : B -> bool) (f : A -> B) (q : A -> bool)
    (l : list A) :
  forallb (fun a => p (f a)) l = true ->
  forallb p (map f (List.filter q l)) = true.
Proof.
  rewrite !forallb_forall. intros H y Hy.
  apply in_map_iff in Hy as (a & <- & Ha). apply filter_In in Ha as [Ha _]. auto.
Qed.

(** X8: on a snapshot that is not empty, whose records have all their
    fields, with non-negative integers and totals and ages that convert to
    floats, the three functions all return and the program prints exactly
    one text, the report, and ends without an exception. *)
Theorem well_formed_run_prints_report (recs : list full_asset) :
  recs <> [] ->
  in_range recs = true ->
  forallb (fun a => float_ok (fa_age a)) recs = true ->
  exists text,
    build_report (map json_of recs) = Ok text
    /\ main (Some (map json_of recs)) = mk_outcome [text] None.
Proof.
  intros Hne Hr Hages.
  destruct (analyze_capacity_full recs Hr) as (d & cm & total & Han & _).
  pose proof (total_power_float_ok _ _ _ _ Hr Han) as Htot.
  assert (Hcl : check_compliance_and_eol (map json_of recs)
                = Ok (map eol_of (List.filter eol_selected recs),
                      map vendor_of (List.filter vendor_selected recs))).
  { unfold check_compliance_and_eol. rewrite compliance_loop_full. reflexivity. }
  destruct (generate_report_ok cm (Z.of_nat (length recs)) total
              (map eol_of (List.filter eol_selected recs))
              (map vendor_of (List.filter vendor_selected recs)) Htot)
    as (text & Htext).
  { apply (forallb_filter_map (fun e => float_ok (eol_age e)) eol_of). exact Hages. }
  { apply (forallb_filter_map (fun e => float_ok (vr_age e)) vendor_of). exact Hages. }
  assert (Hb : build_report (map json_of recs) = Ok text).
  { unfold build_report. rewrite Han. cbn [bind]. rewrite Hcl. cbn [bind]. exact Htext. }
  exists text. split; [exact Hb|].
  unfold main, load_data. destruct recs as [|a recs]; [congruence|].
  cbn [map] in *. rewrite Hb. reflexivity.
Qed.

Lemma well_formed_run_prints_report_witness :
  exists text,
    build_report (map json_of scenario) = Ok text
    /\ main (Some (map json_of scenario)) = mk_outcome [text] None.
Proof.
  apply (well_formed_run_prints_report scenario).
  - discriminate.
  - vm_compute. reflexivity.
  - vm_compute. reflexivity.
Defined.

(** ** The order of the input *)

Lemma filter_Permutation {A : Type} (p : A -> bool) (l l' : list A) :
  Permutation l l' -> Permutation (List.filter p l) (List.filter p l').
Proof.
  induction 1 as [|x l l' _ IH|x y l|l l' l'' _ IH1 _ IH2]; simpl.
  - constructor.
  - destruct (p x); [constructor|]; exact IH.
  - destruct (p x), (p y); try reflexivity. constructor.
  - etransitivity; eassumption.
Qed.

(** X9: the classifier's two lists follow the input order and nothing
    else: on well-formed snapshots that are permutations of one another the
    EOL lists are permutations of one another, and so are the vendor-risk
    lists. *)
Theorem classifier_up_to_order (recs recs' : list full_asset) :
  Permutation recs recs' ->
  exists eol vr eol' vr',
    check_compliance_and_eol (map json_of recs) = Ok (eol, vr)
    /\ check_compliance_and_eol (map json_of recs') = Ok (eol', vr')
    /\ Permutation eol eol'
    /\ Permutation vr vr'.
Proof.
  intros HP.
  exists (map eol_of (List.filter eol_selected recs)),
         (map vendor_of (List.filter vendor_selected recs)),
         (map eol_of (List.filter eol_selected recs')),
         (map vendor_of (List.filter vendor_selected recs')).
  unfold check_compliance_and_eol. rewrite !compliance_loop_full.
  split; [reflexivity|]. split; [reflexivity|].
  split; apply Permutation_map, filter_Permutation; exact HP.
Qed.

Lemma classifier_up_to_order_witness :
  exists eol vr eol' vr',
    check_compliance_and_eol (map json_of scenario) = Ok (eol, vr)
    /\ check_compliance_and_eol (map json_of scenario_swapped) = Ok (eol', vr')
    /\ Permutation eol eol'
    /\ Permutation vr vr'.
Proof. apply (classifier_up_to_order scenario scenario_swapped). apply perm_swap. Defined.

Lemma forallb_Permutation {A : Type} (p : A -> bool) (l l' : list A) :
  Permutation l l' -> forallb p l = forallb p l'.
Proof.
  intros HP. apply Bool.eq_iff_eq_true. rewrite !forallb_forall.
  split; intros H x Hx; apply H.
  - eapply Permutation_in; [symmetry; exact HP|exact Hx].
  - eapply Permutation_in; [exact HP|exact Hx].
Qed.

Lemma in_range_Permutation (recs recs' : list full_asset) :
  Permutation recs recs' -> in_range recs = in_range recs'.
Proof.
  intros HP. unfold in_range.
  rewrite (forallb_Permutation _ _ _ HP).
  rewrite (sumZ_Permutation _ _ (Permutation_map fa_units HP)).
  rewrite (sumZ_Permutation _ _ (Permutation_map watts_int HP)).
  reflexivity.
Qed.

Lemma rack_online_Permutation (r : string) (recs recs' : list full_asset) :
  Permutation recs recs' -> Permutation (rack_online r recs) (rack_online r recs').
Proof. apply filter_Permutation. Qed.

Lemma int_metric_Permutation (recs recs' : list full_asset) (r : string) :
  Permutation recs recs' -> int_metric recs r = int_metric recs' r.
Proof.
  intros HP. unfold int_metric.
  rewrite (sumZ_Permutation _ _ (Permutation_map fa_units (rack_online_Permutation r _ _ HP))).
  rewrite (sumZ_Permutation _ _ (Permutation_map watts_int (rack_online_Permutation r _ _ HP))).
  reflexivity.
Qed.

Lemma first_seen_Permutation (ids ids' : list string) :
  Permutation ids ids' -> Permutation (first_seen ids) (first_seen ids').
Proof.
  intros HP. apply Permutation.NoDup_Permutation; try apply first_seen_NoDup.
  intros x. rewrite !first_seen_In. split; apply Permutation_in; [|symmetry]; exact HP.
Qed.

Lemma analyze_capacity_ints (recs : list full_asset) :
  in_range recs = true ->
  (forall a, In a recs -> exists z, fa_watts a = PInt z) ->
  analyze_capacity (map json_of recs)
  = Ok (map (int_metric recs) (first_seen (map fa_rack recs)),
        Z.of_nat (length recs),
        PInt (sumZ (map watts_int (List.filter is_online recs)))).
Proof.
  intros Hr Hint.
  destruct (analyze_capacity_full recs Hr) as (d & cm & total & Han & Hk & Hok & Hcm & Ht).
  assert (Hitems : List.Forall
            (fun item => snd item
               = mk_rack_metrics (sumZ (map fa_units (rack_online (fst item) recs)))
                   (PInt (sumZ (map watts_int (rack_online (fst item) recs))))) d).
  { eapply List.Forall_impl; [|exact Hok]. intros [r [u p]] [Hu Hp]. cbn [fst snd] in *.
    cbn [units_used power_used_watts] in *. subst u.
    rewrite py_sum_ints in Hp.
    - injection Hp as <-. rewrite map_map. reflexivity.
    - rewrite Forall_map. apply List.Forall_forall. intros a Ha.
      apply Hint. unfold rack_online in Ha. apply filter_In in Ha. tauto. }
  assert (Hcm' : cm = map (int_metric recs) (Dict.keys d)).
  { clear -Hcm Hitems. unfold Dict.keys.
    induction Hcm as [|[r m] c d cm H _ IH]; [reflexivity|].
    apply List.Forall_cons_iff in Hitems as [Hm Hitems]. cbn [fst snd] in Hm.
    cbn [map fst]. f_equal; [|apply IH; exact Hitems].
    unfold int_metric. rewrite <- Hm, H. reflexivity. }
  assert (Htot : total = PInt (sumZ (map watts_int (List.filter is_online recs)))).
  { assert (Hps : map (fun item => power_used_watts (snd item)) d
                 = map (fun r => PInt (sumZ (map watts_int (rack_online r recs))))
                     (Dict.keys d)).
    { clear -Hitems. unfold Dict.keys. induction Hitems as [|item d Hm _ IH]; [reflexivity|].
      cbn [map]. rewrite Hm, IH. reflexivity. }
    rewrite Hps in Ht. rewrite py_sum_ints in Ht.
    - injection Ht as <-. rewrite map_map. cbn [int_part].
      rewrite Hk, rack_sums_partition. reflexivity.
    - rewrite Forall_map. apply List.Forall_forall. intros r _. eauto. }
  rewrite Han, Hcm', Hk, Htot. reflexivity.
Qed.

(** X10: with whole-number watts the aggregator depends on the order of
    the input only for the order of its rows: on well-formed snapshots in
    range that are permutations of one another it returns the same count,
    the same total power, and metrics that are permutations of one
    another. *)
Theorem aggregator_up_to_order (recs recs' : list full_asset) :
  Permutation recs recs' ->
  in_range recs = true ->
  (forall a, In a recs -> exists z, fa_watts a = PInt z) ->
  exists cm cm' n total,
    analyze_capacity (map json_of recs) = Ok (cm, n, total)
    /\ analyze_capacity (map json_of recs') = Ok (cm', n, total)
    /\ Permutation cm cm'.
Proof.
  intros HP Hr Hint.
  assert (Hr' : in_range recs' = true) by (rewrite <- (in_range_Permutation _ _ HP); exact Hr).
  assert (Hint' : forall a, In a recs' -> exists z, fa_watts a = PInt z).
  { intros a Ha. apply Hint. eapply Permutation_in; [symmetry; exact HP|exact Ha]. }
  exists (map (int_metric recs) (first_seen (map fa_rack recs))),
         (map (int_metric recs') (first_seen (map fa_rack recs'))),
         (Z.of_nat (length recs)),
         (PInt (sumZ (map watts_int (List.filter is_online recs)))).
  split; [apply analyze_capacity_ints; assumption|]. split.
  - rewrite (analyze_capacity_ints recs' Hr' Hint').
    rewrite <- (Permutation_length HP).
    rewrite (sumZ_Permutation _ _ (Permutation_map watts_int (filter_Permutation is_online _ _ HP))).
    reflexivity.
  - rewrite (map_ext _ _ (fun r => int_metric_Permutation recs recs' r HP)).
    apply Permutation_map, first_seen_Permutation, Permutation_map. exact HP.
Qed.

Lemma aggregator_up_to_order_witness :
  exists cm cm' n total,
    analyze_capacity (map json_of idle_rack_ints) = Ok (cm, n, total)
    /\ analyze_capacity (map json_of (rev idle_rack_ints)) = Ok (cm', n, total)
    /\ Permutation cm cm'.
Proof.
  apply (aggregator_up_to_order idle_rack_ints (rev idle_rack_ints)).
  - apply Permutation_rev.
  - vm_compute. reflexivity.
  - intros a Ha. simpl in Ha.
    destruct Ha as [<-|[<-|[<-|[]]]]; eexists; reflexivity.
Defined.

(** ** The threshold on whole-number ages *)

(** X11: when the ages are ints, the EOL threshold is inclusive at 5: the
    EOL candidates of a well-formed snapshot are the entries of exactly the
    assets with [5 <= asset_age_years] and a status other than
    ["Decom Pending"], in input order. *)
Theorem eol_threshold_on_ints (recs : list full_asset) :
  (forall a, In a recs -> exists z, fa_age a = PInt z) ->
  exists vr,
    check_compliance_and_eol (map json_of recs)
    = Ok (map eol_of (List.filter eol_selected_int recs), vr).
Proof.
  intros Hint. exists (map vendor_of (List.filter vendor_selected recs)).
  unfold check_compliance_and_eol. rewrite compliance_loop_full. cbn [app].
  do 3 f_equal. apply filter_ext_in. intros a Ha.
  destruct (Hint a Ha) as (z & Hz). unfold eol_selected, eol_selected_int.
  rewrite Hz, int_age_threshold. reflexivity.
Qed.

Lemma eol_threshold_on_ints_witness :
  exists vr,
    check_compliance_and_eol (map json_of five_and_four)
    = Ok (map eol_of (List.filter eol_selected_int five_and_four), vr).
Proof.
  apply (eol_threshold_on_ints five_and_four).
  intros a Ha. simpl in Ha. destruct Ha as [<-|[<-|[]]]; eexists; reflexivity.
Defined.

(** ** The two sections of the report agree *)

Lemma filter_length_le {A : Type} (p : A -> bool) (l : list A) :
  (length (List.filter p l) <= length l)%nat.
Proof. induction l as [|x l IH]; simpl; [lia|]. destruct (p x); simpl; lia. Qed.

(** X12: on a well-formed snapshot in range, no risk row is about a rack
    that the capacity table lacks: the rack of every EOL candidate and of
    every vendor-risk candidate has its entry among the capacity metrics.
    Neither risk list is longer than the total asset count. *)
Theorem risk_rows_have_capacity_rows (recs : list full_asset) :
  in_range recs = true ->
  exists cm total eol vr,
    analyze_capacity (map json_of recs) = Ok (cm, Z.of_nat (length recs), total)
    /\ check_compliance_and_eol (map json_of recs) = Ok (eol, vr)
    /\ (forall e, In e eol -> In (eol_rack e) (map cm_rack_id cm))
    /\ (forall v, In v vr -> In (vr_rack v) (map cm_rack_id cm))
    /\ (length eol <= length recs)%nat
    /\ (length vr <= length recs)%nat.
Proof.
  intros Hr.
  destruct (analyze_capacity_full recs Hr) as (d & cm & total & Han & Hk & _ & Hcm & _).
  pose proof (metrics_keys _ _ Hcm) as Hids. rewrite Hk in Hids.
  exists cm, total, (map eol_of (List.filter eol_selected recs)),
         (map vendor_of (List.filter vendor_selected recs)).
  split; [exact Han|]. split.
  { unfold check_compliance_and_eol. rewrite compliance_loop_full. reflexivity. }
  rewrite Hids. split; [|split; [|split]].
  - intros e He. apply in_map_iff in He as (a & <- & Ha). apply filter_In in Ha as [Ha _].
    apply first_seen_In. cbn [eol_of eol_rack]. apply in_map. exact Ha.
  - intros v Hv. apply in_map_iff in Hv as (a & <- & Ha). apply filter_In in Ha as [Ha _].
    apply first_seen_In. cbn [vendor_of vr_rack]. apply in_map. exact Ha.
  - rewrite length_map. apply filter_length_le.
  - rewrite length_map. apply filter_length_le.
Qed.

Lemma risk_rows_have_capacity_rows_witness :
  exists cm total eol vr,
    analyze_capacity (map json_of idle_rack_ints) = Ok (cm, 3, total)
    /\ check_compliance_and_eol (map json_of idle_rack_ints) = Ok (eol, vr)
    /\ (forall e, In e eol -> In (eol_rack e) (map cm_rack_id cm))
    /\ (forall v, In v vr -> In (vr_rack v) (map cm_rack_id cm))
    /\ (length eol <= 3)%nat
    /\ (length vr <= 3)%nat.
Proof. apply (risk_rows_have_capacity_rows idle_rack_ints). vm_compute. reflexivity. Defined.

(** ** Column widths *)








(** ** Snapshots put end to end *)

Lemma compliance_step_from (acc : list eol_entry * list vendor_entry) (a : asset) :
  compliance_step acc a
  = (r <- compliance_step ([], []) a ;; Ok (fst acc ++ fst r, snd acc ++ snd r)).
Proof.
  destruct acc as [eol vr]. unfold compliance_step.
  split_fields a; cbn [getitem bind];
    try destruct (py_ge age EOL_AGE_YEARS);
    try destruct (in_list v CRITICAL_VENDORS);
    try destruct (String.eqb st "Decom Pending");
    try destruct (String.eqb st "Online");
    cbn [getitem bind negb fst snd app]; rewrite ?app_nil_r; reflexivity.
Qed.

Lemma compliance_loop_from (assets : list asset) :
  forall acc,
    compliance_loop acc assets
    = (r <- compliance_loop ([], []) assets ;; Ok (fst acc ++ fst r, snd acc ++ snd r)).
Proof.
  induction assets as [|a assets IH]; intros acc; cbn [compliance_loop bind].
  - destruct acc as [eol vr]. cbn [fst snd]. rewrite !app_nil_r. reflexivity.
  - rewrite (compliance_step_from acc a).
    destruct (compliance_step ([], []) a) as [[e v]|x]; cbn [bind fst snd]; [|reflexivity].
    rewrite (IH (fst acc ++ e, snd acc ++ v)), (IH (e, v)).
    destruct (compliance_loop ([], []) assets) as [[e' v']|x]; cbn [bind fst snd];
      [|reflexivity].
    rewrite !app_assoc. reflexivity.
Qed.

(** X14: the classifier works record by record, so a snapshot can be
    classified in pieces: the result for two snapshots put end to end is the
    result of the first followed by the result of the second, list by list;
    if either piece raises, the whole raises the same exception, that of the
    first piece before that of the second. *)
Theorem classifier_concat (assets1 assets2 : list asset) :
  check_compliance_and_eol (assets1 ++ assets2)
  = (r1 <- check_compliance_and_eol assets1 ;;
     r2 <- check_compliance_and_eol assets2 ;;
     Ok (fst r1 ++ fst r2, snd r1 ++ snd r2)).
Proof.
  unfold check_compliance_and_eol. rewrite compliance_loop_app.
  destruct (compliance_loop ([], []) assets1) as [acc|x]; cbn [bind]; [|reflexivity].
  apply compliance_loop_from.
Qed.

Lemma in_range_app (recs1 recs2 : list full_asset) :
  in_range (recs1 ++ recs2) = true ->
  in_range recs1 = true /\ in_range recs2 = true.
Proof.
  intros H. destruct (in_range_inv _ H) as (Hu & Hw & Su & Sw).
  apply Forall_app in Hu as [Hu1 Hu2]. apply Forall_app in Hw as [Hw1 Hw2].
  rewrite map_app, sumZ_app in Su, Sw.
  pose proof (sumZ_nonneg (map fa_units recs1)) as U1.
  pose proof (sumZ_nonneg (map fa_units recs2)) as U2.
  pose proof (sumZ_nonneg (map watts_int recs1)) as W1.
  pose proof (sumZ_nonneg (map watts_int recs2)) as W2.
  rewrite Forall_map in U1, U2, W1, W2.
  specialize (U1 Hu1). specialize (U2 Hu2). specialize (W1 Hw1). specialize (W2 Hw2).
  unfold in_range in H |- *.
  rewrite !andb_true_iff in H. destruct H as [[H _] _].
  rewrite forallb_app in H. apply andb_true_iff in H as [H1 H2].
  rewrite H1, H2. cbn [andb].
  split; apply andb_true_iff; split; apply Z.ltb_lt; lia.
Qed.

Lemma filter_id {A : Type} (p : A -> bool) (l : list A) :
  (forall x, In x l -> p x = true) -> List.filter p l = l.
Proof.
  induction l as [|x l IH]; intros H; simpl; [reflexivity|].
  rewrite (H x (or_introl eq_refl)). f_equal. apply IH. intros y Hy. apply H. right. exact Hy.
Qed.

Lemma filter_none {A : Type} (p : A -> bool) (l : list A) :
  (forall x, In x l -> p x = false) -> List.filter p l = [].
Proof.
  induction l as [|x l IH]; intros H; simpl; [reflexivity|].
  rewrite (H x (or_introl eq_refl)). apply IH. intros y Hy. apply H. right. exact Hy.
Qed.

Lemma first_seen_app_disjoint (ids1 ids2 : list string) :
  (forall x, In x ids1 -> ~ In x ids2) ->
  first_seen (ids1 ++ ids2) = first_seen ids1 ++ first_seen ids2.
Proof.
  induction ids1 as [|x ids1 IH]; intros Hd; cbn [app first_seen]; [reflexivity|].
  rewrite IH by (intros y Hy; apply Hd; right; exact Hy).
  rewrite List.filter_app. f_equal. f_equal.
  apply filter_id. intros y Hy. apply (proj1 (first_seen_In y ids2)) in Hy.
  apply negb_true_iff, String.eqb_neq. intros ->.
  apply (Hd x (or_introl eq_refl)). exact Hy.
Qed.

Lemma rack_online_app (r : string) (recs1 recs2 : list full_asset) :
  rack_online r (recs1 ++ recs2) = rack_online r recs1 ++ rack_online r recs2.
Proof. unfold rack_online. apply List.filter_app. Qed.

Lemma rack_online_elsewhere (r : string) (recs : list full_asset) :
  ~ In r (map fa_rack recs) -> rack_online r recs = [].
Proof.
  intros Hr. unfold rack_online. apply filter_none. intros a Ha.
  apply andb_false_iff. right. unfold in_rack. apply String.eqb_neq. intros <-.
  apply Hr, in_map, Ha.
Qed.

(** The entries are determined by the rack ids and the records: two runs
    whose dictionaries hold the sums of the same online assets under the
    same keys produce the same metrics. *)
Lemma metrics_determined (recs recs' : list full_asset) :
  forall (d d' : Dict.dict rack_metrics) (cm cm' : list capacity_metric),
    Dict.keys d = Dict.keys d' ->
    (forall r, In r (Dict.keys d) -> rack_online r recs = rack_online r recs') ->
    List.Forall (rack_ok recs) d ->
    List.Forall (rack_ok recs') d' ->
    List.Forall2 (fun item m => metric_of item = Ok m) d cm ->
    List.Forall2 (fun item m => metric_of item = Ok m) d' cm' ->
    cm = cm'.
Proof.
  unfold Dict.keys.
  intros d d' cm cm' Hk Hsame Hok Hok' H. revert d' cm' Hk Hok'.
  induction H as [|[r m] c d cm Hc _ IH]; intros d' cm' Hk Hok' H'.
  - destruct d' as [|i d']; [|discriminate]. inversion H'. reflexivity.
  - destruct d' as [|[r' m'] d']; [discriminate|].
    inversion H' as [|? c' ? cm'0 Hc' Hrest]; subst.
    cbn [map fst] in Hk. apply cons_eq_inv in Hk as [<- Hk].
    apply List.Forall_cons_iff in Hok as [[Hu Hp] Hok].
    apply List.Forall_cons_iff in Hok' as [[Hu' Hp'] Hok'].
    cbn [fst snd] in *.
    assert (Hm : m = m').
    { rewrite <- (Hsame r (or_introl eq_refl)) in Hu', Hp'.
      destruct m as [u p], m' as [u' p']. cbn [units_used power_used_watts] in *.
      f_equal; congruence. }
    subst m'. f_equal; [congruence|].
    apply (IH (fun x Hx => Hsame x (or_intror Hx)) Hok d' cm'0 Hk Hok' Hrest).
Qed.

Lemma Forall2_app_split {A B : Type} (R : A -> B -> Prop) (l1 l2 : list A) (l : list B) :
  List.Forall2 R (l1 ++ l2) l ->
  exists k1 k2, l = k1 ++ k2 /\ List.Forall2 R l1 k1 /\ List.Forall2 R l2 k2.
Proof.
  revert l. induction l1 as [|x l1 IH]; intros l H; cbn [app] in H.
  - exists [], l. repeat split; [constructor|exact H].
  - inversion H as [|? y ? l' Hxy Hrest]; subst.
    destruct (IH l' Hrest) as (k1 & k2 & -> & H1 & H2).
    exists (y :: k1), k2. repeat split; [constructor; assumption|exact H2].
Qed.

(** X15: racks do not interact.  When two well-formed snapshots name no
    rack in common and stay in range together, the metrics of the two put
    end to end are the metrics of the first followed by the metrics of the
    second, entry for entry, and the counts add up. *)
Theorem aggregator_disjoint_racks (recs1 recs2 : list full_asset) :
  in_range (recs1 ++ recs2) = true ->
  (forall r, In r (map fa_rack recs1) -> ~ In r (map fa_rack recs2)) ->
  exists cm1 cm2 n1 n2 t1 t2 t,
    analyze_capacity (map json_of recs1) = Ok (cm1, n1, t1)
    /\ analyze_capacity (map json_of recs2) = Ok (cm2, n2, t2)
    /\ analyze_capacity (map json_of (recs1 ++ recs2)) = Ok (cm1 ++ cm2, n1 + n2, t).
Proof.
  intros Hr Hdis. destruct (in_range_app _ _ Hr) as [Hr1 Hr2].
  destruct (analyze_capacity_full _ Hr1) as (d1 & cm1 & t1 & Han1 & Hk1 & Hok1 & Hcm1 & _).
  destruct (analyze_capacity_full _ Hr2) as (d2 & cm2 & t2 & Han2 & Hk2 & Hok2 & Hcm2 & _).
  destruct (analyze_capacity_full _ Hr) as (d & cm & t & Han & Hk & Hok & Hcm & _).
  exists cm1, cm2, (Z.of_nat (length recs1)), (Z.of_nat (length recs2)), t1, t2, t.
  split; [exact Han1|]. split; [exact Han2|].
  rewrite Han, length_app, Nat2Z.inj_add. do 3 f_equal.
  rewrite map_app, first_seen_app_disjoint in Hk by exact Hdis.
  assert (Hsplit : exists da db, d = da ++ db /\ Dict.keys da = Dict.keys d1
                                 /\ Dict.keys db = Dict.keys d2).
  { exists (firstn (length d1) d), (skipn (length d1) d).
    split; [symmetry; apply firstn_skipn|].
    unfold Dict.keys in *. rewrite <- firstn_map, <- skipn_map, Hk, <- Hk1, <- Hk2.
    rewrite <- (length_map fst d1).
    rewrite firstn_app, skipn_app, Nat.sub_diag, firstn_all, skipn_all.
    cbn [firstn skipn app]. rewrite app_nil_r. auto. }
  destruct Hsplit as (da & db & -> & Hka & Hkb).
  apply Forall2_app_split in Hcm as (ca & cb & -> & Hca & Hcb).
  apply Forall_app in Hok as [Hoka Hokb].
  f_equal.
  - apply (metrics_determined (recs1 ++ recs2) recs1 da d1 ca cm1); auto.
    intros r Hin. rewrite Hka, Hk1 in Hin. apply (proj1 (first_seen_In _ _)) in Hin.
    rewrite rack_online_app, (rack_online_elsewhere r recs2), app_nil_r; auto.
  - apply (metrics_determined (recs1 ++ recs2) recs2 db d2 cb cm2); auto.
    intros r Hin. rewrite Hkb, Hk2 in Hin. apply (proj1 (first_seen_In _ _)) in Hin.
    rewrite rack_online_app, (rack_online_elsewhere r recs1); auto.
    intros Hin1. exact (Hdis r Hin1 Hin).
Qed.

Lemma aggregator_disjoint_racks_witness :
  exists cm1 cm2 n1 n2 t1 t2 t,
    analyze_capacity (map json_of scenario) = Ok (cm1, n1, t1)
    /\ analyze_capacity (map json_of two_more_racks) = Ok (cm2, n2, t2)
    /\ analyze_capacity (map json_of (scenario ++ two_more_racks))
       = Ok (cm1 ++ cm2, n1 + n2, t).
Proof.
  apply (aggregator_disjoint_racks scenario two_more_racks).
  - vm_compute. reflexivity.
  - intros r Hin Hin'. simpl in Hin, Hin'.
    destruct Hin as [<-|[<-|[]]]; destruct Hin' as [H|[H|[H|[]]]]; discriminate H.
Defined.
